(** * timeseries_generator: factors and the composition engine

    A shallow embedding of the Python package [timeseries_generator]
    (base_factor.py, linear_trend.py, weekday_factor.py, white_noise.py,
    holiday_factor.py, utils.py, generator.py) together with the part of
    pandas the package relies on.

    Conventions of the embedding:
    - a calendar day is an integer (days since 1970-01-01), the package works
      at daily granularity;
    - a Python float is an exact rational ([Q]); rounding is not modelled;
    - a Python dict is an association list in insertion order;
    - a raised exception is the [Raise] branch of [result];
    - a [DataFrame] is a header and a list of rows. *)

From Stdlib Require Import QArith Lqa.
From stdpp Require Import base decidable option list strings gmap.

Open Scope string_scope.
Open Scope Z_scope.
Open Scope list_scope.

(** ** Exceptions and fallible computations *)

(** Modelled from the spec: the module [timeseries_generator.errors], which
    declares [DuplicateNameError], is not among the sources; it is the
    duplicate-name error of the spec, and the engine raises it with the list
    of the factor names. The other constructors are the built-in Python
    exceptions the package and pandas raise. *)
Inductive exn : Type :=
  | AttributeError (msg : string)
  | KeyError (key : string)
  | ValueError (msg : string)
  | TypeError (msg : string)
  | IndexError (msg : string)
  | DuplicateNameError (factor_names : list string).

Inductive result (A : Type) : Type :=
  | OK (a : A)
  | Raise (e : exn).
Arguments OK {A} a.
Arguments Raise {A} e.

Definition result_bind {A B} (f : A → result B) (m : result A) : result B :=
  match m with
  | OK a => f a
  | Raise e => Raise e
  end.

#[global] Instance result_ret : MRet result := @OK.
#[global] Instance result_mbind : MBind result := @result_bind.

Definition is_OK {A} (m : result A) : bool :=
  match m with OK _ => true | Raise _ => false end.

(** ** The part of pandas the package uses *)

Module Pandas.

(** A cell of a frame: a timestamp, a label, a number, or a missing
    value. *)
Inductive cell : Type :=
  | CDate (d : Z)
  | CStr (s : string)
  | CNum (q : Q)
  | CNaN.

#[global] Instance Q_eq_dec : EqDecision Q.
Proof. solve_decision. Defined.
#[global] Instance cell_eq_dec : EqDecision cell.
Proof. solve_decision. Defined.

Record DataFrame : Type := mkDataFrame {
  columns : list string;
  rows : list (list cell)
}.

(** Position of the first column labelled [c]. *)
Fixpoint index_of (c : string) (cols : list string) : option nat :=
  match cols with
  | [] => None
  | c' :: rest =>
      if decide (c = c') then Some 0%nat else S <$> index_of c rest
  end.

Definition lookup_cell (row : list cell) (i : nat) : cell :=
  default CNaN (row !! i).

(** [row[c]] for a row of a frame with header [cols]. *)
Definition get_cell (cols : list string) (row : list cell) (c : string)
    : option cell :=
  i ← index_of c cols; row !! i.

(** First label of [cs] that is not a column, for the [KeyError]. *)
Definition missing_label (cs cols : list string) : option string :=
  head (filter (λ c, c ∉ cols) cs).

(** Positions of the columns whose label satisfies [keep]. *)
Fixpoint positions_from (n : nat) (keep : string → bool)
    (cols : list string) : list nat :=
  match cols with
  | [] => []
  | c :: rest =>
      if keep c then n :: positions_from (S n) keep rest
      else positions_from (S n) keep rest
  end.

Definition select (idx : list nat) (row : list cell) : list cell :=
  lookup_cell row <$> idx.

(** [df[c] = v] on one row: overwrite in place when the column exists,
    append otherwise. *)
Definition set_cell (cols : list string) (c : string) (row : list cell)
    (v : cell) : list cell :=
  match index_of c cols with
  | Some i => <[i := v]> row
  | None => row ++ [v]
  end.

Definition set_header (cols : list string) (c : string) : list string :=
  match index_of c cols with
  | Some _ => cols
  | None => cols ++ [c]
  end.

(** [df[c] = vals], one value per row. *)
Definition set_column (df : DataFrame) (c : string) (vals : list cell)
    : result DataFrame :=
  if decide (length vals = length (rows df)) then
    OK {| columns := set_header (columns df) c;
          rows := zip_with (set_cell (columns df) c) (rows df) vals |}
  else Raise (ValueError "Length of values does not match length of index").

(** [df[c] = v] for a scalar [v]. *)
Definition set_scalar (df : DataFrame) (c : string) (v : cell) : DataFrame :=
  {| columns := set_header (columns df) c;
     rows := (λ row, set_cell (columns df) c row v) <$> rows df |}.

(** [df[c]]: the column as a list, [KeyError] when there is none. *)
Definition get_column (df : DataFrame) (c : string) : result (list cell) :=
  match index_of c (columns df) with
  | Some i => OK ((λ row, lookup_cell row i) <$> rows df)
  | None => Raise (KeyError c)
  end.

(** [df.drop(cs, axis=1)]. *)
Definition drop (df : DataFrame) (cs : list string) : result DataFrame :=
  match missing_label cs (columns df) with
  | Some c => Raise (KeyError c)
  | None =>
      let keep c := bool_decide (c ∉ cs) in
      OK {| columns := filter (λ c, c ∉ cs) (columns df);
            rows := select (positions_from 0 keep (columns df)) <$> rows df |}
  end.

(** [df.fillna(1)]. *)
Definition fill_cell (c : cell) : cell :=
  match c with
  | CNaN => CNum 1
  | _ => c
  end.

Definition fillna1 (df : DataFrame) : DataFrame :=
  {| columns := columns df;
     rows := (λ row : list cell, fill_cell <$> row) <$> rows df |}.

(** [RangeIndex(n)], the index of a frame built without one. *)
Definition default_index (n : nat) : list Z := seqZ 0 (Z.of_nat n).

(** [df[mask]]: the rows of [df] where the mask holds, each with its index
    label. *)
Fixpoint select_rows (index : list Z) (rows : list (list cell))
    (mask : list bool) : list (Z * list cell) :=
  match index, rows, mask with
  | i :: index', row :: rows', b :: mask' =>
      if b then (i, row) :: select_rows index' rows' mask'
      else select_rows index' rows' mask'
  | _, _, _ => []
  end.

(** [df.reset_index()] on rows with an unnamed index: the index labels
    become the first column, labelled [index], or [level_0] when the frame
    has a column [index] already; inserting a label that is taken is a
    [ValueError]. *)
Definition reset_index (cols : list string) (sel : list (Z * list cell))
    : result DataFrame :=
  let name := if decide ("index" ∈ cols) then "level_0" else "index" in
  if decide (name ∈ cols) then
    Raise (ValueError "cannot insert level_0, already exists")
  else
    OK {| columns := name :: cols;
          rows := (λ p : Z * list cell, CNum (inject_Z p.1) :: p.2) <$> sel |}.

(** *** [DataFrame.merge] *)

Inductive how : Type := Left | Inner.

(** The cells of [row] under the labels [on]. *)
Definition key_cells (cols on : list string) (row : list cell)
    : list cell :=
  (λ k, default CNaN (get_cell cols row k)) <$> on.

(** The rows of [r] that agree with [lrow] on the keys. *)
Definition partners (l r : DataFrame) (on : list string) (lrow : list cell)
    : list (list cell) :=
  filter (λ rrow, key_cells (columns r) on rrow
                  = key_cells (columns l) on lrow) (rows r).

(** Positions of the columns of [r] that are not keys. *)
Definition rest_idx (r : DataFrame) (on : list string) : list nat :=
  positions_from 0 (λ c, bool_decide (c ∉ on)) (columns r).

(** The rows of the result that come from the row [lrow] of [l]. *)
Definition join_row (h : how) (l r : DataFrame) (on : list string)
    (lrow : list cell) : list (list cell) :=
  match partners l r on lrow with
  | [] =>
      match h with
      | Left => [lrow ++ replicate (length (rest_idx r on)) CNaN]
      | Inner => []
      end
  | ps => (λ rrow, lrow ++ select (rest_idx r on) rrow) <$> ps
  end.

(** The header of the result: a label that is in both frames and is not a
    key gets [_x] on the left and [_y] on the right. *)
Definition merge_columns (l r : DataFrame) (on : list string)
    : list string :=
  let lrest := filter (λ c, c ∉ on) (columns l) in
  let rrest := filter (λ c, c ∉ on) (columns r) in
  let lname c :=
    if decide ((c ∉ on) ∧ c ∈ rrest) then (c +:+ "_x") else c in
  let rname c := if decide (c ∈ lrest) then (c +:+ "_y") else c in
  (lname <$> columns l) ++ (rname <$> rrest).

(** [l.merge(r, how=h, on=on)] with the default suffixes: the result has
    the columns of [l] followed by the columns of [r] that are not keys.
    Each row of [l], in order, is paired with the rows of [r] that agree
    with it on the keys; for [how = Left] a row of [l] without a partner
    is kept and padded with missing values. A key that is not a column of
    both frames is a [KeyError]. *)
Definition merge (h : how) (l r : DataFrame) (on : list string)
    : result DataFrame :=
  match missing_label on (columns l), missing_label on (columns r) with
  | Some k, _ | None, Some k => Raise (KeyError k)
  | None, None =>
      OK {| columns := merge_columns l r on;
            rows := rows l ≫= join_row h l r on |}
  end.

(** [itertools.product] of the lists [ls]: the leftmost list varies
    slowest. *)
Fixpoint product (ls : list (list cell)) : list (list cell) :=
  match ls with
  | [] => [[]]
  | l :: rest => x ← l; tl ← product rest; [x :: tl]
  end.

(** Numeric view of a cell in an arithmetic operation or reduction: a cell
    that is not a number is a [TypeError] (pandas releases that still drop
    a non-numeric column from a reduction are not modelled). *)
Definition as_num (c : cell) : result Q :=
  match c with
  | CNum q => OK q
  | _ => Raise (TypeError "cannot perform the operation on a non-numeric cell")
  end.

Fixpoint mapM {A B} (f : A → result B) (l : list A) : result (list B) :=
  match l with
  | [] => OK []
  | x :: rest => y ← f x; ys ← mapM f rest; OK (y :: ys)
  end.

(** Product of a list of numbers, from 1, left to right. *)
Definition prod (qs : list Q) : Q := foldl Qmult 1%Q qs.

(** [df[names]] on one row: the cells under [names], [KeyError] for a
    label that is not a column. *)
Definition get_cells (cols : list string) (row : list cell)
    (names : list string) : result (list cell) :=
  mapM (λ c, match index_of c cols with
             | Some i => OK (lookup_cell row i)
             | None => Raise (KeyError c)
             end) names.

(** [df[names].prod(axis=1)] on one row. *)
Definition row_prod (cols : list string) (row : list cell)
    (names : list string) : result Q :=
  cells ← get_cells cols row names; qs ← mapM as_num cells; OK (prod qs).

End Pandas.
Export Pandas.

(** ** Python values used by the factors *)

(** [Dict[str, List[str]]]: feature name to its value labels. *)
Definition FeatureSet : Type := list (string * list string).

(** [Dict[str, V]] lookups: [d.get(k)] and [d[k]]. *)
Fixpoint dict_get {V} (d : list (string * V)) (k : string) : option V :=
  match d with
  | [] => None
  | (k', v) :: rest => if decide (k = k') then Some v else dict_get rest k
  end.

Definition dict_item {V} (d : list (string * V)) (k : string) : result V :=
  match dict_get d k with
  | Some v => OK v
  | None => Raise (KeyError k)
  end.

(** Truth value of an optional float: [None] and [0] are falsy. *)
Definition truthy_float (x : option Q) : bool :=
  match x with
  | Some q => negb (Qeq_bool q 0)
  | None => false
  end.

(** Truth value of an optional dict or list: [None] and the empty one are
    falsy. *)
Definition truthy_dict {A} (x : option (list A)) : bool :=
  match x with
  | Some (_ :: _) => true
  | _ => false
  end.

(** Truth value of an optional string: [None] and [""] are falsy. *)
Definition truthy_str (x : option string) : bool :=
  match x with
  | Some s => bool_decide (s ≠ "")
  | None => false
  end.

(** The process-wide random source: [draws] is the sequence of standard
    normal samples it will return and [pos] how many were consumed. *)
Record Rng : Type := mkRng { draws : nat → Q; pos : nat }.

(** [randn(n)]. *)
Definition randn (n : nat) (g : Rng) : list Q * Rng :=
  (draws g <$> seq (pos g) n, {| draws := draws g; pos := (pos g + n)%nat |}).

(** ** utils.py *)

(** [df1.assign(key=1).merge(df2.assign(key=1), on="key").drop("key", axis=1)] *)
Definition get_cartesian_product (df1 df2 : DataFrame) : result DataFrame :=
  m ← merge Inner (set_scalar df1 "key" (CNum 1)) (set_scalar df2 "key" (CNum 1))
        ["key"];
  drop m ["key"].

(** ** base_factor.py *)

Record BaseFactor : Type := mkBaseFactor {
  _col_name : string;
  _features : FeatureSet;
  _date_col_name : string;
  _apply_to_all : bool
}.

Definition BaseFactor_init (col_name : string) (features : option FeatureSet)
    (date_col_name : string) (apply_to_all : bool) : result BaseFactor :=
  let features := default [] features in
  if apply_to_all && bool_decide (features ≠ []) then
    Raise (AttributeError
             "Factor cannot apply to all features, while specifying a feature.")
  else
    OK {| _col_name := col_name; _features := features;
          _date_col_name := date_col_name; _apply_to_all := apply_to_all |}.

(** The [features] setter. *)
Definition set_features (b : BaseFactor) (keys : FeatureSet) : BaseFactor :=
  {| _col_name := _col_name b; _features := keys;
     _date_col_name := _date_col_name b; _apply_to_all := _apply_to_all b |}.

(** [get_datetime_index]: [date_range(start, end)] contains both ends; with
    no end date it has 50 periods. *)
Definition get_datetime_index (start_date : Z) (end_date : option Z)
    : list Z :=
  match end_date with
  | Some e => seqZ start_date (e - start_date + 1)
  | None => seqZ start_date 50
  end.

(** [index.to_frame(index=False, name=name)]. *)
Definition to_frame (index : list Z) (name : string) : DataFrame :=
  {| columns := [name]; rows := (λ d, [CDate d]) <$> index |}.

(** [dr.join(df)] for a one-column [df] on the same index: [ValueError] when
    the label is already a column of [dr]. *)
Definition join_column (dr : DataFrame) (c : string) (vals : list cell)
    : result DataFrame :=
  if decide (c ∈ columns dr) then
    Raise (ValueError "columns overlap but no suffix specified")
  else
    OK {| columns := columns dr ++ [c];
          rows := imap (λ i row, row ++ [lookup_cell vals i]) (rows dr) |}.

(** A frame of [n] rows and no column, the start of a dict of columns. *)
Definition empty_frame (n : nat) : DataFrame :=
  {| columns := []; rows := replicate n [] |}.

(** [row[c]] inside [DataFrame.apply(f, axis=1)]. *)
Definition row_item (cols : list string) (row : list cell) (c : string)
    : result cell :=
  match get_cell cols row c with
  | Some v => OK v
  | None => Raise (KeyError c)
  end.

(** [(row[c] - start).days]. *)
Definition days_since (start : Z) (c : cell) : result Q :=
  match c with
  | CDate d => OK (inject_Z (d - start))
  | _ => Raise (TypeError "unsupported operand type(s) for -")
  end.

(** ** linear_trend.py *)

Module LinearTrend.

Record t : Type := mk {
  base : BaseFactor;
  _coef : option Q;
  _offset : option Q;
  _feature : option string;
  _feature_values : option (list (string * list (string * Q)))
}.

Definition incomplete (value : list (string * Q)) : bool :=
  bool_decide (dict_get value "coef" = None)
  || bool_decide (dict_get value "offset" = None).

Definition init (coef offset : option Q) (feature : option string)
    (feature_values : option (list (string * list (string * Q))))
    (col_name : string) : result t :=
  if negb ((bool_decide (coef ≠ None) && bool_decide (offset ≠ None)
            && bool_decide (feature = None)
            && bool_decide (feature_values = None))
           || (bool_decide (coef = None) && bool_decide (offset = None)
               && bool_decide (feature ≠ None)
               && bool_decide (feature_values ≠ None)))
  then Raise (AttributeError
                "Either set `coef` and `offset` or `features` and `feature_values`")
  else
    features ←
      (if truthy_str feature then
         let fv := default [] feature_values in
         if existsb incomplete fv.*2 then
           Raise (AttributeError
                    "Each feature value should have a `coef` and an `offset`")
         else OK (Some [(default "" feature, fv.*1)])
       else OK None);
    b ← BaseFactor_init col_name features "date" false;
    OK {| base := b; _coef := coef; _offset := offset;
          _feature := feature; _feature_values := feature_values |}.

(** The closure [get_factor_col] of [generate]. *)
Definition get_factor_col (date_col : string) (start_date_ts : Z)
    (len_dr : nat) (cols : list string) (row : list cell) : result cell :=
  d ← row_item cols row date_col;
  days ← days_since start_date_ts d;
  c ← row_item cols row "coef";
  coef ← as_num c;
  o ← row_item cols row "offset";
  offset ← as_num o;
  OK (CNum (coef / inject_Z (Z.of_nat len_dr) * days + 1 + offset)%Q).

Definition generate (self : t) (start_date : Z) (end_date : option Z)
    : result DataFrame :=
  let date_col := _date_col_name (base self) in
  let col := _col_name (base self) in
  let index := get_datetime_index start_date end_date in
  let dr := to_frame index date_col in
  match index with
  | [] => Raise (IndexError "single positional indexer is out-of-bounds")
  | start_date_ts :: _ =>
      if truthy_dict (_feature_values self) then
        let fv := default [] (_feature_values self) in
        coefs ← mapM (λ feat, dict_item feat "coef") fv.*2;
        offsets ← mapM (λ feat, dict_item feat "offset") fv.*2;
        df0 ← set_column (empty_frame (length fv))
                (default "" (_feature self)) (CStr <$> fv.*1);
        df1 ← set_column df0 "coef" (CNum <$> coefs);
        df ← set_column df1 "offset" (CNum <$> offsets);
        factor_df ← get_cartesian_product dr df;
        vals ← mapM (get_factor_col date_col start_date_ts (length index)
                       (columns factor_df)) (rows factor_df);
        factor_df ← set_column factor_df col vals;
        drop factor_df ["coef"; "offset"]
      else
        match _coef self, _offset self with
        | Some coef, Some offset =>
            let n := inject_Z (Z.of_nat (length index)) in
            join_column dr col
              ((λ t : nat,
                  CNum (coef / n * inject_Z (Z.of_nat t) + 1 + offset)%Q)
                 <$> seq 0 (length index))
        | _, _ => Raise (TypeError "unsupported operand type(s): NoneType")
        end
  end.

End LinearTrend.

(** ** weekday_factor.py *)

Module WeekdayFactor.

Record t : Type := mk {
  base : BaseFactor;
  _factor_values : list (Z * Q);
  _intensity_scale : Q
}.

(** Friday, Saturday and Sunday. *)
Definition default_factor_values : list (Z * Q) :=
  [(4, 115 # 100); (5, 13 # 10); (6, 13 # 10)].

Definition init (factor_values : option (list (Z * Q))) (col_name : string)
    (intensity_scale : Q) : result t :=
  let factor_values := default default_factor_values factor_values in
  b ← BaseFactor_init col_name None "date" false;
  OK {| base := b; _factor_values := factor_values;
        _intensity_scale := intensity_scale |}.

(** [Timestamp.dayofweek], Monday is 0; day 0 (1970-01-01) is a Thursday. *)
Definition dayofweek (d : Z) : Z := (d + 3) `mod` 7.

(** [factor_values.get(k, dflt)]. *)
Fixpoint factor_get (d : list (Z * Q)) (k : Z) (dflt : Q) : Q :=
  match d with
  | [] => dflt
  | (k', v) :: rest => if decide (k = k') then v else factor_get rest k dflt
  end.

(** [.dt.dayofweek] on one cell. *)
Definition weekday_cell (c : cell) : result cell :=
  match c with
  | CDate d => OK (CNum (inject_Z (dayofweek d)))
  | _ => Raise (AttributeError
                  "Can only use .dt accessor with datetimelike values")
  end.

(** The lambda applied to the [weekday] column, whose cells are the
    integers written by [weekday_cell]. *)
Definition factor_cell (self : t) (c : cell) : result cell :=
  match c with
  | CNum (Qmake day_number 1) =>
      OK (CNum (factor_get (_factor_values self) day_number 1
                * _intensity_scale self)%Q)
  | _ => Raise (TypeError "weekday is not an integer")
  end.

(** [df[date_col] >= start_date] and [df[date_col] < end_date] on one
    row. *)
Definition in_span (start_date : Z) (end_date : option Z) (c : cell)
    : result bool :=
  match c with
  | CDate d =>
      OK (match end_date with
          | None => bool_decide (start_date ≤ d)
          | Some e => bool_decide (start_date ≤ d) && bool_decide (d < e)
          end)
  | _ => Raise (TypeError "Invalid comparison between a number and Timestamp")
  end.

(** [generate]: the selected rows keep their index labels, which
    [reset_index()] turns into a first column; the column labelled [index]
    is dropped last. *)
Definition generate (self : t) (start_date : Z) (end_date : option Z)
    : result DataFrame :=
  let date_col := _date_col_name (base self) in
  let col := _col_name (base self) in
  let df := to_frame (get_datetime_index start_date end_date) date_col in
  dates ← get_column df date_col;
  weekdays ← mapM weekday_cell dates;
  df ← set_column df "weekday" weekdays;
  wd ← get_column df "weekday";
  vals ← mapM (factor_cell self) wd;
  df ← set_column df col vals;
  df ← drop df ["weekday"];
  dates ← get_column df date_col;
  mask ← mapM (in_span start_date end_date) dates;
  df_sel ← reset_index (columns df)
             (select_rows (default_index (length (rows df))) (rows df) mask);
  drop df_sel ["index"].

End WeekdayFactor.

(** ** white_noise.py *)

Module WhiteNoise.

(** [Dict[str, Dict[str, float]]]: feature name to the standard deviation
    of each of its values. *)
Definition FeatureValues : Type := list (string * list (string * Q)).

Record t : Type := mk {
  base : BaseFactor;
  _stdev_factor : option Q;
  _feature_values : option FeatureValues
}.

(** The default of the [stdev_factor] argument. *)
Definition default_stdev_factor : option Q := Some (5 # 100).

(** The factor stores [feature_values] itself as its features; iterating
    an inner dict yields its keys. *)
Definition features_of (fv : FeatureValues) : FeatureSet :=
  (λ kv : string * list (string * Q), (kv.1, kv.2.*1)) <$> fv.

Definition init (stdev_factor : option Q)
    (feature_values : option FeatureValues) (col_name : string) : result t :=
  if (truthy_float stdev_factor && truthy_dict feature_values)
     || negb (truthy_float stdev_factor || truthy_dict feature_values)
  then Raise (AttributeError "Either set `stdev_factor` or `feature_values`")
  else
    b ← (if truthy_dict feature_values then
           let fv := default [] feature_values in
           if decide (1 < length fv)%nat then
             Raise (AttributeError
                      "WhiteNoise, can only set feature values on one feature")
           else BaseFactor_init col_name (Some (features_of fv)) "date" false
         else BaseFactor_init col_name None "date" true);
    OK {| base := b; _stdev_factor := stdev_factor;
          _feature_values := feature_values |}.

(** The closure [get_factor_col] of the per-feature-value branch; it reads
    the column [noise1]. *)
Definition get_factor_col (fv : FeatureValues) (feature : string)
    (cols : list string) (row : list cell) : result cell :=
  stdevs ← dict_item fv feature;
  label ← row_item cols row feature;
  stdev_factor ←
    match label with
    | CStr s => dict_item stdevs s
    | _ => Raise (KeyError "label")
    end;
  z ← row_item cols row "noise1";
  noise ← as_num z;
  OK (CNum (stdev_factor * noise + 1)%Q).

(** [stdev_factor * randn(n) + 1]. *)
Definition scaled_noise (stdev_factor : option Q) (noise : list Q)
    : result (list cell) :=
  match stdev_factor with
  | Some s => OK ((λ z, CNum (s * z + 1)%Q) <$> noise)
  | None => Raise (TypeError "unsupported operand type(s) for *: NoneType")
  end.

(** The per-feature-value branch once the frame of dates and labels is
    built: the samples are stored under [noise_1], then
    [apply(get_factor_col, axis=1)] runs on every row and [drop("noise1",
    axis=1)] on its result. On a frame with rows the result of [apply] is
    a Series, which has no axis 1; on a frame without rows it is a copy
    of the frame, which has no column to hold it. *)
Definition per_feature_value (fv : FeatureValues) (col : string)
    (factor_df : DataFrame) (noise : list Q) : result DataFrame :=
  let feature := default "" (head fv.*1) in
  factor_df ← set_column factor_df "noise_1" (CNum <$> noise);
  vals ← mapM (get_factor_col fv feature (columns factor_df))
           (rows factor_df);
  match vals with
  | _ :: _ => Raise (ValueError "No axis named 1 for object type Series")
  | [] =>
      _ ← drop factor_df ["noise1"];
      Raise (ValueError "Wrong number of items passed, placement implies 1")
  end.

Definition generate (self : t) (start_date : Z) (end_date : option Z)
    (g : Rng) : result DataFrame * Rng :=
  let date_col := _date_col_name (base self) in
  let col := _col_name (base self) in
  let dr := to_frame (get_datetime_index start_date end_date) date_col in
  match _features (base self) with
  | _ :: _ =>
      let feats := _features (base self) in
      let df :=
        {| columns := feats.*1;
           rows := product ((λ vs : list string, CStr <$> vs) <$> feats.*2) |}
      in
      match get_cartesian_product dr df with
      | Raise e => (Raise e, g)
      | OK factor_df =>
          let '(noise, g') := randn (length (rows factor_df)) g in
          if truthy_dict (_feature_values self) then
            (per_feature_value (default [] (_feature_values self)) col
               factor_df noise, g')
          else
            (vals ← scaled_noise (_stdev_factor self) noise;
             set_column factor_df col vals, g')
      end
  | [] =>
      let '(noise, g') := randn (length (rows dr)) g in
      (vals ← scaled_noise (_stdev_factor self) noise;
       join_column dr col vals, g')
  end.

End WhiteNoise.

(** ** The factor interface seen by the engine *)

(** An object of a subclass of [BaseFactor]: the properties the engine reads
    and writes, and its [generate] method. The method reads the object's
    state; [features] is the only part of it the engine rebinds, so the
    method takes the current value of [features] as an argument. *)
Record Factor : Type := mkFactor {
  col_name : string;
  date_col_name : string;
  features : FeatureSet;
  apply_to_all : bool;
  generate_with : FeatureSet → Z → option Z → Rng → result DataFrame * Rng
}.

(** [f.features = keys]. *)
Definition rebind (f : Factor) (keys : FeatureSet) : Factor :=
  {| col_name := col_name f; date_col_name := date_col_name f;
     features := keys; apply_to_all := apply_to_all f;
     generate_with := generate_with f |}.

(** [f.generate(start_date, end_date)]. *)
Definition factor_generate (f : Factor) (start_date : Z) (end_date : option Z)
    (g : Rng) : result DataFrame * Rng :=
  generate_with f (features f) start_date end_date g.

(** A factor is deterministic when its output does not depend on the random
    source and it leaves the source alone. *)
Definition deterministic (f : Factor) : Prop :=
  ∀ feats s e g g',
    (generate_with f feats s e g).1 = (generate_with f feats s e g').1
    ∧ (generate_with f feats s e g).2 = g.

Definition of_base (b : BaseFactor)
    (gen : FeatureSet → Z → option Z → Rng → result DataFrame * Rng)
    : Factor :=
  {| col_name := _col_name b; date_col_name := _date_col_name b;
     features := _features b; apply_to_all := _apply_to_all b;
     generate_with := gen |}.

Definition LinearTrend_factor (lt : LinearTrend.t) : Factor :=
  of_base (LinearTrend.base lt)
    (λ feats s e g,
       (LinearTrend.generate
          {| LinearTrend.base := set_features (LinearTrend.base lt) feats;
             LinearTrend._coef := LinearTrend._coef lt;
             LinearTrend._offset := LinearTrend._offset lt;
             LinearTrend._feature := LinearTrend._feature lt;
             LinearTrend._feature_values := LinearTrend._feature_values lt |}
          s e, g)).

Definition WeekdayFactor_factor (wf : WeekdayFactor.t) : Factor :=
  of_base (WeekdayFactor.base wf)
    (λ feats s e g,
       (WeekdayFactor.generate
          {| WeekdayFactor.base := set_features (WeekdayFactor.base wf) feats;
             WeekdayFactor._factor_values := WeekdayFactor._factor_values wf;
             WeekdayFactor._intensity_scale :=
               WeekdayFactor._intensity_scale wf |}
          s e, g)).

Definition WhiteNoise_factor (wn : WhiteNoise.t) : Factor :=
  of_base (WhiteNoise.base wn)
    (λ feats s e g,
       WhiteNoise.generate
         {| WhiteNoise.base := set_features (WhiteNoise.base wn) feats;
            WhiteNoise._stdev_factor := WhiteNoise._stdev_factor wn;
            WhiteNoise._feature_values := WhiteNoise._feature_values wn |}
         s e g).

(** ** generator.py *)

Module Generator.

(** [_factors] is the set of factors, in the order in which the set is
    iterated. *)
Record t : Type := mk {
  _factors : list Factor;
  _features : FeatureSet;
  _base_value : Q;
  _date_range : option (list Z);
  _ts : option DataFrame
}.

(** [__init__]: a missing [features] becomes the empty dict; a missing
    [date_range] stays [None] (the statement that builds a default range
    discards it). *)
Definition init (factors : list Factor) (features : option FeatureSet)
    (date_range : option (list Z)) (base_value : Q) : t :=
  {| _factors := factors; _features := default [] features;
     _base_value := base_value; _date_range := date_range; _ts := None |}.

(** The combination of dates and feature values. *)
Definition skeleton (self : t) : result DataFrame :=
  match _date_range self with
  | None => Raise (TypeError "'NoneType' object is not iterable")
  | Some dr =>
      OK {| columns := "date" :: (_features self).*1;
            rows := product ((CDate <$> dr)
                             :: ((λ vs : list string, CStr <$> vs) <$> (_features self).*2)) |}
  end.

(** [if f.apply_to_all: f.features = self._features]. *)
Definition rebound (feats : FeatureSet) (f : Factor) : Factor :=
  if apply_to_all f then rebind f feats else f.

(** One turn of the loop over the factors: rebind the features of an
    apply-to-all factor, generate between the first and the last date of
    the range, left-merge on the factor's feature names and the date, and
    fill what is missing with 1. The renaming of the factor's date column
    is not assigned to anything in the source, so it has no effect. *)
Definition merge_factor (feats : FeatureSet) (dr : list Z) (f : Factor)
    (ts : DataFrame) (g : Rng) : result DataFrame * Factor * Rng :=
  let f := rebound feats f in
  match head dr, last dr with
  | Some start_date, Some end_date =>
      match factor_generate f start_date (Some end_date) g with
      | (Raise e, g') => (Raise e, f, g')
      | (OK df, g') =>
          (m ← merge Left ts df ((features f).*1 ++ ["date"]);
           OK (fillna1 m), f, g')
      end
  | _, _ => (Raise (IndexError "index 0 is out of bounds"), f, g)
  end.

(** The loop over the factors; the factors after a failing one are not
    touched. *)
Fixpoint merge_factors (feats : FeatureSet) (dr : list Z) (fs : list Factor)
    (ts : DataFrame) (g : Rng) : result DataFrame * list Factor * Rng :=
  match fs with
  | [] => (OK ts, [], g)
  | f :: rest =>
      match merge_factor feats dr f ts g with
      | (Raise e, f', g') => (Raise e, f' :: rest, g')
      | (OK ts', f', g') =>
          let '(r, rest', g'') := merge_factors feats dr rest ts' g' in
          (r, f' :: rest', g'')
      end
  end.

(** What the calls of [f.generate] in the loop return, in order, when the
    loop starts with the random source [g]. *)
Fixpoint generated (feats : FeatureSet) (dr : list Z) (fs : list Factor)
    (g : Rng) : list (result DataFrame) :=
  match fs with
  | [] => []
  | f :: rest =>
      match head dr, last dr with
      | Some start_date, Some end_date =>
          let '(r, g') :=
            factor_generate (rebound feats f) start_date (Some end_date) g in
          r :: generated feats dr rest g'
      | _, _ => []
      end
  end.

(** [len(factor_names) != len(set(factor_names))]. *)
Definition has_duplicates (factor_names : list string) : bool :=
  bool_decide (length factor_names ≠ length (remove_dups factor_names)).

(** [ts["total_factor"] * ts["base_amount"]] on one row. *)
Definition value_cell (cols : list string) (row : list cell) : result cell :=
  tf ← row_item cols row "total_factor";
  total_factor ← as_num tf;
  ba ← row_item cols row "base_amount";
  base_amount ← as_num ba;
  OK (CNum (total_factor * base_amount)%Q).

(** The two derived columns. *)
Definition add_totals (ts : DataFrame) (factor_names : list string)
    : result DataFrame :=
  totals ← mapM (λ row, row_prod (columns ts) row factor_names) (rows ts);
  ts ← set_column ts "total_factor" (CNum <$> totals);
  values ← mapM (value_cell (columns ts)) (rows ts);
  set_column ts "value" values.

(** The table as it stands after the loop, with the factors as the loop
    leaves them and the random source it leaves. *)
Definition merged (self : t) (g : Rng)
    : result DataFrame * list Factor * Rng :=
  match skeleton self with
  | Raise e => (Raise e, _factors self, g)
  | OK ts =>
      merge_factors (_features self) (default [] (_date_range self))
        (_factors self) (set_scalar ts "base_amount" (CNum (_base_value self)))
        g
  end.

Definition with_factors (self : t) (fs : list Factor) : t :=
  {| _factors := fs; _features := _features self;
     _base_value := _base_value self; _date_range := _date_range self;
     _ts := _ts self |}.

Definition with_ts (self : t) (ts : DataFrame) : t :=
  {| _factors := _factors self; _features := _features self;
     _base_value := _base_value self; _date_range := _date_range self;
     _ts := Some ts |}.

(** [Generator.generate]: the returned table or the raised exception, the
    engine afterwards, and the random source afterwards. *)
Definition generate (self : t) (g : Rng) : result DataFrame * t * Rng :=
  let '(r, fs, g') := merged self g in
  let self := with_factors self fs in
  match r with
  | Raise e => (Raise e, self, g')
  | OK ts =>
      let factor_names := col_name <$> fs in
      if has_duplicates factor_names then
        (Raise (DuplicateNameError factor_names), self, g')
      else
        match add_totals ts factor_names with
        | Raise e => (Raise e, self, g')
        | OK ts => (OK ts, with_ts self ts, g')
        end
  end.

End Generator.

(** ** holiday_factor.py: [clean_holiday_tuples] *)

Module HolidayFactor.

(** The loop of [clean_holiday_tuples]: [visited] is the set of dates seen
    so far and [output] the pairs kept so far. *)
Fixpoint clean_loop (input_tuples : list (Z * string)) (visited : gset Z)
    (output : list (Z * string)) : list (Z * string) :=
  match input_tuples with
  | [] => output
  | (a, b) :: rest =>
      if decide (a ∈ visited) then clean_loop rest visited output
      else clean_loop rest ({[a]} ∪ visited) (output ++ [(a, b)])
  end.

Definition clean_holiday_tuples (input_tuples : list (Z * string))
    : list (Z * string) :=
  clean_loop input_tuples ∅ [].

(** [first_at l i a]: position [i] of [l] holds a pair dated [a] and no
    earlier position does. *)
Definition first_at (l : list (Z * string)) (i : nat) (a : Z) (b : string)
    : Prop :=
  l !! i = Some (a, b) ∧ ∀ j p, (j < i)%nat → l !! j = Some p → p.1 ≠ a.

End HolidayFactor.

(** ** generator.py: changing the factor set *)

Module FactorSet.

(** Modelled from the spec: [FactorAlreadyExistsError] is declared in the
    module [timeseries_generator.errors], which is not among the sources; it
    is the already-exists error of the spec. It carries the name of the
    factor that was refused. *)
Inductive error : Type :=
  | FactorAlreadyExistsError (col_name : string).

(** [add_factor]: a new element of a set has no defined place in the
    iteration order; it is put last. *)
Definition add_factor (self : Generator.t) (factor : Factor)
    : error + Generator.t :=
  if decide (col_name factor ∈ col_name <$> Generator._factors self) then
    inl (FactorAlreadyExistsError (col_name factor))
  else
    inr (Generator.with_factors self (Generator._factors self ++ [factor])).

(** [update_factor]: when the name is taken, the set is rebuilt without the
    factors that carry it; the factor is added in both cases. *)
Definition update_factor (self : Generator.t) (factor : Factor)
    : Generator.t :=
  let factors :=
    if decide (col_name factor ∈ col_name <$> Generator._factors self) then
      filter (λ f, col_name f ≠ col_name factor) (Generator._factors self)
    else Generator._factors self in
  Generator.with_factors self (factors ++ [factor]).

End FactorSet.

(** ** base_factor.py and the factors: property setters *)

Module Setters.

(** The [date_col_name] setter of [BaseFactor]. *)
Definition set_date_col_name (b : BaseFactor) (name : string) : BaseFactor :=
  {| _col_name := _col_name b; _features := _features b;
     _date_col_name := name; _apply_to_all := _apply_to_all b |}.

Definition LinearTrend_with_base (self : LinearTrend.t) (b : BaseFactor)
    : LinearTrend.t :=
  {| LinearTrend.base := b;
     LinearTrend._coef := LinearTrend._coef self;
     LinearTrend._offset := LinearTrend._offset self;
     LinearTrend._feature := LinearTrend._feature self;
     LinearTrend._feature_values := LinearTrend._feature_values self |}.

(** The [coef] setter of [LinearTrend]. *)
Definition LinearTrend_set_coef (self : LinearTrend.t) (value : option Q)
    : result LinearTrend.t :=
  if truthy_dict (LinearTrend._feature_values self) then
    Raise (ValueError "Cannot set coef when feature_values is set.")
  else
    OK {| LinearTrend.base := LinearTrend.base self;
          LinearTrend._coef := value;
          LinearTrend._offset := LinearTrend._offset self;
          LinearTrend._feature := LinearTrend._feature self;
          LinearTrend._feature_values := LinearTrend._feature_values self |}.

(** The [offset] setter of [LinearTrend]. *)
Definition LinearTrend_set_offset (self : LinearTrend.t) (value : option Q)
    : result LinearTrend.t :=
  if truthy_dict (LinearTrend._feature_values self) then
    Raise (ValueError "Cannot set offset when feature_values is set.")
  else
    OK {| LinearTrend.base := LinearTrend.base self;
          LinearTrend._coef := LinearTrend._coef self;
          LinearTrend._offset := value;
          LinearTrend._feature := LinearTrend._feature self;
          LinearTrend._feature_values := LinearTrend._feature_values self |}.

(** The [feature] setter of [LinearTrend]. *)
Definition LinearTrend_set_feature (self : LinearTrend.t) (feature : string)
    : LinearTrend.t :=
  {| LinearTrend.base := LinearTrend.base self;
     LinearTrend._coef := LinearTrend._coef self;
     LinearTrend._offset := LinearTrend._offset self;
     LinearTrend._feature := Some feature;
     LinearTrend._feature_values := LinearTrend._feature_values self |}.

(** The [feature_values] setter of [LinearTrend]. *)
Definition LinearTrend_set_feature_values (self : LinearTrend.t)
    (feature_values : list (string * list (string * Q)))
    : result LinearTrend.t :=
  if truthy_float (LinearTrend._coef self)
     || truthy_float (LinearTrend._offset self) then
    Raise (ValueError "Cannot set feature_values when offset and coef are set.")
  else if existsb LinearTrend.incomplete feature_values.*2 then
    Raise (AttributeError
             "Each feature value should have a `coef` and an `offset`")
  else
    OK {| LinearTrend.base := LinearTrend.base self;
          LinearTrend._coef := LinearTrend._coef self;
          LinearTrend._offset := LinearTrend._offset self;
          LinearTrend._feature := LinearTrend._feature self;
          LinearTrend._feature_values := Some feature_values |}.

(** The [stdev_factor] setter of [WhiteNoise]. *)
Definition WhiteNoise_set_stdev_factor (self : WhiteNoise.t) (f : option Q)
    : WhiteNoise.t :=
  {| WhiteNoise.base := WhiteNoise.base self;
     WhiteNoise._stdev_factor := f;
     WhiteNoise._feature_values := WhiteNoise._feature_values self |}.

(** The [feature_values] setter of [WhiteNoise]. *)
Definition WhiteNoise_set_feature_values (self : WhiteNoise.t)
    (feature_values : WhiteNoise.FeatureValues) : result WhiteNoise.t :=
  if decide (1 < length feature_values)%nat then
    Raise (AttributeError
             "WhiteNoise, can only set feature values on one feature")
  else
    OK {| WhiteNoise.base := WhiteNoise.base self;
          WhiteNoise._stdev_factor := WhiteNoise._stdev_factor self;
          WhiteNoise._feature_values := Some feature_values |}.

End Setters.

(** ** random_feature_factor.py *)

Module RandomFeatureFactor.

Record t : Type := mk {
  base : BaseFactor;
  _feature : string;
  _feature_values : list string;
  _min_factor_value : Q;
  _max_factor_value : Q
}.

(** [min_factor_value > max_factor_value]. *)
Definition min_above_max (min_factor_value max_factor_value : Q) : bool :=
  negb (Qle_bool min_factor_value max_factor_value).

Definition init (feature : string) (feature_values : list string)
    (min_factor_value max_factor_value : Q) (col_name : string) : result t :=
  b ← BaseFactor_init col_name (Some [(feature, feature_values)]) "date" false;
  if min_above_max min_factor_value max_factor_value then
    Raise (ValueError "min_factor_value > max_factor_value")
  else
    OK {| base := b; _feature := feature; _feature_values := feature_values;
          _min_factor_value := min_factor_value;
          _max_factor_value := max_factor_value |}.

(** [np.random.random(n)]: the next [n] samples of the random source, which
    the caller takes from the interval from 0 to 1. *)
Definition random (n : nat) (g : Rng) : list Q * Rng :=
  (draws g <$> seq (pos g) n, {| draws := draws g; pos := (pos g + n)%nat |}).

(** [min + (max - min) * u]. *)
Definition scale (self : t) (u : Q) : Q :=
  (_min_factor_value self
   + (_max_factor_value self - _min_factor_value self) * u)%Q.

Definition generate (self : t) (start_date : Z) (end_date : option Z)
    (g : Rng) : result DataFrame * Rng :=
  let date_col := _date_col_name (base self) in
  let col := _col_name (base self) in
  let dr := to_frame (get_datetime_index start_date end_date) date_col in
  let '(us, g') := random (length (_feature_values self)) g in
  let feat_factor := scale self <$> us in
  (df0 ← set_column (empty_frame (length (_feature_values self)))
           (_feature self) (CStr <$> _feature_values self);
   factor_df ← set_column df0 col (CNum <$> feat_factor);
   get_cartesian_product dr factor_df, g').

End RandomFeatureFactor.

(** ** external_factors/external_factor.py *)

Module ExternalFactor.

(** An object of a subclass of [ExternalFactor]; [load_data] is what its
    [load_data()] returns or raises. *)
Record t : Type := mk {
  base : BaseFactor;
  _min_date : option Z;
  _max_date : option Z;
  load_data : result DataFrame
}.

(** [generate]: the rows of the loaded data whose [date] is in the span;
    the column is looked up under the fixed label [date]. *)
Definition generate (self : t) (start_date : Z) (end_date : option Z)
    : result DataFrame :=
  data ← load_data self;
  dates ← get_column data "date";
  mask ← mapM (WeekdayFactor.in_span start_date end_date) dates;
  OK {| columns := columns data;
        rows := (filter (λ rm, rm.2 = true) (zip (rows data) mask)).*1 |}.

End ExternalFactor.

(** ** holiday_factor.py: the factors of one year *)

Module HolidayYear.

Record t : Type := mk {
  base : BaseFactor;
  _holiday_factor : Q;
  _special_holiday_factors : list (string * Q)
}.

Definition default_country_list : list string :=
  ["Netherlands"; "Italy"; "Romania"].

Definition init (col_name : string) (holiday_factor : Q)
    (special_holiday_factors : option (list (string * Q)))
    (country_feature_name : option string)
    (country_list : option (list string)) : result t :=
  let special_holiday_factors := default [] special_holiday_factors in
  let country_feature_name := default "country" country_feature_name in
  let country_list := default default_country_list country_list in
  b ← BaseFactor_init col_name (Some [(country_feature_name, country_list)])
        "date" false;
  OK {| base := b; _holiday_factor := holiday_factor;
        _special_holiday_factors := special_holiday_factors |}.

(** The closure [get_holiday_factor] on one cell of the [holiday] column. *)
Definition get_holiday_factor (self : t) (holiday : cell) : result cell :=
  match holiday with
  | CNaN => OK (CNum 1)
  | CStr h =>
      OK (CNum (match dict_get (_special_holiday_factors self) h with
                | Some q => q
                | None => _holiday_factor self
                end))
  | _ => OK (CNum (_holiday_factor self))
  end.

(** The name stored under the date [d] in a series indexed by dates. *)
Fixpoint series_get (series : list (Z * string)) (d : Z) : option string :=
  match series with
  | [] => None
  | (a, b) :: rest => if decide (d = a) then Some b else series_get rest d
  end.

(** [Series(names, index=dates).reindex(ix)]: a series whose index has a
    repeated label cannot be reindexed; a label of [ix] that is not in the
    index gets a missing value. *)
Definition reindex (series : list (Z * string)) (ix : list Z)
    : result (list cell) :=
  if decide (NoDup series.*1) then
    OK ((λ d, match series_get series d with
              | Some b => CStr b
              | None => CNaN
              end) <$> ix)
  else Raise (ValueError "cannot reindex from a duplicate axis").

(** One turn of the loop over the years in [get_country_holiday_df], up to
    the frame that is appended to the country's frame: [holidays] is what
    the calendar returns for the year and [ix] the days of the year. The
    column [holiday] is read by label after the three labels are assigned;
    when the date column carries the same label the selection is a frame
    and the closure fails on the truth value of a column. *)
Definition year_frame (self : t) (country_name : string)
    (holidays : list (Z * string)) (ix : list Z) : result DataFrame :=
  let date_col := _date_col_name (base self) in
  let col := _col_name (base self) in
  let holidays_tuples := HolidayFactor.clean_holiday_tuples holidays in
  names ← reindex holidays_tuples ix;
  let df :=
    {| columns := [date_col; "holiday"; "country"];
       rows := zip_with (λ d h, [CDate d; h; CStr country_name]) ix names |} in
  if decide (date_col = "holiday") then
    Raise (ValueError "The truth value of a Series is ambiguous")
  else
    hols ← get_column df "holiday";
    vals ← mapM (get_holiday_factor self) hols;
    set_column df col vals.


End HolidayYear.

(** ** sinusoidal_factor.py *)

Module SinusoidalFactor.

Record t : Type := mk {
  base : BaseFactor;
  _wavelength : option Q;
  _amplitude : Q;
  _phase : Q;
  _mean : Q;
  _feature : option string;
  _feature_values : option (list (string * list (string * Q)))
}.

Definition VARIABLES : list string :=
  ["wavelength"; "amplitude"; "phase"; "mean"].

(** [len({"wavelength", "amplitude", "phase", "mean"} & set(keys)) != 4]. *)
Definition incomplete (value : list (string * Q)) : bool :=
  bool_decide (length (filter (λ v, v ∈ value.*1) VARIABLES) ≠ 4%nat).

Definition init (wavelength : option Q) (amplitude phase mean : Q)
    (col_name date_col_name : string) (feature : option string)
    (feature_values : option (list (string * list (string * Q))))
    : result t :=
  if xorb (bool_decide (feature = None)) (bool_decide (feature_values = None))
  then Raise (AttributeError
                "Either set `feature` and `feature_values` or set neither.")
  else
    features ←
      (if truthy_str feature then
         let fv := default [] feature_values in
         if existsb incomplete fv.*2 then
           Raise (AttributeError
                    "Please set the variables for every label.")
         else OK (Some [(default "" feature, fv.*1)])
       else OK None);
    b ← BaseFactor_init col_name features date_col_name false;
    OK {| base := b; _wavelength := wavelength; _amplitude := amplitude;
          _phase := phase; _mean := mean; _feature := feature;
          _feature_values := feature_values |}.

(** Adding the mean to the scaled sine; a sine that is not a number stays
    missing. *)
Definition add_mean (scaled : cell) (mean : Q) : cell :=
  match scaled with
  | CNum x => CNum (x + mean)%Q
  | _ => CNaN
  end.

Section float_arithmetic.

(** The floating-point expression [amplitude * sin(2 * pi * (t + phase) /
    wavelength)] is not evaluated here. [wave amplitude t phase wavelength]
    stands for its evaluation on the scalars of one row, which can raise (a
    division by a zero wavelength), and [wave_array] for its evaluation on
    one element of a numpy array, which returns a number or a missing
    value. *)
Variable wave : Q → Q → Q → Q → result cell.
Variable wave_array : Q → Q → Q → Q → cell.

(** The closure [get_factor_col] of [generate]. *)
Definition get_factor_col (date_col : string) (start_date_ts : Z)
    (cols : list string) (row : list cell) : result cell :=
  d ← row_item cols row date_col;
  t ← days_since start_date_ts d;
  a ← row_item cols row "amplitude";
  amplitude ← as_num a;
  p ← row_item cols row "phase";
  phase ← as_num p;
  w ← row_item cols row "wavelength";
  wavelength ← as_num w;
  scaled ← wave amplitude t phase wavelength;
  m ← row_item cols row "mean";
  mean ← as_num m;
  OK (add_mean scaled mean).

Definition generate (self : t) (start_date : Z) (end_date : option Z)
    : result DataFrame :=
  let date_col := _date_col_name (base self) in
  let col := _col_name (base self) in
  let index := get_datetime_index start_date end_date in
  let dr := to_frame index date_col in
  match index with
  | [] => Raise (IndexError "single positional indexer is out-of-bounds")
  | start_date_ts :: _ =>
      if truthy_dict (_feature_values self) then
        let fv := default [] (_feature_values self) in
        wavelengths ← mapM (λ feat, dict_item feat "wavelength") fv.*2;
        amplitudes ← mapM (λ feat, dict_item feat "amplitude") fv.*2;
        phases ← mapM (λ feat, dict_item feat "phase") fv.*2;
        means ← mapM (λ feat, dict_item feat "mean") fv.*2;
        df0 ← set_column (empty_frame (length fv))
                (default "" (_feature self)) (CStr <$> fv.*1);
        df1 ← set_column df0 "wavelength" (CNum <$> wavelengths);
        df2 ← set_column df1 "amplitude" (CNum <$> amplitudes);
        df3 ← set_column df2 "phase" (CNum <$> phases);
        df ← set_column df3 "mean" (CNum <$> means);
        factor_df ← get_cartesian_product dr df;
        vals ← mapM (get_factor_col date_col start_date_ts
                       (columns factor_df)) (rows factor_df);
        factor_df ← set_column factor_df col vals;
        drop factor_df VARIABLES
      else
        match _wavelength self with
        | Some wavelength =>
            join_column dr col
              ((λ t : nat,
                  add_mean
                    (wave_array (_amplitude self) (inject_Z (Z.of_nat t))
                       (_phase self) wavelength)
                    (_mean self))
                 <$> seq 0 (length index))
        | None => Raise (TypeError "unsupported operand type(s): NoneType")
        end
  end.

End float_arithmetic.

End SinusoidalFactor.

(** ** Sample objects *)

Module Sample.

(** [LinearTrend(coef=0.05, offset=1.)]. *)
Definition global_trend : LinearTrend.t :=
  {| LinearTrend.base :=
       {| _col_name := "lin_trend"; _features := [];
          _date_col_name := "date"; _apply_to_all := false |};
     LinearTrend._coef := Some (5 # 100);
     LinearTrend._offset := Some 1%Q;
     LinearTrend._feature := None;
     LinearTrend._feature_values := None |}.

Definition trend_values : list (string * list (string * Q)) :=
  [("foo_feat", [("coef", 5 # 100); ("offset", 1%Q)]);
   ("bar_feat", [("coef", 1 # 10); ("offset", 1 # 2)])].

(** [LinearTrend(feature="my_feature", feature_values={...})]. *)
Definition feature_trend : LinearTrend.t :=
  {| LinearTrend.base :=
       {| _col_name := "lin_trend";
          _features := [("my_feature", ["foo_feat"; "bar_feat"])];
          _date_col_name := "date"; _apply_to_all := false |};
     LinearTrend._coef := None;
     LinearTrend._offset := None;
     LinearTrend._feature := Some "my_feature";
     LinearTrend._feature_values := Some trend_values |}.

(** [WeekdayFactor()]. *)
Definition weekday : WeekdayFactor.t :=
  {| WeekdayFactor.base :=
       {| _col_name := "weekend_trend_factor"; _features := [];
          _date_col_name := "date"; _apply_to_all := false |};
     WeekdayFactor._factor_values := WeekdayFactor.default_factor_values;
     WeekdayFactor._intensity_scale := 1%Q |}.

Definition noise_values : WhiteNoise.FeatureValues :=
  [("my_feature", [("foo_feat", 5 # 100); ("bar_feat", 1 # 10)])].

(** [WhiteNoise(stdev_factor=None, feature_values={...})]. *)
Definition feature_noise : WhiteNoise.t :=
  {| WhiteNoise.base :=
       {| _col_name := "white_noise";
          _features := [("my_feature", ["foo_feat"; "bar_feat"])];
          _date_col_name := "date"; _apply_to_all := false |};
     WhiteNoise._stdev_factor := None;
     WhiteNoise._feature_values := Some noise_values |}.

(** A random source whose samples are all zero. *)
Definition rng0 : Rng := {| draws := λ _, 0%Q; pos := 0 |}.

(** A random source whose samples are 1, 2, 3, ... *)
Definition rng1 : Rng := {| draws := λ n, inject_Z (Z.of_nat (S n)); pos := 0 |}.

(** [Generator(factors={feature_trend, weekday},
    features={"my_feature": ["foo_feat", "bar_feat", "baz_feat"]},
    date_range=<days 0 to 2>, base_value=5)]: the value [baz_feat] is not
    covered by the trend. *)
Definition engine : Generator.t :=
  Generator.init
    [LinearTrend_factor feature_trend; WeekdayFactor_factor weekday]
    (Some [("my_feature", ["foo_feat"; "bar_feat"; "baz_feat"])])
    (Some [0; 1; 2]) 5%Q.

Definition empty_table : DataFrame := {| columns := []; rows := [] |}.

(** The table [engine] generates. *)
Definition engine_table : DataFrame :=
  Eval vm_compute in
    match (Generator.generate engine rng0).1.1 with
    | OK ts => ts
    | Raise _ => empty_table
    end.

(** Two trends under the default name [lin_trend]. *)
Definition engine_same_names : Generator.t :=
  Generator.init
    [LinearTrend_factor global_trend; LinearTrend_factor feature_trend]
    (Some [("my_feature", ["foo_feat"; "bar_feat"; "baz_feat"])])
    (Some [0; 1; 2]) 5%Q.

(** The same two trends in an engine that declares no feature. *)
Definition engine_same_names_no_feature : Generator.t :=
  Generator.init
    [LinearTrend_factor global_trend; LinearTrend_factor feature_trend]
    None (Some [0; 1; 2]) 5%Q.

(** [WhiteNoise(stdev_factor=0.05)], which applies to all features. *)
Definition global_noise : WhiteNoise.t :=
  {| WhiteNoise.base :=
       {| _col_name := "white_noise"; _features := [];
          _date_col_name := "date"; _apply_to_all := true |};
     WhiteNoise._stdev_factor := Some (5 # 100);
     WhiteNoise._feature_values := None |}.

Definition engine_noise : Generator.t :=
  Generator.init [WhiteNoise_factor global_noise]
    (Some [("my_feature", ["foo_feat"; "bar_feat"])]) (Some [0; 1]) 1%Q.

End Sample.

(** ** More sample objects *)

Module Sample2.

(** [LinearTrend(coef=0.1, offset=0., col_name="trend_2")]. *)
Definition trend_2 : LinearTrend.t :=
  {| LinearTrend.base :=
       {| _col_name := "trend_2"; _features := [];
          _date_col_name := "date"; _apply_to_all := false |};
     LinearTrend._coef := Some (1 # 10);
     LinearTrend._offset := Some 0%Q;
     LinearTrend._feature := None;
     LinearTrend._feature_values := None |}.

(** [trend_2] after [trend_2.date_col_name = "day"]. *)
Definition trend_day : LinearTrend.t :=
  Setters.LinearTrend_with_base trend_2
    (Setters.set_date_col_name (LinearTrend.base trend_2) "day").

(** What [trend_day] generates for the days 0 and 1. *)
Definition trend_day_frame : DataFrame :=
  Eval vm_compute in
    match LinearTrend.generate trend_day 0 (Some 1) with
    | OK df => df
    | Raise _ => Sample.empty_table
    end.

(** An engine with no factor. *)
Definition engine_no_factor : Generator.t :=
  Generator.init []
    (Some [("my_feature", ["foo_feat"; "bar_feat"])]) (Some [0; 1]) 5%Q.

(** An engine whose range of dates is empty. *)
Definition engine_no_date : Generator.t :=
  Generator.init [LinearTrend_factor trend_2] None (Some []) 5%Q.

(** An engine whose only factor names its date column [day]. *)
Definition engine_day : Generator.t :=
  Generator.init [LinearTrend_factor trend_day] None (Some [0; 1]) 5%Q.

(** The combinations of dates and feature values of [Sample.engine]. *)
Definition engine_skeleton : DataFrame :=
  {| columns := ["date"; "my_feature"];
     rows := product [CDate <$> [0; 1; 2];
                      CStr <$> ["foo_feat"; "bar_feat"; "baz_feat"]] |}.

(** Two frames that share the label [x]; the second has a column [key]. *)
Definition frame_a : DataFrame :=
  {| columns := ["date"; "x"];
     rows := [[CDate 0; CNum 1]; [CDate 1; CNum 2]] |}.

Definition frame_b : DataFrame :=
  {| columns := ["x"; "key"];
     rows := [[CStr "u"; CNum 7]; [CStr "v"; CNum 8]; [CStr "w"; CNum 9]] |}.

Definition frame_c : DataFrame :=
  {| columns := ["label"; "weight"];
     rows := [[CStr "u"; CNum 7]; [CStr "v"; CNum 8]; [CStr "w"; CNum 9]] |}.

(** A random source whose samples are all one half. *)
Definition rng_half : Rng := {| draws := λ _, 1 # 2; pos := 3 |}.

(** [RandomFeatureFactor(feature="store", feature_values=["store_1",
    "store_2"], min_factor_value=1, max_factor_value=10)]. *)
Definition store_factor : RandomFeatureFactor.t :=
  {| RandomFeatureFactor.base :=
       {| _col_name := "random_feature_factor";
          _features := [("store", ["store_1"; "store_2"])];
          _date_col_name := "date"; _apply_to_all := false |};
     RandomFeatureFactor._feature := "store";
     RandomFeatureFactor._feature_values := ["store_1"; "store_2"];
     RandomFeatureFactor._min_factor_value := 1;
     RandomFeatureFactor._max_factor_value := 10 |}.

(** The data of an external factor: one value per day and country. *)
Definition country_data : DataFrame :=
  {| columns := ["date"; "country"; "gdp"];
     rows := [[CDate 0; CStr "Italy"; CNum (3 # 4)];
              [CDate 0; CStr "Romania"; CNum (1 # 4)];
              [CDate 1; CStr "Italy"; CNum (3 # 4)];
              [CDate 2; CStr "Italy"; CNum (4 # 5)];
              [CDate 3; CStr "Romania"; CNum (1 # 3)]] |}.

Definition country_factor : ExternalFactor.t :=
  {| ExternalFactor.base :=
       {| _col_name := "gdp";
          _features := [("country", ["Italy"; "Romania"])];
          _date_col_name := "date"; _apply_to_all := false |};
     ExternalFactor._min_date := Some 0;
     ExternalFactor._max_date := Some 3;
     ExternalFactor.load_data := OK country_data |}.

(** [HolidayFactor(holiday_factor=2., special_holiday_factors={"Liberation
    Day": 10.})]. *)
Definition holiday : HolidayYear.t :=
  {| HolidayYear.base :=
       {| _col_name := "holiday_trend_factor";
          _features := [("country", HolidayYear.default_country_list)];
          _date_col_name := "date"; _apply_to_all := false |};
     HolidayYear._holiday_factor := 2;
     HolidayYear._special_holiday_factors := [("Liberation Day", 10%Q)] |}.

(** A calendar that lists two names for the day 3. *)
Definition calendar : list (Z * string) :=
  [(1, "New year"); (3, "Ascension Thursday"); (3, "Liberation Day")].









End Sample2.

(** ** More notions used in the statements *)

(** No two rows of the frame [df] of the factor [f] carry the same keys. *)
Definition unique_keys (f : Factor) (df : DataFrame) : Prop :=
  NoDup (key_cells (columns df) ((features f).*1 ++ ["date"]) <$> rows df).

(** The two forms of a linear trend exclude each other: when values per
    feature value are in force, neither a global coefficient nor a global
    offset is. *)
Definition exclusive (lt : LinearTrend.t) : Prop :=
  truthy_dict (LinearTrend._feature_values lt) = true →
  truthy_float (LinearTrend._coef lt) = false
  ∧ truthy_float (LinearTrend._offset lt) = false.

(** [start_date <= row["date"]] and [row["date"] < end_date] on a row
    whose [date] cell is a timestamp. *)
Definition date_in_span (start_date : Z) (end_date : option Z)
    (cols : list string) (row : list cell) : bool :=
  match get_cell cols row "date" with
  | Some (CDate d) =>
      match end_date with
      | None => bool_decide (start_date ≤ d)
      | Some e => bool_decide (start_date ≤ d) && bool_decide (d < e)
      end
  | _ => false
  end.

(** The first name listed for the day [d] by a calendar. *)
Definition first_name (holidays : list (Z * string)) (d : Z)
    : option string :=
  snd <$> head (filter (λ p : Z * string, p.1 = d) holidays).




(** Date-only keys, one per day. *)
Definition date_keys (days : list Z) : list (list cell) :=
  (λ d, [CDate d]) <$> days.


(** ** Notions used in the statements *)

Section notions.
Import Generator.

(** A frame is rectangular when every row is as long as the header. *)
Definition rect (df : DataFrame) : Prop :=
  Forall (λ row, length row = length (columns df)) (rows df).

(** The cells of a row under the columns that satisfy [keep]. *)
Fixpoint keep_cells (keep : string → bool) (cols : list string)
    (row : list cell) : list cell :=
  match cols, row with
  | c :: cols', v :: row' =>
      if keep c then v :: keep_cells keep cols' row'
      else keep_cells keep cols' row'
  | _, _ => []
  end.

(** Value of a linear trend [t] days after the start of a range of [N]
    days, as the source writes it. *)
Definition linear_value (coef offset : Q) (N t : Z) : Q :=
  (coef / inject_Z N * inject_Z t + 1 + offset)%Q.

Definition coef_of (d : list (string * Q)) : Q :=
  default 0%Q (dict_get d "coef").
Definition offset_of (d : list (string * Q)) : Q :=
  default 0%Q (dict_get d "offset").

(** In the table [ts] made from the merged table [m], the row [row] made
    from [mrow] has [total_factor] equal to the product of the cells of
    [mrow] under [names], [value] equal to that product times the row's
    [base_amount], and every other column as in [mrow]. *)
Definition totals_of (m ts : DataFrame) (names : list string)
    (row mrow : list cell) : Prop :=
  ∃ vals b,
    Forall2 (λ c v, get_cell (columns m) mrow c = Some (CNum v)) names vals
    ∧ get_cell (columns ts) row "total_factor" = Some (CNum (prod vals))
    ∧ get_cell (columns ts) row "base_amount" = Some (CNum b)
    ∧ get_cell (columns ts) row "value" = Some (CNum (prod vals * b)%Q)
    ∧ ∀ c, c ≠ "total_factor" → c ≠ "value" →
           get_cell (columns ts) row c = get_cell (columns m) mrow c.

(** The factor contract on a generated frame: a date column, the columns
    of the factor's features, and the factor's value column. *)
Definition conforms (f : Factor) (df : DataFrame) : Prop :=
  columns df = "date" :: (features f).*1 ++ [col_name f].

(** The keys of the merge of a factor. *)
Definition factor_keys (f : Factor) : list string :=
  (features f).*1 ++ ["date"].

(** A row of a factor's frame with the keys of [row]. *)
Definition covered (f : Factor) (df : DataFrame) (cols : list string)
    (row : list cell) : Prop :=
  ∃ rrow, rrow ∈ rows df
          ∧ key_cells (columns df) (factor_keys f) rrow
            = key_cells cols (factor_keys f) row.

(** Every frame generated in the loop obeys the factor contract, and the
    features its factor declares are among the labels [base]. *)
Definition contract (base : list string) (feats : FeatureSet) (dr : list Z)
    (fs : list Factor) (g : Rng) : Prop :=
  ∀ k f df,
    fs !! k = Some f → generated feats dr fs g !! k = Some (OK df) →
    conforms (rebound feats f) df
    ∧ ∀ key, key ∈ (features (rebound feats f)).*1 → key ∈ base.

End notions.

(** One step of a sequence of fallible frame operations. *)
Ltac step := cbn [mbind result_mbind result_bind columns rows].

(** * Lemmas on the frame operations *)

Lemma bind_OK {A B : Type} (m : result A) (f : A → result B) (b : B) :
  m ≫= f = OK b ↔ ∃ a, m = OK a ∧ f a = OK b.
Proof.
  destruct m as [a | e]; simpl; split.
    - intros H. by exists a.
    - by intros (a' & [= <-] & H).
    - done.
    - by intros (a' & ? & _).
Qed.

Section result_lemmas.
Context {A B : Type}.

Lemma mapM_OK (f : A → result B) (l : list A) (ys : list B) :
  mapM f l = OK ys ↔ Forall2 (λ x y, f x = OK y) l ys.
Proof.
  revert ys. induction l as [| x l IH]; intros ys; simpl.
  - split.
    + intros [= <-]. constructor.
    + intros H. by inversion H.
  - split.
    + intros H. apply bind_OK in H as (y & Hy & H).
      apply bind_OK in H as (ys' & Hys & [= <-]).
      constructor; [done | by apply IH].
    + intros H. inversion H as [| ? y ? ys' Hy Hys]; subst.
      apply bind_OK. exists y. split; [done |].
      apply bind_OK. exists ys'. split; [by apply IH | done].
Qed.

Lemma mapM_lookup (f : A → result B) (l : list A) (ys : list B) i x :
  mapM f l = OK ys → l !! i = Some x → ∃ y, ys !! i = Some y ∧ f x = OK y.
Proof.
  intros H Hx. apply mapM_OK in H.
  destruct (Forall2_lookup_l _ _ _ _ _ H Hx) as (y & Hy & Hf). eauto.
Qed.

Lemma mapM_total (f : A → result B) (g : A → B) (l : list A) :
  (∀ x, x ∈ l → f x = OK (g x)) → mapM f l = OK (g <$> l).
Proof.
  induction l as [| x l IH]; intros H; simpl; [done |].
  rewrite H by left. simpl. rewrite IH; [done |].
  intros y Hy. apply H. by right.
Qed.

End result_lemmas.

Lemma filter_none {A} (P : A → Prop) `{∀ x, Decision (P x)} (l : list A) :
  (∀ x, x ∈ l → ¬ P x) → filter P l = [].
Proof.
  induction l as [| x l IH]; intros Hall; [done |].
  rewrite filter_cons_False by (apply Hall; left).
  apply IH. intros y Hy. apply Hall. by right.
Qed.

Lemma filter_all {A} (P : A → Prop) `{∀ x, Decision (P x)} (l : list A) :
  (∀ x, x ∈ l → P x) → filter P l = l.
Proof.
  induction l as [| x l IH]; intros Hall; [done |].
  rewrite filter_cons_True by (apply Hall; left).
  f_equal. apply IH. intros y Hy. apply Hall. by right.
Qed.

Section frame_lemmas.

Lemma index_of_None c cols : index_of c cols = None ↔ c ∉ cols.
Proof.
  induction cols as [| c' cols IH]; simpl.
  - split; [intros _; apply not_elem_of_nil | done].
  - destruct (decide (c = c')) as [-> | Hne].
    + split; [done | intros H; destruct H; left].
    + rewrite fmap_None, IH, not_elem_of_cons. naive_solver.
Qed.

Lemma index_of_Some c cols i :
  index_of c cols = Some i → cols !! i = Some c.
Proof.
  revert i. induction cols as [| c' cols IH]; intros i; simpl; [done |].
  destruct (decide (c = c')) as [-> | Hne].
  - by intros [= <-].
  - intros H. apply fmap_Some in H as (j & Hj & ->). simpl. by apply IH.
Qed.

Lemma index_of_lt c cols i : index_of c cols = Some i → (i < length cols)%nat.
Proof. intros H. apply index_of_Some in H. by eapply lookup_lt_Some. Qed.

Lemma index_of_elem c cols : c ∈ cols → is_Some (index_of c cols).
Proof.
  intros H. destruct (index_of c cols) eqn:E; [done |].
  by apply index_of_None in E.
Qed.

Lemma index_of_app_l c cols more i :
  index_of c cols = Some i → index_of c (cols ++ more) = Some i.
Proof.
  revert i. induction cols as [| c' cols IH]; intros i; simpl; [done |].
  destruct (decide (c = c')); [done |].
  intros H. apply fmap_Some in H as (j & Hj & ->). by rewrite (IH j).
Qed.

Lemma index_of_app_r c cols more :
  c ∉ cols →
  index_of c (cols ++ more) = (λ i, (length cols + i)%nat) <$> index_of c more.
Proof.
  induction cols as [| c' cols IH]; intros Hn; simpl.
  - by destruct (index_of c more).
  - apply not_elem_of_cons in Hn as [Hne Hn].
    rewrite decide_False by done. rewrite IH by done.
    by destruct (index_of c more).
Qed.

Lemma index_of_NoDup cols i c :
  NoDup cols → cols !! i = Some c → index_of c cols = Some i.
Proof.
  intros Hnd Hi.
  destruct (index_of_elem c cols) as [j Hj];
    [by eapply list_elem_of_lookup_2 |].
  rewrite Hj. f_equal.
  apply index_of_Some in Hj. by eapply NoDup_lookup.
Qed.

Lemma missing_label_None cs cols :
  missing_label cs cols = None ↔ ∀ c, c ∈ cs → c ∈ cols.
Proof.
  unfold missing_label. rewrite head_None. split.
  - intros H c Hc. destruct (decide (c ∈ cols)) as [| Hn]; [done |].
    assert (c ∈ filter (λ c, c ∉ cols) cs) as Hin
      by (by apply list_elem_of_filter).
    rewrite H in Hin. by apply elem_of_nil in Hin.
  - intros H. apply filter_none. intros c Hc Hn. by apply Hn, H.
Qed.

(** *** Reading after writing a column *)

Lemma length_set_cell cols c row v :
  length row = length cols →
  length (set_cell cols c row v) = length (set_header cols c).
Proof.
  intros H. unfold set_cell, set_header.
  destruct (index_of c cols).
  - by rewrite length_insert.
  - rewrite !length_app. simpl. lia.
Qed.

Lemma get_cell_set_cell_eq cols c row v :
  length row = length cols →
  get_cell (set_header cols c) (set_cell cols c row v) c = Some v.
Proof.
  intros Hlen. unfold get_cell, set_cell, set_header.
  destruct (index_of c cols) as [i |] eqn:E.
  - rewrite E. simpl. apply list_lookup_insert_eq.
    apply index_of_lt in E. lia.
  - apply index_of_None in E.
    rewrite index_of_app_r by done. simpl. rewrite decide_True by done.
    simpl. rewrite Nat.add_0_r, <- Hlen.
    by rewrite lookup_app_r, Nat.sub_diag.
Qed.

Lemma get_cell_set_cell_ne cols c c' row v :
  length row = length cols → c' ≠ c →
  get_cell (set_header cols c) (set_cell cols c row v) c'
  = get_cell cols row c'.
Proof.
  intros Hlen Hne. unfold get_cell, set_cell, set_header.
  destruct (index_of c cols) as [i |] eqn:E.
  - destruct (index_of c' cols) as [j |] eqn:E'; simpl; [| done].
    apply list_lookup_insert_ne. intros ->.
    apply index_of_Some in E, E'. congruence.
  - destruct (index_of c' cols) as [j |] eqn:E'.
    + rewrite (index_of_app_l _ _ _ _ E'). simpl.
      apply lookup_app_l. apply index_of_lt in E'. lia.
    + apply index_of_None in E'. rewrite index_of_app_r by done.
      simpl. by rewrite decide_False.
Qed.

Lemma rect_set_scalar df c v : rect df → rect (set_scalar df c v).
Proof.
  unfold rect, set_scalar. simpl. intros H.
  apply Forall_fmap. eapply Forall_impl; [done |].
  intros row Hrow. simpl. by apply length_set_cell.
Qed.

Lemma set_column_OK df c vals df' :
  set_column df c vals = OK df' →
  length vals = length (rows df)
  ∧ columns df' = set_header (columns df) c
  ∧ rows df' = zip_with (set_cell (columns df) c) (rows df) vals.
Proof.
  unfold set_column. case_decide; [| done]. by intros [= <-].
Qed.

Lemma set_column_lookup df c vals df' i row' :
  set_column df c vals = OK df' →
  rows df' !! i = Some row' →
  ∃ row v, rows df !! i = Some row ∧ vals !! i = Some v
           ∧ row' = set_cell (columns df) c row v.
Proof.
  intros H Hi. apply set_column_OK in H as (_ & _ & Hrows).
  rewrite Hrows in Hi. apply lookup_zip_with_Some in Hi.
  destruct Hi as (row & v & -> & ? & ?). eauto.
Qed.

Lemma rect_set_column df c vals df' :
  rect df → set_column df c vals = OK df' → rect df'.
Proof.
  unfold rect. intros Hr H. apply Forall_lookup. intros i row' Hi.
  destruct (set_column_lookup _ _ _ _ _ _ H Hi) as (row & v & Hrow & _ & ->).
  apply set_column_OK in H as (_ & -> & _).
  apply length_set_cell. by eapply Forall_lookup_1 in Hr.
Qed.

Lemma rect_fillna1 df : rect df → rect (fillna1 df).
Proof.
  unfold rect, fillna1. simpl. intros H. apply Forall_fmap.
  eapply Forall_impl; [done |]. intros row Hrow. simpl.
  by rewrite length_fmap.
Qed.

Lemma length_product ls row :
  row ∈ product ls → length row = length ls.
Proof.
  revert row. induction ls as [| l ls IH]; intros row; simpl.
  - intros H. apply list_elem_of_singleton in H. by subst.
  - intros H. apply list_elem_of_bind in H as (x & H & _).
    apply list_elem_of_bind in H as (tl & H & Htl).
    apply list_elem_of_singleton in H. subst. simpl. f_equal. by apply IH.
Qed.

(** *** The header and the rows of a merge *)

Lemma length_positions_from n keep cols :
  length (positions_from n keep cols) = length (filter (λ c, keep c = true) cols).
Proof.
  revert n. induction cols as [| c cols IH]; intros n; simpl; [done |].
  rewrite filter_cons.
  destruct (keep c) eqn:E; case_decide; try done; simpl; by rewrite IH.
Qed.

Lemma length_rest_positions n (on cols : list string) :
  length (positions_from n (λ c, bool_decide (c ∉ on)) cols)
  = length (filter (λ c, c ∉ on) cols).
Proof.
  rewrite length_positions_from. f_equal.
  apply list_filter_iff. intros c. simpl. by rewrite bool_decide_eq_true.
Qed.

Lemma length_rest_idx r on :
  length (rest_idx r on) = length (filter (λ c, c ∉ on) (columns r)).
Proof. unfold rest_idx. apply length_rest_positions. Qed.

(** Every row of a merge is a row of the left frame followed by one cell
    for each column of the right frame that is not a key. *)
Lemma join_row_elem h l r on lrow row :
  row ∈ join_row h l r on lrow →
  (partners l r on lrow = [] ∧ h = Left
   ∧ row = lrow ++ replicate (length (rest_idx r on)) CNaN)
  ∨ (∃ rrow, rrow ∈ partners l r on lrow
             ∧ row = lrow ++ select (rest_idx r on) rrow).
Proof.
  unfold join_row. destruct (partners l r on lrow) as [| p ps] eqn:Ep.
  - destruct h; intros H.
    + apply list_elem_of_singleton in H. by left.
    + by apply elem_of_nil in H.
  - intros H. right.
    change (row ∈ (λ rrow, lrow ++ select (rest_idx r on) rrow) <$> p :: ps)
      in H.
    apply list_elem_of_fmap in H as (rrow & -> & Hin). eauto.
Qed.

Lemma merge_unfold h l r on m :
  merge h l r on = OK m →
  m = {| columns := merge_columns l r on;
         rows := rows l ≫= join_row h l r on |}.
Proof.
  unfold merge. intros H.
  destruct (missing_label on (columns l)) eqn:El; [done |].
  destruct (missing_label on (columns r)) eqn:Er; [done |].
  by injection H as <-.
Qed.

(** Every row of a merge is a row of the left frame followed by one cell
    for each column of the right frame that is not a key. *)
Lemma merge_rows h l r on m row :
  merge h l r on = OK m → row ∈ rows m →
  ∃ lrow ext,
    lrow ∈ rows l ∧ row = lrow ++ ext
    ∧ length ext = length (filter (λ c, c ∉ on) (columns r)).
Proof.
  intros H Hrow. apply merge_unfold in H. subst m. simpl in Hrow.
  apply list_elem_of_bind in Hrow as (lrow & Hrow & Hl).
  exists lrow.
  apply join_row_elem in Hrow as [(_ & _ & ->) | (rrow & _ & ->)];
    eexists; (split; [done |]); (split; [done |]).
  - rewrite length_replicate. apply length_rest_idx.
  - unfold select. rewrite length_fmap. apply length_rest_idx.
Qed.

Lemma merge_columns_length h l r on m :
  merge h l r on = OK m →
  length (columns m)
  = (length (columns l) + length (filter (λ c, c ∉ on) (columns r)))%nat.
Proof.
  intros H. apply merge_unfold in H. subst m. simpl. unfold merge_columns.
  by rewrite length_app, !length_fmap.
Qed.

Lemma rect_merge h l r on m : rect l → merge h l r on = OK m → rect m.
Proof.
  unfold rect. intros Hl H. apply Forall_forall. intros row Hrow.
  destruct (merge_rows _ _ _ _ _ _ H Hrow) as (lrow & ext & Hin & -> & Hlen).
  rewrite (merge_columns_length _ _ _ _ _ H), length_app, Hlen.
  f_equal. by eapply Forall_forall in Hl.
Qed.

End frame_lemmas.

(** * Frames whose rows are computed from a list *)

Section map_form.
Context {A : Type}.
Implicit Types (l : list A) (cols : list string).

Lemma replicate_as_fmap l (x : list cell) :
  replicate (length l) x = (λ _, x) <$> l.
Proof. induction l as [| a l IH]; simpl; [done | f_equal; apply IH]. Qed.

Lemma zip_with_fmap_same {B C D} (h : B → C → D) (f1 : A → B) (f2 : A → C) l :
  zip_with h (f1 <$> l) (f2 <$> l) = (λ x, h (f1 x) (f2 x)) <$> l.
Proof. induction l as [| a l IH]; simpl; [done | f_equal; apply IH]. Qed.

Lemma set_column_fmap cols (fr : A → list cell) c (fv : A → cell) l :
  set_column {| columns := cols; rows := fr <$> l |} c (fv <$> l)
  = OK {| columns := set_header cols c;
          rows := (λ x, set_cell cols c (fr x) (fv x)) <$> l |}.
Proof.
  unfold set_column. simpl. rewrite !length_fmap.
  rewrite decide_True by done. by rewrite zip_with_fmap_same.
Qed.

Lemma set_column_fmap_new cols (fr : A → list cell) c (fv : A → cell) l :
  c ∉ cols →
  set_column {| columns := cols; rows := fr <$> l |} c (fv <$> l)
  = OK {| columns := cols ++ [c]; rows := (λ x, fr x ++ [fv x]) <$> l |}.
Proof.
  intros Hn. rewrite set_column_fmap. apply index_of_None in Hn.
  unfold set_header, set_cell. by rewrite Hn.
Qed.

Lemma get_column_fmap cols (fr : A → list cell) c i l :
  index_of c cols = Some i →
  get_column {| columns := cols; rows := fr <$> l |} c
  = OK ((λ x, lookup_cell (fr x) i) <$> l).
Proof.
  intros Hi. unfold get_column. simpl. rewrite Hi.
  by rewrite <- list_fmap_compose.
Qed.

Lemma mapM_fmap {B C} (f : B → result C) (h : A → B) (k : A → C) l :
  (∀ x, x ∈ l → f (h x) = OK (k x)) → mapM f (h <$> l) = OK (k <$> l).
Proof.
  induction l as [| a l IH]; intros H; [done |].
  rewrite !fmap_cons.
  change (mapM f (h a :: (h <$> l)))
    with (y ← f (h a); ys ← mapM f (h <$> l); OK (y :: ys)).
  rewrite H by left. rewrite IH; [done |].
  intros x Hx. apply H. by right.
Qed.

End map_form.

Section keep_cells.

Lemma select_positions_from keep cols row pre :
  length row = length cols →
  select (positions_from (length pre) keep cols) (pre ++ row)
  = keep_cells keep cols row.
Proof.
  revert row pre. induction cols as [| c cols IH]; intros row pre Hlen.
  - by destruct row.
  - destruct row as [| v row]; [done |]. simpl in Hlen.
    assert (S (length pre) = length (pre ++ [v])) as Hs
      by (rewrite length_app; simpl; lia).
    assert (pre ++ v :: row = (pre ++ [v]) ++ row) as Happ
      by (by rewrite <- app_assoc).
    simpl. destruct (keep c).
    + unfold select. rewrite fmap_cons. fold (select).
      f_equal.
      * unfold lookup_cell. by rewrite list_lookup_middle.
      * rewrite Hs, Happ. apply IH. lia.
    + rewrite Hs, Happ. apply IH. lia.
Qed.

Lemma select_positions keep cols row :
  length row = length cols →
  select (positions_from 0 keep cols) row = keep_cells keep cols row.
Proof. apply (select_positions_from keep cols row []). Qed.

Lemma keep_cells_app keep cols1 cols2 row1 row2 :
  length row1 = length cols1 →
  keep_cells keep (cols1 ++ cols2) (row1 ++ row2)
  = keep_cells keep cols1 row1 ++ keep_cells keep cols2 row2.
Proof.
  revert row1. induction cols1 as [| c cols1 IH]; intros row1 Hlen.
  - by destruct row1.
  - destruct row1 as [| v row1]; [done |]. simpl in *.
    destruct (keep c); simpl; rewrite IH by lia; done.
Qed.

Lemma keep_cells_all keep cols row :
  length row = length cols → (∀ c, c ∈ cols → keep c = true) →
  keep_cells keep cols row = row.
Proof.
  revert row. induction cols as [| c cols IH]; intros row Hlen Hall.
  - by destruct row.
  - destruct row as [| v row]; [done |]. simpl in *.
    rewrite Hall by left. f_equal. apply IH; [lia |].
    intros c' Hc'. apply Hall. by right.
Qed.

Lemma get_cell_app_l cols more row ext c :
  length row = length cols → c ∈ cols →
  get_cell (cols ++ more) (row ++ ext) c = get_cell cols row c.
Proof.
  intros Hlen Hc. unfold get_cell.
  destruct (index_of_elem c cols Hc) as [i Hi].
  rewrite (index_of_app_l _ _ _ _ Hi), Hi. simpl.
  apply lookup_app_l. apply index_of_lt in Hi. lia.
Qed.

Lemma get_cell_app_r cols c row v :
  length row = length cols → c ∉ cols →
  get_cell (cols ++ [c]) (row ++ [v]) c = Some v.
Proof.
  intros Hlen Hc. unfold get_cell. rewrite index_of_app_r by done.
  simpl. rewrite decide_True by done. simpl.
  rewrite Nat.add_0_r, <- Hlen. by rewrite lookup_app_r, Nat.sub_diag.
Qed.

Lemma key_cells_app_l cols more on row ext :
  length row = length cols → (∀ k, k ∈ on → k ∈ cols) →
  key_cells (cols ++ more) on (row ++ ext) = key_cells cols on row.
Proof.
  intros Hlen Hon. unfold key_cells. apply list_fmap_ext.
  intros i k Hk. rewrite get_cell_app_l; [done | done |].
  apply Hon. by eapply list_elem_of_lookup_2.
Qed.

End keep_cells.

Section cartesian_product.

Lemma bind_fmap_cprod {A B C} (h : A → B → C) (l : list A) (k : list B) :
  (x ← l; y ← k; [h x y]) = (λ p, h p.1 p.2) <$> cprod l k.
Proof.
  induction l as [| a l IH]; [done |].
  rewrite bind_cons, IH.
  change (cprod (a :: l) k) with ((pair a <$> k) ++ cprod l k).
  rewrite fmap_app. f_equal. rewrite <- list_fmap_compose.
  induction k as [| b k IHk]; [done |].
  rewrite bind_cons, fmap_cons. simpl. f_equal; apply IHk.
Qed.

Lemma fmap_bind_list {A B C} (f : B → C) (g : A → list B) (l : list A) :
  f <$> (l ≫= g) = l ≫= (λ x, f <$> g x).
Proof.
  induction l as [| a l IH]; [done |].
  by rewrite !bind_cons, fmap_app, IH.
Qed.

Lemma filter_rest_app (on cols1 cols2 : list string) :
  (∀ c, c ∈ cols1 → c ∉ on) → (∀ c, c ∈ cols2 → c ∈ on) →
  filter (λ c, c ∉ on) (cols1 ++ cols2) = cols1.
Proof.
  intros H1 H2. rewrite filter_app, (filter_all _ cols1) by done.
  rewrite (filter_none _ cols2); [by rewrite app_nil_r |].
  intros c Hc Hn. by apply Hn, H2.
Qed.

(** [get_cartesian_product] on two rectangular frames without common
    labels and without a column [key]: the headers are concatenated and
    every row of the first frame is paired with every row of the second,
    the first frame varying slowest. *)
Lemma get_cartesian_product_spec df1 df2 :
  rect df1 → rect df2 →
  "key" ∉ columns df1 → "key" ∉ columns df2 →
  (∀ c, c ∈ columns df1 → c ∉ columns df2) →
  get_cartesian_product df1 df2
  = OK {| columns := columns df1 ++ columns df2;
          rows := r1 ← rows df1; r2 ← rows df2; [r1 ++ r2] |}.
Proof.
  intros Hr1 Hr2 Hk1 Hk2 Hdisj. unfold get_cartesian_product.
  set (l := set_scalar df1 "key" (CNum 1)).
  set (r := set_scalar df2 "key" (CNum 1)).
  assert (columns l = columns df1 ++ ["key"]) as Hcl.
  { unfold l, set_scalar, set_header. simpl.
    apply index_of_None in Hk1. by rewrite Hk1. }
  assert (columns r = columns df2 ++ ["key"]) as Hcr.
  { unfold r, set_scalar, set_header. simpl.
    apply index_of_None in Hk2. by rewrite Hk2. }
  assert (rows l = (λ row, row ++ [CNum 1]) <$> rows df1) as Hrl.
  { unfold l, set_scalar, set_cell. simpl.
    apply index_of_None in Hk1. by rewrite Hk1. }
  assert (rows r = (λ row, row ++ [CNum 1]) <$> rows df2) as Hrr.
  { unfold r, set_scalar, set_cell. simpl.
    apply index_of_None in Hk2. by rewrite Hk2. }
  clearbody l r.
  assert (∀ c, c ∈ columns df1 → c ∉ ["key"]) as Hnk1.
  { intros c Hc Hin. apply list_elem_of_singleton in Hin. by subst. }
  assert (∀ c, c ∈ columns df2 → c ∉ ["key"]) as Hnk2.
  { intros c Hc Hin. apply list_elem_of_singleton in Hin. by subst. }
  assert (merge Inner l r ["key"]
          = OK {| columns := columns df1 ++ ["key"] ++ columns df2;
                  rows := r1 ← rows df1; r2 ← rows df2;
                          [(r1 ++ [CNum 1]) ++ r2] |}) as ->.
  { unfold merge.
    assert (missing_label ["key"] (columns l) = None) as ->.
    { apply missing_label_None. intros k Hk.
      apply list_elem_of_singleton in Hk. subst. rewrite Hcl.
      apply elem_of_app. right. left. }
    assert (missing_label ["key"] (columns r) = None) as ->.
    { apply missing_label_None. intros k Hk.
      apply list_elem_of_singleton in Hk. subst. rewrite Hcr.
      apply elem_of_app. right. left. }
    f_equal. f_equal.
    - unfold merge_columns. rewrite Hcl, Hcr.
      rewrite !filter_rest_app by (done || by intros c Hc).
      rewrite (app_assoc (columns df1)). f_equal.
      + rewrite <- (list_fmap_id (columns df1 ++ ["key"])) at 2.
        apply list_fmap_ext. intros i c Hc. simpl.
        rewrite decide_False; [done |]. intros [Hnk Hin].
        apply list_elem_of_lookup_2 in Hc.
        apply elem_of_app in Hc as [Hc | Hc]; [by eapply Hdisj |].
        by apply Hnk.
      + rewrite <- (list_fmap_id (columns df2)) at 2.
        apply list_fmap_ext. intros i c Hc. simpl.
        rewrite decide_False; [done |]. intros Hin.
        apply list_elem_of_lookup_2 in Hc. by eapply Hdisj.
    - rewrite Hrl. rewrite list_fmap_bind.
      apply Forall_bind_ext, Forall_forall. intros r1 Hin1. simpl.
      assert (length r1 = length (columns df1)) as Hl1
        by (by eapply Forall_forall in Hr1).
      assert (∀ rrow, rrow ∈ rows r →
                key_cells (columns r) ["key"] rrow
                = key_cells (columns l) ["key"] (r1 ++ [CNum 1])) as Hkeys.
      { intros rrow Hrrow. rewrite Hrr in Hrrow.
        apply list_elem_of_fmap in Hrrow as (r2 & -> & Hin2).
        assert (length r2 = length (columns df2)) as Hl2
          by (by eapply Forall_forall in Hr2).
        unfold key_cells. simpl. rewrite Hcl, Hcr.
        by rewrite !get_cell_app_r. }
      unfold join_row, partners. rewrite (filter_all _ (rows r)) by done.
      assert (∀ r2, r2 ∈ rows df2 →
                select (rest_idx r ["key"]) (r2 ++ [CNum 1]) = r2) as Hsel.
      { intros r2 Hin2.
        assert (length r2 = length (columns df2)) as Hl2
          by (by eapply Forall_forall in Hr2).
        unfold rest_idx. rewrite Hcr, select_positions
          by (rewrite !length_app; simpl; lia).
        rewrite keep_cells_app by done.
        rewrite keep_cells_all; [by rewrite app_nil_r | done |].
        intros c Hc. apply bool_decide_eq_true. by apply Hnk2. }
      assert ((λ rrow, (r1 ++ [CNum 1]) ++ select (rest_idx r ["key"]) rrow)
                <$> rows r
              = rows df2 ≫= λ r2, [(r1 ++ [CNum 1]) ++ r2]) as Hmap.
      { rewrite Hrr. clear Hkeys. revert Hsel.
        generalize (rows df2). intros rs. induction rs as [| r2 rs IH];
          intros Hsel; [done |].
        rewrite fmap_cons, bind_cons. simpl. rewrite Hsel by left.
        f_equal. apply IH. intros r2' Hin. apply Hsel. by right. }
      rewrite <- Hmap. by destruct (rows r). }
  simpl. unfold drop. simpl.
  assert (missing_label ["key"] (columns df1 ++ "key" :: columns df2) = None)
    as ->.
  { apply missing_label_None. intros k Hk.
    apply list_elem_of_singleton in Hk. subst.
    apply elem_of_app. right. left. }
  f_equal. f_equal.
  - rewrite filter_app, filter_cons_False, !filter_all; try done.
    intros Hn. apply Hn. left.
  - rewrite fmap_bind_list.
    apply Forall_bind_ext, Forall_forall. intros r1 Hin1. simpl.
    rewrite fmap_bind_list.
    apply Forall_bind_ext, Forall_forall. intros r2 Hin2. simpl.
    assert (length r1 = length (columns df1)) as Hl1
      by (by eapply Forall_forall in Hr1).
    assert (length r2 = length (columns df2)) as Hl2
      by (by eapply Forall_forall in Hr2).
    f_equal. rewrite <- app_assoc. simpl.
    rewrite select_positions by (rewrite !length_app; simpl; lia).
    rewrite keep_cells_app by done. simpl.
    rewrite !keep_cells_all; try done.
    + intros c Hc. apply bool_decide_eq_true. by apply Hnk2.
    + intros c Hc. apply bool_decide_eq_true. by apply Hnk1.
Qed.

End cartesian_product.


(** *** Selecting rows and resetting the index *)

Lemma length_default_index n : length (default_index n) = n.
Proof. unfold default_index. rewrite length_seqZ. lia. Qed.

Lemma select_rows_rows index (rws : list (list cell)) mask :
  length index = length rws →
  (select_rows index rws mask).*2
  = (filter (λ rm : list cell * bool, rm.2 = true) (zip rws mask)).*1.
Proof.
  revert index mask. induction rws as [| row rws IH]; intros index mask Hlen.
  - by destruct index.
  - destruct index as [| i index]; [done |].
    destruct mask as [| b mask]; [done |].
    cbn [select_rows zip zip_with]. rewrite filter_cons. cbn [snd].
    injection Hlen as Hlen. destruct b.
    + rewrite decide_True by done. rewrite !fmap_cons. cbn [fst snd].
      f_equal. by apply IH.
    + rewrite decide_False by done. by apply IH.
Qed.

Lemma select_rows_elem index (rws : list (list cell)) mask p :
  p ∈ select_rows index rws mask → p.2 ∈ rws.
Proof.
  revert index mask. induction rws as [| row rws IH]; intros index mask Hp.
  - destruct index; by apply elem_of_nil in Hp.
  - destruct index as [| i index]; [by apply elem_of_nil in Hp |].
    destruct mask as [| b mask]; [by apply elem_of_nil in Hp |].
    cbn [select_rows] in Hp. destruct b.
    + apply elem_of_cons in Hp as [-> | Hp]; [left | right; by eapply IH].
    + right. by eapply IH.
Qed.

(** Resetting the index and dropping the column [index] gives the selected
    rows back when no column is labelled [index]. *)
Lemma reset_index_drop cols (sel : list (Z * list cell)) :
  "index" ∉ cols →
  (∀ p, p ∈ sel → length p.2 = length cols) →
  (df ← reset_index cols sel; drop df ["index"])
  = OK {| columns := cols; rows := sel.*2 |}.
Proof.
  intros Hcols Hrect. unfold reset_index. cbn zeta.
  destruct (decide ("index" ∈ cols)) as [? | _]; [done |].
  rewrite decide_False by done. step. unfold drop. cbn [columns rows].
  assert (missing_label ["index"] ("index" :: cols) = None) as ->.
  { apply missing_label_None. intros c Hc.
    apply list_elem_of_singleton in Hc as ->. left. }
  f_equal. f_equal.
  - rewrite filter_cons_False by (intros H; apply H; left).
    apply filter_all. intros c Hc Hin.
    apply list_elem_of_singleton in Hin as ->. done.
  - rewrite <- list_fmap_compose. apply Forall_fmap_ext, Forall_forall.
    intros p Hp. cbn [compose positions_from].
    rewrite bool_decide_eq_false_2 by (intros H; apply H; left).
    rewrite (select_positions_from _ cols p.2 [CNum (inject_Z p.1)])
      by (by apply Hrect).
    apply keep_cells_all; [by apply Hrect |].
    intros c Hc. apply bool_decide_eq_true. intros Hin.
    apply list_elem_of_singleton in Hin as ->. done.
Qed.
(** * Properties *)

(** ** Construction-time validation *)

Section construction.

(** C8. Constructing a factor with [apply_to_all] true together with a
    non-empty feature subset fails with the configuration error, and only
    then: with [apply_to_all] false or an empty (or missing) feature
    subset the base constructor returns the factor, with the fields it was
    given. *)
Theorem BaseFactor_init_apply_to_all_check (col_name : string)
    (features : option FeatureSet) (date_col_name : string)
    (apply_to_all : bool) :
  (BaseFactor_init col_name features date_col_name apply_to_all
     = Raise (AttributeError
                "Factor cannot apply to all features, while specifying a feature.")
   ↔ (apply_to_all = true ∧ default [] features ≠ []))
  ∧ (BaseFactor_init col_name features date_col_name apply_to_all
       = OK {| _col_name := col_name; _features := default [] features;
               _date_col_name := date_col_name;
               _apply_to_all := apply_to_all |}
     ↔ (apply_to_all = false ∨ default [] features = [])).
Proof.
  unfold BaseFactor_init.
  destruct apply_to_all; simpl.
  - destruct (decide (default [] features ≠ [])) as [Hne | He].
    + rewrite bool_decide_eq_true_2 by done. split.
      * split; [by intros _ | done].
      * split; [done | intros [? | ?]; done].
    + rewrite bool_decide_eq_false_2 by done.
      assert (default [] features = []) as Hnil
        by (destruct (default [] features); [done | by destruct He]).
      split.
      * split; [done | by intros [_ ?]].
      * split; [by right | done].
  - split.
    + split; [done | by intros [? _]].
    + split; [by left | done].
Qed.

(** Every factor the base constructor returns respects the check. *)
Lemma BaseFactor_init_OK col_name features date_col_name apply_to_all b :
  BaseFactor_init col_name features date_col_name apply_to_all = OK b →
  _apply_to_all b = false ∨ _features b = [].
Proof.
  unfold BaseFactor_init. destruct apply_to_all; simpl.
  - case_bool_decide as Hne; [done |]. intros [= <-]. simpl. right.
    destruct (default [] features); [done | by destruct Hne].
  - intros [= <-]. by left.
Qed.

(** C10. With a non-empty [feature_values], [WhiteNoise] is rejected with
    "Either set `stdev_factor` or `feature_values`" exactly when
    [stdev_factor] is truthy; in particular it is rejected when
    [stdev_factor] is left at its default 0.05, so the per-feature-value
    form needs an explicitly falsy [stdev_factor] (0 or None). *)
Theorem WhiteNoise_init_feature_values_needs_falsy_stdev
    (stdev_factor : option Q)
    (feature_values : option WhiteNoise.FeatureValues) (col_name : string)
    (Hsupplied : truthy_dict feature_values = true) :
  (truthy_float stdev_factor = true
   ↔ WhiteNoise.init stdev_factor feature_values col_name
     = Raise (AttributeError "Either set `stdev_factor` or `feature_values`"))
  ∧ WhiteNoise.init WhiteNoise.default_stdev_factor feature_values col_name
    = Raise (AttributeError "Either set `stdev_factor` or `feature_values`").
Proof.
  unfold WhiteNoise.init. rewrite Hsupplied. split; [| done].
  destruct (truthy_float stdev_factor); simpl; [done |].
  split; [done |]. unfold BaseFactor_init.
  destruct (decide _); simpl; [done |].
  intros Heq. discriminate Heq.
Qed.

Lemma WhiteNoise_init_feature_values_needs_falsy_stdev_witness :
  (truthy_float (Some (5 # 100)) = true
   ↔ WhiteNoise.init (Some (5 # 100))
       (Some [("my_feature", [("feature1", 5 # 100); ("feature2", 1 # 10)])])
       "white_noise"
     = Raise (AttributeError "Either set `stdev_factor` or `feature_values`"))
  ∧ WhiteNoise.init WhiteNoise.default_stdev_factor
      (Some [("my_feature", [("feature1", 5 # 100); ("feature2", 1 # 10)])])
      "white_noise"
    = Raise (AttributeError "Either set `stdev_factor` or `feature_values`").
Proof.
  apply (WhiteNoise_init_feature_values_needs_falsy_stdev (Some (5 # 100))
           (Some [("my_feature", [("feature1", 5 # 100); ("feature2", 1 # 10)])])
           "white_noise").
  reflexivity.
Defined.

(** The per-feature-value form is constructible with [stdev_factor] passed
    as [None] or as 0. *)
Example WhiteNoise_init_per_feature_value :
  is_OK (WhiteNoise.init None
           (Some [("my_feature", [("feature1", 5 # 100); ("feature2", 1 # 10)])])
           "white_noise") = true
  ∧ is_OK (WhiteNoise.init (Some 0%Q)
             (Some [("my_feature", [("feature1", 5 # 100); ("feature2", 1 # 10)])])
             "white_noise") = true.
Proof. split; reflexivity. Qed.

End construction.

(** ** WhiteNoise with per-feature-value standard deviations *)

Section white_noise.

Lemma per_feature_value_raises fv col factor_df noise :
  is_OK (WhiteNoise.per_feature_value fv col factor_df noise) = false.
Proof.
  unfold WhiteNoise.per_feature_value.
  destruct (set_column factor_df "noise_1" (CNum <$> noise)) as [df |];
    simpl; [| done].
  destruct (mapM _ (rows df)) as [[| v vals] |]; simpl; try done.
  by destruct (drop df ["noise1"]).
Qed.

(** C7 (what the code does). A [WhiteNoise] constructed with
    per-feature-value standard deviations never returns a table:
    [generate] raises for every date range and every state of the random
    source. *)
Theorem WhiteNoise_per_feature_generate_raises
    (stdev_factor : option Q) (fv : WhiteNoise.FeatureValues)
    (col_name : string) (wn : WhiteNoise.t) (start_date : Z)
    (end_date : option Z) (g : Rng)
    (Hnonempty : fv ≠ [])
    (Hinit : WhiteNoise.init stdev_factor (Some fv) col_name = OK wn) :
  is_OK (WhiteNoise.generate wn start_date end_date g).1 = false.
Proof.
  unfold WhiteNoise.init in Hinit.
  destruct fv as [| kv fv']; [done |]. simpl in Hinit.
  destruct (truthy_float stdev_factor); simpl in Hinit; [done |].
  destruct (decide _); simpl in Hinit; [done |].
  injection Hinit as <-.
  unfold WhiteNoise.generate. simpl.
  destruct (get_cartesian_product _ _) as [factor_df |]; [| done].
  simpl. apply per_feature_value_raises.
Qed.

Lemma WhiteNoise_per_feature_generate_raises_witness :
  is_OK (WhiteNoise.generate Sample.feature_noise 0 (Some 1)
           Sample.rng0).1 = false.
Proof.
  apply (WhiteNoise_per_feature_generate_raises None Sample.noise_values
           "white_noise").
  - discriminate.
  - reflexivity.
Defined.

(** The docstring's per-feature-value example over two days: the closure
    reads the column [noise1], the samples were stored under [noise_1]. *)
Example WhiteNoise_per_feature_KeyError :
  (wn ← WhiteNoise.init None
          (Some [("my_feature", [("feature1", 5 # 100); ("feature2", 1 # 10)])])
          "white_noise";
   (WhiteNoise.generate wn 0 (Some 1) {| draws := λ _, 0%Q; pos := 0 |}).1)
  = Raise (KeyError "noise1").
Proof. vm_compute. reflexivity. Qed.

End white_noise.

Section clean_holiday_tuples_proofs.
Import HolidayFactor.

Lemma first_at_cons_here a b rest : first_at ((a, b) :: rest) 0 a b.
Proof. split; [done | intros j p Hj; lia]. Qed.

Lemma first_at_cons_later a b rest i a' b' :
  a' ≠ a → first_at rest i a' b' → first_at ((a, b) :: rest) (S i) a' b'.
Proof.
  intros Hne [Hi Hfirst]. split; [done |].
  intros [| j] p Hj Hp; simpl in Hp.
  - by inversion Hp; subst.
  - apply (Hfirst j); [lia | done].
Qed.

Lemma first_at_cons_inv a b rest i a' b' :
  first_at ((a, b) :: rest) i a' b' →
  (i = 0%nat ∧ a' = a ∧ b' = b) ∨
  (∃ i', i = S i' ∧ a' ≠ a ∧ first_at rest i' a' b').
Proof.
  intros [Hi Hfirst]. destruct i as [| i'].
  - left. simpl in Hi. by inversion Hi.
  - right. exists i'. split; [done |]. split.
    + intros ->. by apply (Hfirst 0%nat (a, b)); [lia | |].
    + split; [done |]. intros j p Hj Hp.
      apply (Hfirst (S j)); [lia | done].
Qed.

(** Invariant of the loop: what it appends to [output] is the stable
    selection of the pairs whose date is neither in [visited] nor earlier
    in the input. *)
Lemma clean_loop_spec input visited output :
  ∃ kept,
    clean_loop input visited output = output ++ kept
    ∧ sublist kept input
    ∧ NoDup (kept.*1)
    ∧ (∀ a b,
         (a, b) ∈ kept ↔ ((a ∉ visited) ∧ (∃ i, first_at input i a b))).
Proof.
  revert visited output.
  induction input as [| [a b] rest IH]; intros visited output; simpl.
  - exists []. rewrite app_nil_r.
    split; [done |]. split; [constructor |]. split; [constructor |].
    intros a b. split.
    + intros Hin. by apply elem_of_nil in Hin.
    + intros [_ [i [Hi _]]]. by rewrite lookup_nil in Hi.
  - destruct (decide (a ∈ visited)) as [Hvis | Hvis].
    + destruct (IH visited output) as (kept & Heq & Hsub & Hnd & Hchar).
      exists kept. split; [done |]. split; [by apply sublist_cons |].
      split; [done |]. intros a' b'. rewrite Hchar. split.
      * intros [Hn [i Hi]]. split; [done |]. exists (S i).
        apply first_at_cons_later; [| done]. by intros ->.
      * intros [Hn [i Hi]]. split; [done |].
        apply first_at_cons_inv in Hi as [(_ & -> & _) | (i' & _ & _ & Hi')];
          [done | by exists i'].
    + destruct (IH ({[a]} ∪ visited) (output ++ [(a, b)]))
        as (kept & Heq & Hsub & Hnd & Hchar).
      exists ((a, b) :: kept). split; [by rewrite Heq, <- app_assoc |].
      split; [by apply sublist_skip |]. split.
      * rewrite fmap_cons. apply NoDup_cons. split; [| done].
        intros Hin. apply list_elem_of_fmap in Hin as [[a' b'] [Ha Hin]].
        simpl in Ha. subst a'. apply Hchar in Hin as [Hn _]. set_solver.
      * intros a' b'. rewrite elem_of_cons, Hchar. split.
        -- intros [Heq' | [Hn [i Hi]]].
           ++ inversion Heq'; subst. split; [done |]. exists 0%nat.
              apply first_at_cons_here.
           ++ split; [set_solver |]. exists (S i).
              apply first_at_cons_later; [set_solver | done].
        -- intros [Hn [i Hi]].
           apply first_at_cons_inv in Hi
             as [(_ & -> & ->) | (i' & _ & Hne & Hi')]; [by left |].
           right. split; [set_solver |]. by exists i'.
Qed.

(** C9. For every sequence of (date, holiday-name) pairs,
    [clean_holiday_tuples] returns a subsequence of the input (encounter
    order preserved) in which no date occurs twice, and a pair is kept
    exactly when it is the first pair of the input with its date: every
    later pair with the same date is discarded. *)
Theorem clean_holiday_tuples_keeps_first (input : list (Z * string)) :
  sublist (clean_holiday_tuples input) input
  ∧ NoDup ((clean_holiday_tuples input).*1)
  ∧ (∀ a b,
       (a, b) ∈ clean_holiday_tuples input ↔ (∃ i, first_at input i a b)).
Proof.
  unfold clean_holiday_tuples.
  destruct (clean_loop_spec input ∅ []) as (kept & Heq & Hsub & Hnd & Hchar).
  rewrite Heq. simpl. split; [done |]. split; [done |].
  intros a b. rewrite Hchar. split.
  - by intros [_ H].
  - intros H. split; [set_solver | done].
Qed.

(** The docstring's example: two holidays on 2016-05-05 (day 16926). *)
Example clean_holiday_tuples_docstring :
  clean_holiday_tuples
    [(16801, "New year"); (16926, "Ascension Thursday");
     (16926, "Liberation Day"); (16937, "Whit Monday")]
  = [(16801, "New year"); (16926, "Ascension Thursday");
     (16937, "Whit Monday")].
Proof. vm_compute. reflexivity. Qed.

End clean_holiday_tuples_proofs.
(** ** What the factors generate *)

Section factor_generate.

Lemma seqZ_head s n : 0 < n → ∃ tl, seqZ s n = s :: tl.
Proof. intros H. rewrite seqZ_cons by done. eauto. Qed.

Lemma LinearTrend_init_global coef offset col lt :
  LinearTrend.init (Some coef) (Some offset) None None col = OK lt →
  lt = {| LinearTrend.base :=
            {| _col_name := col; _features := [];
               _date_col_name := "date"; _apply_to_all := false |};
          LinearTrend._coef := Some coef;
          LinearTrend._offset := Some offset;
          LinearTrend._feature := None;
          LinearTrend._feature_values := None |}.
Proof. unfold LinearTrend.init. simpl. by intros [= <-]. Qed.

(** The global form over the range from [s] to [e]. *)
Lemma LinearTrend_generate_global coef offset col lt s e :
  LinearTrend.init (Some coef) (Some offset) None None col = OK lt →
  col ≠ "date" → s ≤ e →
  LinearTrend.generate lt s (Some e)
  = OK {| columns := ["date"; col];
          rows := (λ t : nat,
                     [CDate (s + Z.of_nat t);
                      CNum (linear_value coef offset (e - s + 1) (Z.of_nat t))])
                  <$> seq 0 (Z.to_nat (e - s + 1)) |}.
Proof.
  intros Hinit Hcol Hse. apply LinearTrend_init_global in Hinit. subst lt.
  unfold LinearTrend.generate. cbn [LinearTrend.base _date_col_name _col_name
    LinearTrend._feature_values LinearTrend._coef LinearTrend._offset
    truthy_dict get_datetime_index].
  destruct (seqZ_head s (e - s + 1)) as [tl Htl]; [lia |].
  destruct (seqZ s (e - s + 1)) as [| d0 index'] eqn:Eidx; [done |].
  rewrite <- Eidx. clear Htl.
  unfold join_column, to_frame. cbn [columns rows].
  rewrite decide_False
    by (intros Hin; apply list_elem_of_singleton in Hin; done).
  f_equal. f_equal. rewrite length_seqZ.
  apply list_eq. intros i.
  rewrite list_lookup_imap, !list_lookup_fmap.
  destruct (decide (i < Z.to_nat (e - s + 1))%nat) as [Hi | Hi].
  - rewrite lookup_seqZ_lt by lia. rewrite lookup_seq_lt by done. simpl.
    unfold lookup_cell. rewrite list_lookup_fmap, lookup_seq_lt by done.
    simpl. unfold linear_value. by rewrite Z2Nat.id by lia.
  - rewrite lookup_seqZ_ge by lia. rewrite lookup_seq_ge by lia. done.
Qed.

(** The dates from [s] that are before [e], among those up to [e]. *)
Lemma filter_before_end s e :
  filter (λ d, (bool_decide (s ≤ d) && bool_decide (d < e)) = true)
    (seqZ s (e - s + 1))
  = seqZ s (e - s).
Proof.
  destruct (decide (s ≤ e)) as [Hse | Hse].
  - replace (e - s + 1) with ((e - s) + 1) by lia.
    rewrite seqZ_app by lia. rewrite filter_app.
    rewrite filter_all.
    + rewrite (seqZ_cons (s + (e - s)) 1) by lia.
      rewrite (seqZ_nil _ (Z.pred 1)) by lia.
      rewrite filter_cons_False, filter_nil; [by rewrite app_nil_r |].
      rewrite andb_true_iff, !bool_decide_eq_true. lia.
    + intros d Hd. apply elem_of_seqZ in Hd.
      rewrite andb_true_iff, !bool_decide_eq_true. lia.
  - rewrite (seqZ_nil s (e - s)) by lia.
    apply filter_none. intros d Hd. apply elem_of_seqZ in Hd.
    rewrite andb_true_iff, !bool_decide_eq_true. lia.
Qed.

Lemma filter_zip_mask {A B} (f : A → B) (m : A → bool) (l : list A) :
  (filter (λ rm : B * bool, rm.2 = true) (zip (f <$> l) (m <$> l))).*1
  = f <$> filter (λ x, m x = true) l.
Proof.
  induction l as [| a l IH]; [done |].
  rewrite !fmap_cons. cbn [zip zip_with]. rewrite !filter_cons.
  cbn [snd]. destruct (m a); simpl; f_equal; apply IH.
Qed.

(** [WeekdayFactor.generate] from [s] to the day before [e], or for 50
    days when there is no end date. *)
Lemma WeekdayFactor_generate_span factor_values col intensity wf s e :
  WeekdayFactor.init factor_values col intensity = OK wf →
  col ∉ ["date"; "weekday"; "index"] →
  WeekdayFactor.generate wf s e
  = OK {| columns := ["date"; col];
          rows := (λ d,
                     [CDate d;
                      CNum (WeekdayFactor.factor_get
                              (WeekdayFactor._factor_values wf)
                              (WeekdayFactor.dayofweek d) 1
                            * WeekdayFactor._intensity_scale wf)%Q])
                  <$> seqZ s (match e with
                              | Some e => e - s
                              | None => 50
                              end) |}.
Proof.
  intros Hinit Hcol.
  assert (col ≠ "date" ∧ col ≠ "weekday" ∧ col ≠ "index") as (Hc1 & Hc2 & Hc3)
    by set_solver.
  unfold WeekdayFactor.init in Hinit. simpl in Hinit.
  injection Hinit as <-.
  unfold WeekdayFactor.generate.
  cbn [WeekdayFactor.base _date_col_name _col_name
       WeekdayFactor._factor_values WeekdayFactor._intensity_scale].
  unfold to_frame.
  rewrite (get_column_fmap ["date"] _ "date" 0%nat) by done.
  step.
  rewrite (mapM_fmap WeekdayFactor.weekday_cell _
             (λ d, CNum (inject_Z (WeekdayFactor.dayofweek d)))) by done.
  step. rewrite set_column_fmap_new by set_solver.
  step. rewrite (get_column_fmap _ _ "weekday" 1%nat) by done.
  step.
  rewrite (mapM_fmap _ _
             (λ d, CNum (WeekdayFactor.factor_get
                           (default WeekdayFactor.default_factor_values
                              factor_values)
                           (WeekdayFactor.dayofweek d) 1 * intensity)%Q))
    by done.
  step. rewrite set_column_fmap_new by set_solver.
  step. unfold drop at 2. cbn [columns rows].
  assert (missing_label ["weekday"] ((["date"] ++ ["weekday"]) ++ [col])
          = None) as -> by (apply missing_label_None; set_solver).
  step.
  assert (filter (λ c, c ∉ ["weekday"]) ((["date"] ++ ["weekday"]) ++ [col])
          = ["date"; col]) as ->.
  { simpl. rewrite filter_cons_True by set_solver.
    rewrite filter_cons_False by set_solver.
    by rewrite filter_cons_True by set_solver. }
  rewrite <- list_fmap_compose.
  rewrite (list_fmap_ext _
             (λ d, [CDate d;
                    CNum (WeekdayFactor.factor_get
                            (default WeekdayFactor.default_factor_values
                               factor_values)
                            (WeekdayFactor.dayofweek d) 1 * intensity)%Q])
             (get_datetime_index s e)).
  2:{ intros i d _. simpl.
      by rewrite bool_decide_eq_true_2 by set_solver. }
  rewrite (get_column_fmap _ _ "date" 0%nat) by done.
  step.
  rewrite (mapM_fmap _ _
             (λ d, match e with
                   | None => bool_decide (s ≤ d)
                   | Some e => bool_decide (s ≤ d) && bool_decide (d < e)
                   end)).
  2:{ intros d _. done. }
  step. rewrite reset_index_drop.
  - f_equal. f_equal.
    rewrite select_rows_rows by (by rewrite length_default_index).
    rewrite filter_zip_mask. f_equal.
    destruct e as [e |]; cbn [get_datetime_index].
    + apply filter_before_end.
    + apply filter_all. intros d Hd. apply elem_of_seqZ in Hd.
      apply bool_decide_eq_true. lia.
  - set_solver.
  - intros p Hp. apply select_rows_elem in Hp.
    by apply list_elem_of_fmap in Hp as (d & -> & _).
Qed.

Lemma existsb_false_elem {A} (f : A → bool) (l : list A) x :
  existsb f l = false → x ∈ l → f x = false.
Proof.
  induction l as [| a l IH]; simpl; intros H Hx.
  - by apply elem_of_nil in Hx.
  - apply orb_false_iff in H as [Ha Hl].
    apply elem_of_cons in Hx as [-> | Hx]; [done | by apply IH].
Qed.

Lemma bind_fmap2_cprod {A B} (f1 : A → list cell) (f2 : B → list cell)
    (l1 : list A) (l2 : list B) :
  (r1 ← f1 <$> l1; r2 ← f2 <$> l2; [r1 ++ r2])
  = (λ p, f1 p.1 ++ f2 p.2) <$> cprod l1 l2.
Proof.
  transitivity (x ← l1; y ← l2; [f1 x ++ f2 y]);
    [| apply (bind_fmap_cprod (λ x y, f1 x ++ f2 y))].
  rewrite list_fmap_bind.
  apply Forall_bind_ext, Forall_forall. intros x _. simpl.
  by rewrite list_fmap_bind.
Qed.

Lemma LinearTrend_init_per_feature feature fv col lt :
  feature ≠ "" →
  LinearTrend.init None None (Some feature) (Some fv) col = OK lt →
  lt = {| LinearTrend.base :=
            {| _col_name := col; _features := [(feature, fv.*1)];
               _date_col_name := "date"; _apply_to_all := false |};
          LinearTrend._coef := None;
          LinearTrend._offset := None;
          LinearTrend._feature := Some feature;
          LinearTrend._feature_values := Some fv |}
  ∧ ∀ d, d ∈ fv.*2 →
      dict_item d "coef" = OK (coef_of d)
      ∧ dict_item d "offset" = OK (offset_of d).
Proof.
  intros Hne. unfold LinearTrend.init. simpl.
  rewrite bool_decide_eq_true_2 by done.
  destruct (existsb LinearTrend.incomplete fv.*2) eqn:E; [done |].
  simpl. intros [= <-]. split; [done |].
  intros d Hd. pose proof (existsb_false_elem _ _ _ E Hd) as Hinc.
  unfold LinearTrend.incomplete in Hinc.
  apply orb_false_iff in Hinc as [Hc Ho].
  apply bool_decide_eq_false in Hc, Ho.
  unfold dict_item, coef_of, offset_of.
  destruct (dict_get d "coef"); [| done].
  by destruct (dict_get d "offset").
Qed.

(** The per-feature form over the range from [s] to [e]: one row for each
    date of the range and each feature value, the dates varying
    slowest. *)
Lemma LinearTrend_generate_per_feature feature fv col lt s e :
  LinearTrend.init None None (Some feature) (Some fv) col = OK lt →
  fv ≠ [] →
  feature ∉ [""; "date"; "coef"; "offset"; "key"] →
  col ∉ ["date"; feature; "coef"; "offset"] →
  s ≤ e →
  LinearTrend.generate lt s (Some e)
  = OK {| columns := ["date"; feature; col];
          rows := (λ p : Z * (string * list (string * Q)),
                     [CDate p.1; CStr p.2.1;
                      CNum (linear_value (coef_of p.2.2) (offset_of p.2.2)
                              (e - s + 1) (p.1 - s))])
                  <$> cprod (seqZ s (e - s + 1)) fv |}.
Proof.
  intros Hinit Hfv Hfeat Hcol Hse.
  apply LinearTrend_init_per_feature in Hinit as [-> Hdict];
    [| set_solver].
  unfold LinearTrend.generate. cbn [LinearTrend.base _date_col_name _col_name
    LinearTrend._feature_values LinearTrend._coef LinearTrend._offset
    LinearTrend._feature get_datetime_index default].
  destruct (seqZ_head s (e - s + 1)) as [tl Htl]; [lia |].
  destruct (seqZ s (e - s + 1)) as [| d0 index'] eqn:Eidx; [done |].
  injection Htl as -> _. rewrite <- Eidx.
  assert (length (seqZ s (e - s + 1)) = Z.to_nat (e - s + 1)) as Hlen
    by apply length_seqZ.
  generalize dependent (seqZ s (e - s + 1)). intros index _ Hlen.
  assert (truthy_dict (Some fv) = true) as -> by (by destruct fv).
  assert (feature ≠ "date" ∧ feature ≠ "coef" ∧ feature ≠ "offset"
          ∧ feature ≠ "key") as (Hf1 & Hf2 & Hf3 & Hf4) by set_solver.
  assert (col ≠ "date" ∧ col ≠ feature ∧ col ≠ "coef" ∧ col ≠ "offset")
    as (Hc1 & Hc2 & Hc3 & Hc4) by set_solver.
  unfold id.
  rewrite (mapM_total (λ feat, dict_item feat "coef") coef_of)
    by (intros d Hd; by destruct (Hdict d Hd)).
  step.
  rewrite (mapM_total (λ feat, dict_item feat "offset") offset_of)
    by (intros d Hd; by destruct (Hdict d Hd)).
  step.
  unfold empty_frame. rewrite replicate_as_fmap, <- !list_fmap_compose.
  rewrite set_column_fmap_new by set_solver. step.
  rewrite set_column_fmap_new by set_solver. step.
  rewrite set_column_fmap_new by set_solver. step.
  rewrite get_cartesian_product_spec; cycle 1.
  { apply Forall_fmap, Forall_forall. by intros d _. }
  { apply Forall_fmap, Forall_forall. by intros kv _. }
  { set_solver. }
  { set_solver. }
  { set_solver. }
  step. unfold to_frame. cbn [rows columns].
  rewrite bind_fmap2_cprod.
  rewrite (mapM_fmap _ _
             (λ p : Z * (string * list (string * Q)),
                CNum (linear_value (coef_of p.2.2) (offset_of p.2.2)
                        (e - s + 1) (p.1 - s)))).
  2:{ intros [d kv] _. unfold LinearTrend.get_factor_col, row_item, get_cell.
      simpl. rewrite !(decide_False (P := _ = feature)) by done. simpl.
      unfold linear_value. rewrite Hlen, Z2Nat.id by lia. done. }
  step. rewrite set_column_fmap_new by set_solver. step.
  unfold drop. cbn [columns rows].
  assert (missing_label ["coef"; "offset"]
            ((["date"] ++ (([] ++ [feature]) ++ ["coef"]) ++ ["offset"])
             ++ [col]) = None) as ->
    by (apply missing_label_None; set_solver).
  f_equal. f_equal.
  - simpl. rewrite filter_cons_True by set_solver.
    rewrite filter_cons_True by set_solver.
    rewrite filter_cons_False by set_solver.
    rewrite filter_cons_False by set_solver.
    by rewrite filter_cons_True by set_solver.
  - rewrite <- list_fmap_compose.
    apply list_fmap_ext. intros i [d kv] _. simpl.
    rewrite !bool_decide_eq_true_2 by set_solver. done.
Qed.



(** C5. In its global form a linear trend over the range from [s] to [e]
    has, [t] days after [s], the value [coef / N * t + 1 + offset] with
    [N] the number of days of the range; in its per-feature form the rows
    of the first day (the first [len(feature_values)] rows, row 0 among
    them) have the value [1 + offset] of their feature value, for a range
    of two days as for any other. *)
Theorem LinearTrend_generate_values
    (coef offset : Q) (col : string) (lt : LinearTrend.t)
    (feature : string) (fv : list (string * list (string * Q)))
    (col' : string) (lt' : LinearTrend.t) (s e : Z)
    (Hglobal : LinearTrend.init (Some coef) (Some offset) None None col
               = OK lt)
    (Hcol : col ≠ "date")
    (Hper : LinearTrend.init None None (Some feature) (Some fv) col'
            = OK lt')
    (Hfv : fv ≠ [])
    (Hfeat : feature ∉ [""; "date"; "coef"; "offset"; "key"])
    (Hcol' : col' ∉ ["date"; feature; "coef"; "offset"])
    (Hse : s ≤ e) :
  (∃ df,
     LinearTrend.generate lt s (Some e) = OK df
     ∧ length (rows df) = Z.to_nat (e - s + 1)
     ∧ ∀ t : nat,
         Z.of_nat t < e - s + 1 →
         rows df !! t
         = Some [CDate (s + Z.of_nat t);
                 CNum (coef / inject_Z (e - s + 1) * inject_Z (Z.of_nat t)
                       + 1 + offset)%Q])
  ∧ (∃ df,
       LinearTrend.generate lt' s (Some e) = OK df
       ∧ ∀ (j : nat) kv,
           fv !! j = Some kv →
           ∃ v, rows df !! j = Some [CDate s; CStr kv.1; CNum v]
                ∧ (v == 1 + offset_of kv.2)%Q).
Proof.
  split.
  - eexists. split; [by apply LinearTrend_generate_global |].
    cbn [rows]. split; [by rewrite length_fmap, length_seq |].
    intros t Ht. rewrite list_lookup_fmap, lookup_seq_lt by lia. done.
  - eexists. split; [by apply LinearTrend_generate_per_feature |].
    cbn [rows]. intros j kv Hkv.
    destruct (seqZ_head s (e - s + 1)) as [tl ->]; [lia |].
    change (cprod (s :: tl) fv) with ((pair s <$> fv) ++ cprod tl fv).
    eexists. split.
    + rewrite list_lookup_fmap, lookup_app_l
        by (rewrite length_fmap; by eapply lookup_lt_Some).
      by rewrite list_lookup_fmap, Hkv.
    + simpl. unfold linear_value. rewrite Z.sub_diag.
      change (inject_Z 0) with 0%Q. ring.
Qed.

Lemma LinearTrend_generate_values_witness :
  (∃ df,
     LinearTrend.generate Sample.global_trend 10 (Some 11) = OK df
     ∧ length (rows df) = Z.to_nat (11 - 10 + 1)
     ∧ ∀ t : nat,
         Z.of_nat t < 11 - 10 + 1 →
         rows df !! t
         = Some [CDate (10 + Z.of_nat t);
                 CNum ((5 # 100) / inject_Z (11 - 10 + 1)
                       * inject_Z (Z.of_nat t) + 1 + 1)%Q])
  ∧ (∃ df,
       LinearTrend.generate Sample.feature_trend 10 (Some 11) = OK df
       ∧ ∀ (j : nat) kv,
           Sample.trend_values !! j = Some kv →
           ∃ v, rows df !! j = Some [CDate 10; CStr kv.1; CNum v]
                ∧ (v == 1 + offset_of kv.2)%Q).
Proof.
  apply (LinearTrend_generate_values (5 # 100) 1%Q "lin_trend"
           Sample.global_trend "my_feature" Sample.trend_values
           "lin_trend" Sample.feature_trend 10 11).
  - reflexivity.
  - discriminate.
  - reflexivity.
  - discriminate.
  - apply (bool_decide_unpack _). vm_compute. exact I.
  - apply (bool_decide_unpack _). vm_compute. exact I.
  - lia.
Defined.

(** The docstring's per-feature example over a range of two days: row 0
    holds [1 + offset] of the first feature value. *)
Example LinearTrend_two_days_row_0 :
  (lt ← LinearTrend.init None None (Some "my_feature")
          (Some [("foo_feat", [("coef", 5 # 100); ("offset", 1%Q)]);
                 ("bar_feat", [("coef", 1 # 10); ("offset", 1 # 2)])])
          "lin_trend";
   df ← LinearTrend.generate lt 10 (Some 11);
   OK (rows df !! 0%nat))
  = OK (Some [CDate 10; CStr "foo_feat"; CNum (400 # 200)]).
Proof. vm_compute. reflexivity. Qed.


End factor_generate.

(** ** The engine *)

Section remove_dups.
Context {A : Type} `{EqDecision A}.

Lemma length_remove_dups_le (l : list A) :
  (length (remove_dups l) ≤ length l)%nat.
Proof.
  induction l as [| x l IH]; simpl; [done |].
  destruct (decide_rel (∈) x l); simpl; lia.
Qed.

Lemma length_remove_dups_NoDup (l : list A) :
  length (remove_dups l) = length l ↔ NoDup l.
Proof.
  induction l as [| x l IH]; simpl.
  - split; [constructor | done].
  - pose proof (length_remove_dups_le l) as Hle.
    destruct (decide_rel (∈) x l) as [Hin | Hn]; simpl.
    + split; [lia |]. intros Hnd. by apply NoDup_cons in Hnd as [? _].
    + rewrite NoDup_cons. split.
      * intros [= H]. split; [done | by apply IH].
      * intros [_ H]. f_equal. by apply IH.
Qed.

End remove_dups.

Section generator.
Import Generator.

Lemma has_duplicates_true names : has_duplicates names = true ↔ ¬ NoDup names.
Proof.
  unfold has_duplicates. rewrite bool_decide_eq_true.
  rewrite <- length_remove_dups_NoDup. split; intros H Heq; by apply H.
Qed.

(** *** The loop keeps the names of the factors and a rectangular table *)

Lemma col_name_rebound feats f : col_name (rebound feats f) = col_name f.
Proof. unfold rebound. by destruct (apply_to_all f). Qed.

Lemma merge_factor_factor feats dr f ts g :
  (merge_factor feats dr f ts g).1.2 = rebound feats f.
Proof.
  unfold merge_factor.
  destruct (head dr), (last dr); try done.
  by destruct (factor_generate _ _ _ _) as [[df | e] g'].
Qed.

Lemma merge_factors_col_names feats dr fs ts g :
  col_name <$> (merge_factors feats dr fs ts g).1.2 = col_name <$> fs.
Proof.
  revert ts g. induction fs as [| f fs IH]; intros ts g; simpl; [done |].
  pose proof (merge_factor_factor feats dr f ts g) as Hf.
  destruct (merge_factor feats dr f ts g) as [[[ts' | e] f'] g'];
    simpl in Hf; subst f'.
  - specialize (IH ts' g').
    destruct (merge_factors feats dr fs ts' g') as [[r rest'] g''].
    simpl in *. f_equal; [apply col_name_rebound | exact IH].
  - simpl. f_equal. apply col_name_rebound.
Qed.

Lemma merged_col_names self g :
  col_name <$> (merged self g).1.2 = col_name <$> _factors self.
Proof.
  unfold merged. destruct (skeleton self); [| done].
  apply merge_factors_col_names.
Qed.

Lemma skeleton_OK self ts :
  skeleton self = OK ts →
  ∃ dr, _date_range self = Some dr
        ∧ columns ts = "date" :: (_features self).*1
        ∧ rows ts = product ((CDate <$> dr)
                             :: ((λ vs : list string, CStr <$> vs)
                                   <$> (_features self).*2)).
Proof.
  unfold skeleton. destruct (_date_range self) as [dr |]; [| done].
  intros H. exists dr. split; [done |].
  assert (ts = {| columns := "date" :: (_features self).*1;
                  rows := product ((CDate <$> dr)
                                   :: ((λ vs : list string, CStr <$> vs)
                                         <$> (_features self).*2)) |})
    as -> by congruence.
  done.
Qed.

Lemma rect_skeleton self ts : skeleton self = OK ts → rect ts.
Proof.
  intros H. apply skeleton_OK in H as (dr & _ & Hcols & Hrows).
  unfold rect. rewrite Hcols, Hrows.
  apply Forall_forall. intros row Hrow.
  apply length_product in Hrow. rewrite Hrow. cbn [length].
  by rewrite !length_fmap.
Qed.

Lemma rect_merge_factor feats dr f ts g ts' f' g' :
  rect ts → merge_factor feats dr f ts g = (OK ts', f', g') → rect ts'.
Proof.
  unfold merge_factor. intros Hr H.
  destruct (head dr), (last dr); try done.
  destruct (factor_generate _ _ _ _) as [[df | e] g0]; [| done].
  destruct (merge Left ts df _) as [m |] eqn:Em; [| done].
  simpl in H. injection H as <- _ _.
  apply rect_fillna1. by eapply rect_merge.
Qed.

Lemma rect_merge_factors feats dr fs ts g ts' fs' g' :
  rect ts → merge_factors feats dr fs ts g = (OK ts', fs', g') → rect ts'.
Proof.
  revert ts g fs'. induction fs as [| f fs IH]; intros ts g fs' Hr; simpl.
  - by intros [= <- _ _].
  - destruct (merge_factor feats dr f ts g) as [[[ts1 | e] f1] g1] eqn:E;
      [| done].
    destruct (merge_factors feats dr fs ts1 g1) as [[r rest'] g2] eqn:E'.
    intros [= -> <- <-]. eapply IH; [| done].
    by eapply rect_merge_factor.
Qed.

Lemma rect_merged self g ts fs g' :
  merged self g = (OK ts, fs, g') → rect ts.
Proof.
  unfold merged. destruct (skeleton self) as [ts0 |] eqn:E; [| done].
  apply rect_merge_factors, rect_set_scalar. by eapply rect_skeleton.
Qed.

(** *** The derived columns *)

Lemma as_num_OK c q : as_num c = OK q → c = CNum q.
Proof. destruct c; simpl; try done. by intros [= ->]. Qed.

Lemma row_item_OK cols row c v :
  row_item cols row c = OK v → get_cell cols row c = Some v.
Proof. unfold row_item. destruct (get_cell cols row c); naive_solver. Qed.

(** The cells a successful [row_prod] multiplies are the numeric cells
    under the given names. *)
Lemma row_prod_OK cols row names q :
  row_prod cols row names = OK q →
  ∃ vals, Forall2 (λ c v, get_cell cols row c = Some (CNum v)) names vals
          ∧ q = prod vals.
Proof.
  unfold row_prod, get_cells. intros H.
  apply bind_OK in H as (cells & Hcells & H).
  apply bind_OK in H as (vals & Hvals & [= <-]).
  exists vals. split; [| done].
  apply mapM_OK in Hcells, Hvals.
  revert vals Hvals. induction Hcells as [| c cell names cells Hc _ IH];
    intros vals Hvals; inversion Hvals as [| ? v ? vals' Hv Hvals']; subst.
  - constructor.
  - constructor; [| by apply IH].
    apply as_num_OK in Hv. subst cell.
    unfold get_cell. destruct (index_of c cols) as [i |]; [| done].
    simpl. injection Hc as Hc. unfold lookup_cell in Hc.
    by destruct (row !! i) as [x |]; simpl in Hc; [subst x |].
Qed.

Lemma add_totals_spec m names ts :
  rect m → add_totals m names = OK ts →
  Forall2 (totals_of m ts names) (rows ts) (rows m).
Proof.
  unfold add_totals. intros Hrect H.
  apply bind_OK in H as (totals & Htotals & H).
  apply bind_OK in H as (ts1 & Hts1 & H).
  apply bind_OK in H as (values & Hvalues & Hts).
  pose proof (rect_set_column _ _ _ _ Hrect Hts1) as Hrect1.
  pose proof (set_column_OK _ _ _ _ Hts1) as (Hlen1 & Hcols1 & Hrows1).
  pose proof (set_column_OK _ _ _ _ Hts) as (Hlen & Hcols & Hrows).
  assert (length (rows ts1) = length (rows m)) as Hl1.
  { rewrite Hrows1, length_zip_with. lia. }
  apply Forall2_same_length_lookup_2.
  { rewrite Hrows, length_zip_with. lia. }
  intros i row mrow Hrow Hmrow.
  destruct (set_column_lookup _ _ _ _ _ _ Hts Hrow)
    as (row1 & v & Hrow1 & Hv & ->).
  destruct (set_column_lookup _ _ _ _ _ _ Hts1 Hrow1)
    as (mrow' & t & Hmrow' & Ht & ->).
  assert (mrow' = mrow) as -> by congruence.
  apply list_lookup_fmap_Some in Ht as (total & -> & Htotal).
  destruct (mapM_lookup _ _ _ _ _ Htotals Hmrow) as (total' & Ht' & Hprod).
  assert (total' = total) as -> by congruence.
  apply row_prod_OK in Hprod as (vals & Hvals & ->).
  destruct (mapM_lookup _ _ _ _ _ Hvalues Hrow1) as (v' & Hv' & Hvalue).
  assert (v' = v) as -> by congruence.
  assert (length mrow = length (columns m)) as Hlen_mrow
    by (by eapply Forall_lookup_1 in Hrect).
  assert (length (set_cell (columns m) "total_factor" mrow (CNum (prod vals)))
          = length (columns ts1)) as Hlen_row1
    by (by eapply Forall_lookup_1 in Hrect1).
  unfold value_cell in Hvalue.
  apply bind_OK in Hvalue as (tf & Htf & Hvalue).
  apply bind_OK in Hvalue as (total & Htotal' & Hvalue).
  apply bind_OK in Hvalue as (ba & Hba & Hvalue).
  apply bind_OK in Hvalue as (b & Hb & [= <-]).
  apply row_item_OK in Htf, Hba. apply as_num_OK in Htotal', Hb. subst tf ba.
  rewrite Hcols1 in Htf, Hba.
  rewrite get_cell_set_cell_eq in Htf by done. injection Htf as <-.
  exists vals, b. rewrite Hcols, Hcols1.
  rewrite Hcols1 in Hlen_row1.
  split; [done |]. split.
  { rewrite get_cell_set_cell_ne by done.
    by rewrite get_cell_set_cell_eq. }
  split.
  { by rewrite get_cell_set_cell_ne. }
  split.
  { by rewrite get_cell_set_cell_eq. }
  intros c Hc1 Hc2.
  rewrite get_cell_set_cell_ne by done.
  by rewrite get_cell_set_cell_ne.
Qed.

Lemma generate_OK self g ts self' g' :
  generate self g = (OK ts, self', g') →
  ∃ m fs,
    merged self g = (OK m, fs, g')
    ∧ NoDup (col_name <$> fs)
    ∧ add_totals m (col_name <$> fs) = OK ts
    ∧ self' = with_ts (with_factors self fs) ts.
Proof.
  unfold generate.
  destruct (merged self g) as [[[m | e] fs] g0] eqn:Em; [| done].
  destruct (has_duplicates (col_name <$> fs)) eqn:Ed; [done |].
  destruct (add_totals m (col_name <$> fs)) as [ts' |] eqn:Et; [| done].
  intros [= <- <- <-]. exists m, fs. split; [done |]. split; [| done].
  destruct (decide (NoDup (col_name <$> fs))) as [| Hn]; [done |].
  apply has_duplicates_true in Hn. congruence.
Qed.

(** C1. For every row of the table [generate] returns, [total_factor] is
    the product of the factors' value columns of that row, as the merges
    left them, and [value] is [total_factor] times [base_amount]; every
    column other than the two derived ones is in the returned table as the
    merges left it, so the product is that of the factor columns of the
    returned row itself. *)
Theorem generate_product_invariant (self : Generator.t) (g : Rng)
    (ts : DataFrame) (self' : Generator.t) (g' : Rng)
    (Hgen : generate self g = (OK ts, self', g')) :
  ∃ m,
    (merged self g).1.1 = OK m
    ∧ Forall2 (totals_of m ts (col_name <$> _factors self))
        (rows ts) (rows m).
Proof.
  apply generate_OK in Hgen as (m & fs & Hm & _ & Hts & _).
  exists m. split; [by rewrite Hm |].
  rewrite <- (merged_col_names self g), Hm. simpl.
  apply add_totals_spec; [| done]. by eapply rect_merged.
Qed.

(** *** Duplicate factor names *)

Lemma generate_ts_unchanged self g e self' g' :
  generate self g = (Raise e, self', g') → _ts self' = _ts self.
Proof.
  unfold generate.
  destruct (merged self g) as [[[m | e0] fs] g0].
  - destruct (has_duplicates _).
    + by intros [= _ <- _].
    + destruct (add_totals _ _); [done |]. by intros [= _ <- _].
  - by intros [= _ <- _].
Qed.

(** C4 (as amended). When two or more factors share a [col_name],
    [generate] returns no table and leaves the stored table as it was.
    The names are compared after the loop over the factors: when the loop
    completes, the exception is the duplicate-name error carrying the
    list of factor names; when a factor's generation or merge raises, that
    exception is the one the caller sees. *)
Theorem generate_duplicate_names (self : Generator.t) (g : Rng)
    (Hdup : ¬ NoDup (col_name <$> _factors self)) :
  is_OK (generate self g).1.1 = false
  ∧ _ts (generate self g).1.2 = _ts self
  ∧ (is_OK (merged self g).1.1 = true →
     (generate self g).1.1
     = Raise (DuplicateNameError (col_name <$> _factors self)))
  ∧ (∀ e, (merged self g).1.1 = Raise e → (generate self g).1.1 = Raise e).
Proof.
  pose proof (merged_col_names self g) as Hnames.
  assert (has_duplicates (col_name <$> (merged self g).1.2) = true) as Hd
    by (rewrite Hnames; by apply has_duplicates_true).
  destruct (generate self g) as [[r self'] g'] eqn:Egen.
  assert (∀ ts, r ≠ OK ts) as Hno.
  { intros ts ->. apply generate_OK in Egen as (m & fs & Hm & Hnd & _).
    rewrite Hm in Hnames. simpl in Hnames. rewrite Hnames in Hnd. done. }
  simpl. split; [destruct r; [by destruct (Hno a) | done] |].
  split.
  { destruct r as [ts | e]; [by destruct (Hno ts) |].
    by eapply generate_ts_unchanged. }
  unfold generate in Egen.
  destruct (merged self g) as [[[m | e0] fs] g0]; simpl in *.
  - rewrite Hd in Egen. injection Egen as <- _ _.
    split; [by rewrite Hnames | done].
  - injection Egen as <- _ _. split; [done | by intros e [= ->]].
Qed.

(** *** Calling [generate] twice *)

Lemma rebound_idem feats f : rebound feats (rebound feats f) = rebound feats f.
Proof.
  unfold rebound. destruct (apply_to_all f) eqn:E; simpl; by rewrite E.
Qed.

Lemma merge_factor_again feats dr f ts g g2 :
  deterministic f →
  merge_factor feats dr (rebound feats f) ts g2
  = ((merge_factor feats dr f ts g).1.1, rebound feats f, g2).
Proof.
  intros Hdet. unfold merge_factor. rewrite rebound_idem.
  destruct (head dr) as [s |], (last dr) as [e |]; try done.
  unfold factor_generate.
  assert (generate_with (rebound feats f) = generate_with f) as ->
    by (unfold rebound; by destruct (apply_to_all f)).
  destruct (Hdet (features (rebound feats f)) s (Some e) g2 g) as [H1 H2].
  destruct (generate_with f _ s (Some e) g2) as [r2 g2'].
  destruct (generate_with f _ s (Some e) g) as [r1 g1'].
  simpl in H1, H2. subst r2 g2'. by destruct r1.
Qed.

Lemma merge_factors_again feats dr fs ts g g2 :
  Forall deterministic fs →
  merge_factors feats dr (merge_factors feats dr fs ts g).1.2 ts g2
  = ((merge_factors feats dr fs ts g).1.1,
     (merge_factors feats dr fs ts g).1.2, g2).
Proof.
  intros Hdet. revert ts g g2.
  induction Hdet as [| f fs Hf _ IH]; intros ts g g2; simpl; [done |].
  pose proof (merge_factor_again feats dr f ts g g2 Hf) as Hagain.
  pose proof (merge_factor_factor feats dr f ts g) as Hf'.
  destruct (merge_factor feats dr f ts g) as [[[ts1 | e] f1] g1];
    simpl in Hagain, Hf'; subst f1.
  - specialize (IH ts1 g1 g2).
    destruct (merge_factors feats dr fs ts1 g1) as [[r rest'] g'].
    simpl in *. rewrite Hagain. by rewrite IH.
  - simpl. by rewrite Hagain.
Qed.

(** C6. With deterministic factors only, a second call of [generate]
    returns what the first call returned (the same table, or the same
    exception), whatever the random source did in between; the factors
    whose feature subset the first call rebound are rebound to the same
    features again. *)
Theorem generate_twice_same (self : Generator.t) (g g2 : Rng)
    (Hdet : Forall deterministic (_factors self)) :
  (generate (generate self g).1.2 g2).1.1 = (generate self g).1.1
  ∧ _factors (generate (generate self g).1.2 g2).1.2
    = _factors (generate self g).1.2.
Proof.
  destruct (generate self g) as [[r self1] g1] eqn:E1. simpl.
  unfold generate in E1.
  destruct (merged self g) as [[rm fs] gm] eqn:Em.
  assert (_factors self1 = fs ∧ _features self1 = _features self
          ∧ _date_range self1 = _date_range self
          ∧ _base_value self1 = _base_value self) as (Hfs & Hfe & Hdr & Hb).
  { destruct rm as [m | e].
    - destruct (has_duplicates _).
      + by injection E1 as _ <- _.
      + destruct (add_totals _ _); by injection E1 as _ <- _.
    - by injection E1 as _ <- _. }
  assert (merged self1 g2 = (rm, fs, g2)) as Hagain.
  { unfold merged, skeleton in *. rewrite Hfs, Hfe, Hdr, Hb.
    destruct (_date_range self) as [dr |].
    - match type of Em with
      | merge_factors ?fe ?d ?fs0 ?ts0 ?g0 = _ =>
          pose proof (merge_factors_again fe d fs0 ts0 g0 g2 Hdet) as H
      end.
      by rewrite Em in H.
    - by injection Em as <- <- _. }
  unfold generate. rewrite Hagain.
  destruct rm as [m | e].
  - destruct (has_duplicates _).
    + by injection E1 as <- _ _.
    + destruct (add_totals _ _); by injection E1 as <- _ _.
  - by injection E1 as <- _ _.
Qed.

End generator.

(** ** Neutral fill *)

Section neutral_fill.
Import Generator.

Lemma fill_cell_not_NaN c : fill_cell c ≠ CNaN.
Proof. by destruct c. Qed.

Lemma fill_cell_id c : c ≠ CNaN → fill_cell c = c.
Proof. by destruct c. Qed.

Lemma fill_row_id (row : list cell) : CNaN ∉ row → fill_cell <$> row = row.
Proof.
  intros Hn. rewrite <- (list_fmap_id row) at 2.
  apply list_fmap_ext. intros i c Hc. simpl. apply fill_cell_id.
  intros ->. apply Hn. by eapply list_elem_of_lookup_2.
Qed.

(** The header of a left merge with a frame that obeys the factor
    contract: one column is added, under the factor's name. *)
Lemma merge_columns_contract ts df keys col :
  columns df = "date" :: keys ++ [col] →
  "date" ∈ columns ts → (∀ k, k ∈ keys → k ∈ columns ts) →
  col ∉ columns ts →
  filter (λ c, c ∉ keys ++ ["date"]) (columns df) = [col]
  ∧ merge_columns ts df (keys ++ ["date"]) = columns ts ++ [col].
Proof.
  intros Hdf Hdate Hkeys Hcol.
  assert (col ∉ keys ++ ["date"]) as Hcol_on.
  { intros Hin. apply elem_of_app in Hin as [Hin | Hin].
    - by apply Hcol, Hkeys.
    - apply list_elem_of_singleton in Hin. by subst. }
  assert (filter (λ c, c ∉ keys ++ ["date"]) (columns df) = [col]) as Hrest.
  { rewrite Hdf. rewrite filter_cons_False by set_solver.
    rewrite filter_app, filter_none by set_solver.
    by rewrite filter_cons_True by done. }
  split; [done |]. unfold merge_columns. rewrite Hrest. f_equal.
  - rewrite <- (list_fmap_id (columns ts)) at 2.
    apply list_fmap_ext. intros i c Hc. simpl.
    rewrite decide_False; [done |]. intros [_ Hin].
    apply list_elem_of_singleton in Hin. subst.
    by apply Hcol, (list_elem_of_lookup_2 _ i).
  - simpl. rewrite decide_False; [done |].
    intros Hin. apply list_elem_of_filter in Hin as [_ Hin]. done.
Qed.

(** One merge-and-fill: every row of the result is a row of the table
    followed by one cell, which is 1 when the factor's frame has no row
    with the same keys; and every row of the table is continued. *)
Lemma merge_fill_step ts df keys col m :
  rect ts → (∀ row, row ∈ rows ts → CNaN ∉ row) →
  columns df = "date" :: keys ++ [col] →
  "date" ∈ columns ts → (∀ k, k ∈ keys → k ∈ columns ts) →
  col ∉ columns ts →
  merge Left ts df (keys ++ ["date"]) = OK m →
  columns (fillna1 m) = columns ts ++ [col]
  ∧ (∀ row1, row1 ∈ rows (fillna1 m) →
       ∃ row v,
         row ∈ rows ts ∧ row1 = row ++ [v] ∧ v ≠ CNaN
         ∧ ((∀ rrow, rrow ∈ rows df →
               key_cells (columns df) (keys ++ ["date"]) rrow
               ≠ key_cells (columns ts) (keys ++ ["date"]) row) →
            v = CNum 1))
  ∧ (∀ row, row ∈ rows ts → ∃ v, row ++ [v] ∈ rows (fillna1 m)).
Proof.
  intros Hrect Hnonan Hdf Hdate Hkeys Hcol Hm.
  destruct (merge_columns_contract ts df keys col Hdf Hdate Hkeys Hcol)
    as [Hrest Hcols].
  apply merge_unfold in Hm. subst m. unfold fillna1. cbn [columns rows].
  assert (length (rest_idx df (keys ++ ["date"])) = 1%nat) as Hlen
    by (by rewrite length_rest_idx, Hrest).
  split; [done |]. split.
  - intros row1 Hrow1.
    apply list_elem_of_fmap in Hrow1 as (mrow & -> & Hmrow).
    apply list_elem_of_bind in Hmrow as (lrow & Hmrow & Hlrow).
    exists lrow.
    apply join_row_elem in Hmrow as [(Hnone & _ & ->) | (rrow & Hin & ->)].
    + exists (CNum 1). split; [done |]. split.
      * rewrite fmap_app, fill_row_id by (by apply Hnonan).
        by rewrite Hlen.
      * done.
    + destruct (select (rest_idx df (keys ++ ["date"])) rrow)
        as [| v [| ? ?]] eqn:Esel;
        try (apply (f_equal length) in Esel; unfold select in Esel;
             rewrite length_fmap, Hlen in Esel; done).
      exists (fill_cell v). split; [done |]. split.
      * by rewrite fmap_app, fill_row_id by (by apply Hnonan).
      * split; [apply fill_cell_not_NaN |]. intros Hno.
        apply list_elem_of_filter in Hin as [Heq Hin].
        by destruct (Hno rrow Hin).
  - intros row Hrow.
    destruct (join_row Left ts df (keys ++ ["date"]) row) as [| mrow ?]
      eqn:Ejoin.
    { unfold join_row in Ejoin.
      by destruct (partners ts df (keys ++ ["date"]) row). }
    assert (mrow ∈ join_row Left ts df (keys ++ ["date"]) row) as Hin
      by (rewrite Ejoin; left).
    assert (∃ v, mrow = row ++ [v]) as [v ->].
    { apply join_row_elem in Hin as [(_ & _ & ->) | (rrow & _ & ->)].
      - rewrite Hlen. by eexists.
      - destruct (select (rest_idx df (keys ++ ["date"])) rrow)
          as [| v [| ? ?]] eqn:Esel;
          try (apply (f_equal length) in Esel; unfold select in Esel;
               rewrite length_fmap, Hlen in Esel; done).
        by eexists. }
    exists (fill_cell v).
    apply list_elem_of_fmap. exists (row ++ [v]). split.
    + by rewrite fmap_app, fill_row_id by (by apply Hnonan).
    + apply list_elem_of_bind. eauto.
Qed.

Lemma merge_factors_fill feats dr base fs :
  ∀ ts g ts' fs' g',
    rect ts → (∀ row, row ∈ rows ts → CNaN ∉ row) →
    "date" ∈ base → (∀ c, c ∈ base → c ∈ columns ts) →
    NoDup (columns ts ++ (col_name <$> fs)) →
    contract base feats dr fs g →
    merge_factors feats dr fs ts g = (OK ts', fs', g') →
    fs' = rebound feats <$> fs
    ∧ columns ts' = columns ts ++ (col_name <$> fs)
    ∧ rect ts'
    ∧ (∀ row', row' ∈ rows ts' →
         ∃ row ext,
           row ∈ rows ts ∧ row' = row ++ ext
           ∧ ∀ k f df,
               fs !! k = Some f →
               generated feats dr fs g !! k = Some (OK df) →
               ¬ covered (rebound feats f) df (columns ts) row →
               get_cell (columns ts') row' (col_name f) = Some (CNum 1))
    ∧ (∀ row, row ∈ rows ts → ∃ ext, row ++ ext ∈ rows ts').
Proof.
  induction fs as [| f fs IH];
    intros ts g ts' fs' g' Hrect Hnonan Hdate Hbase Hnd Hcontract Hloop.
  - simpl in Hloop. injection Hloop as <- <- <-.
    split; [done |]. split; [by rewrite app_nil_r |]. split; [done |].
    split.
    + intros row Hrow. exists row, []. rewrite app_nil_r.
      split; [done |]. split; [done |]. by intros [| k] f df.
    + intros row Hrow. exists []. by rewrite app_nil_r.
  - simpl in Hloop. unfold merge_factor in Hloop.
    pose proof (Hcontract 0%nat f) as Hc0. simpl in Hc0.
    assert (∀ k f' df,
              fs !! k = Some f' →
              generated feats dr (f :: fs) g !! S k = Some (OK df) →
              conforms (rebound feats f') df
              ∧ ∀ key, key ∈ (features (rebound feats f')).*1 → key ∈ base)
      as HcS by (intros k f' df Hk; by apply (Hcontract (S k))).
    simpl in HcS. cbn [generated].
    destruct (head dr) as [s |]; [| done].
    destruct (last dr) as [e |]; [| done].
    destruct (factor_generate (rebound feats f) s (Some e) g)
      as [[df | err] g1] eqn:Egen; [| done].
    destruct (merge Left ts df _) as [m |] eqn:Em; [| done].
    cbn [mbind result_mbind result_bind] in Hloop.
    destruct (merge_factors feats dr fs (fillna1 m) g1)
      as [[r rest'] g2] eqn:Erest.
    injection Hloop as -> <- <-.
    destruct (Hc0 df eq_refl eq_refl) as [Hconf Hkeys].
    assert (col_name (rebound feats f) = col_name f) as Hcol_eq
      by (unfold rebound; by destruct (apply_to_all f)).
    unfold conforms in Hconf. rewrite Hcol_eq in Hconf.
    assert (col_name f ∉ columns ts) as Hfresh.
    { rewrite fmap_cons in Hnd. apply NoDup_app in Hnd as (_ & Hd & _).
      intros Hin. apply (Hd _ Hin). left. }
    destruct (merge_fill_step ts df _ _ m Hrect Hnonan Hconf
                (Hbase _ Hdate) (λ k Hk, Hbase _ (Hkeys k Hk)) Hfresh Em)
      as (Hcols1 & Hrows1 & Hkeep1).
    assert (rect (fillna1 m)) as Hrect1
      by (apply rect_fillna1; by eapply rect_merge).
    assert (∀ row, row ∈ rows (fillna1 m) → CNaN ∉ row) as Hnonan1.
    { intros row1 Hrow1.
      destruct (Hrows1 row1 Hrow1) as (row & v & Hrow & -> & Hv & _).
      intros Hin. apply elem_of_app in Hin as [Hin | Hin].
      - by apply (Hnonan row).
      - apply list_elem_of_singleton in Hin. by apply Hv. }
    destruct (IH (fillna1 m) g1 ts' rest' g2 Hrect1 Hnonan1 Hdate)
      as (Hfs' & Hcols' & Hrect' & Hrows' & Hkeep'); [| | | done |].
    { intros c Hc. rewrite Hcols1. apply elem_of_app. left. by apply Hbase. }
    { rewrite Hcols1, <- app_assoc. by rewrite fmap_cons in Hnd. }
    { intros k f' df' Hk Hg. by apply (HcS k). }
    split; [by rewrite fmap_cons, Hfs' |].
    split; [by rewrite Hcols', Hcols1, <- app_assoc |].
    split; [done |]. split.
    + intros row' Hrow'.
      destruct (Hrows' row' Hrow') as (row1 & ext1 & Hrow1 & -> & Hfacts).
      destruct (Hrows1 row1 Hrow1) as (row & v & Hrow & -> & _ & Hone).
      assert (length row = length (columns ts)) as Hlen
        by (by eapply Forall_forall in Hrect).
      exists row, ([v] ++ ext1). split; [done |].
      split; [by rewrite <- app_assoc |].
      intros [| k] f' df' Hk Hg Hno.
      * simpl in Hk, Hg. injection Hk as <-. injection Hg as <-.
        rewrite Hcols', Hcols1.
        rewrite get_cell_app_l.
        -- rewrite get_cell_app_r by done. f_equal. apply Hone.
           intros rrow Hrrow Heq. apply Hno. by exists rrow.
        -- rewrite !length_app. simpl. lia.
        -- apply elem_of_app. right. left.
      * simpl in Hk, Hg. apply (Hfacts k f' df' Hk Hg).
        intros (rrow & Hrrow & Heq). apply Hno. exists rrow.
        split; [done |]. rewrite Heq, Hcols1.
        apply key_cells_app_l; [done |].
        destruct (HcS k f' df' Hk Hg) as [_ Hkeys'].
        intros key Hkey. unfold factor_keys in Hkey.
        apply elem_of_app in Hkey as [Hkey | Hkey].
        -- by apply Hbase, Hkeys'.
        -- apply list_elem_of_singleton in Hkey. subst. by apply Hbase.
    + intros row Hrow. destruct (Hkeep1 row Hrow) as [v Hv].
      destruct (Hkeep' _ Hv) as [ext Hext].
      exists ([v] ++ ext). by rewrite app_assoc.
Qed.

Lemma product_cells ls row c :
  row ∈ product ls → c ∈ row → ∃ l, l ∈ ls ∧ c ∈ l.
Proof.
  revert row. induction ls as [| l ls IH]; intros row; simpl.
  - intros H Hc. apply list_elem_of_singleton in H. subst.
    by apply elem_of_nil in Hc.
  - intros H Hc. apply list_elem_of_bind in H as (x & H & Hx).
    apply list_elem_of_bind in H as (tl & H & Htl).
    apply list_elem_of_singleton in H. subst.
    apply elem_of_cons in Hc as [-> | Hc].
    + exists l. split; [left | done].
    + destruct (IH tl Htl Hc) as (l' & Hl' & Hc').
      exists l'. split; [by right | done].
Qed.

Lemma key_cells_self cols row :
  NoDup cols → length row = length cols → key_cells cols cols row = row.
Proof.
  intros Hnd Hlen. apply list_eq. intros i. unfold key_cells.
  rewrite list_lookup_fmap.
  destruct (cols !! i) as [k |] eqn:Ek; simpl.
  - unfold get_cell. rewrite (index_of_NoDup _ _ _ Hnd Ek). simpl.
    destruct (lookup_lt_is_Some_2 row i) as [v Hv].
    { rewrite Hlen. by eapply lookup_lt_Some. }
    by rewrite Hv.
  - symmetry. apply lookup_ge_None. rewrite Hlen.
    by apply lookup_ge_None.
Qed.

Lemma skeleton_no_NaN self sk row :
  skeleton self = OK sk → row ∈ rows sk → CNaN ∉ row.
Proof.
  intros Hsk Hrow Hin.
  apply skeleton_OK in Hsk as (dr & _ & _ & Hrows).
  rewrite Hrows in Hrow.
  destruct (product_cells _ _ _ Hrow Hin) as (l & Hl & Hc).
  apply elem_of_cons in Hl as [-> | Hl].
  - by apply list_elem_of_fmap in Hc as (d & ? & _).
  - apply list_elem_of_fmap in Hl as (vs & -> & _).
    by apply list_elem_of_fmap in Hc as (v & ? & _).
Qed.

(** C2. Let the names of the skeleton columns, [base_amount], the factor
    columns and the two derived columns be pairwise distinct, and let
    every factor return a frame with the columns of the factor contract
    (the date, its declared features, which are features of the engine,
    and its value column). Then in the table [generate] returns, a row
    whose date and feature values have no matching row in a factor's
    generated frame holds exactly 1 in that factor's column; and every
    row of the skeleton (every date with every combination of declared
    feature values, covered by the factors or not) is in the returned
    table. *)
Theorem generate_neutral_fill (self : Generator.t) (g : Rng)
    (ts : DataFrame) (self' : Generator.t) (g' : Rng)
    (Hgen : generate self g = (OK ts, self', g'))
    (Hnames : NoDup (("date" :: (_features self).*1) ++ ["base_amount"]
                     ++ (col_name <$> _factors self)
                     ++ ["total_factor"; "value"]))
    (Hcontract : contract ("date" :: (_features self).*1) (_features self)
                   (default [] (_date_range self)) (_factors self) g) :
  (∀ k f df row,
     _factors self' !! k = Some f →
     generated (_features self) (default [] (_date_range self))
       (_factors self) g !! k = Some (OK df) →
     row ∈ rows ts →
     ¬ covered f df (columns ts) row →
     get_cell (columns ts) row (col_name f) = Some (CNum 1))
  ∧ (∀ sk srow,
       skeleton self = OK sk → srow ∈ rows sk →
       ∃ row, row ∈ rows ts
              ∧ key_cells (columns ts) (columns sk) row = srow).
Proof.
  apply generate_OK in Hgen as (m & fs & Hm & _ & Hts & ->).
  unfold merged in Hm.
  destruct (skeleton self) as [sk |] eqn:Esk; [| done].
  pose proof (rect_skeleton _ _ Esk) as Hrect_sk.
  pose proof (skeleton_OK _ _ Esk) as (dr & Hdr & Hcols_sk & _).
  set (base := "date" :: (_features self).*1) in *.
  set (names := col_name <$> _factors self) in *.
  assert (NoDup base ∧ ("base_amount" ∉ base)
          ∧ NoDup ((base ++ ["base_amount"]) ++ names)
          ∧ (∀ c, c ∈ (base ++ ["base_amount"]) ++ names →
                  c ≠ "total_factor" ∧ c ≠ "value"))
    as (Hnd_base & Hba & Hnd & Hreserved).
  { rewrite !app_assoc in Hnames.
    apply NoDup_app in Hnames as (Hnd & Hres & _).
    split; [| split; [| split]].
    - apply NoDup_app in Hnd as (Hnd & _).
      by apply NoDup_app in Hnd as (Hnd & _).
    - apply NoDup_app in Hnd as (Hnd & _).
      apply NoDup_app in Hnd as (_ & Hd & _).
      intros Hin. apply (Hd _ Hin). left.
    - done.
    - intros c Hc. specialize (Hres c Hc). set_solver. }
  set (ts0 := set_scalar sk "base_amount" (CNum (_base_value self))) in *.
  assert (columns ts0 = base ++ ["base_amount"]) as Hcols0.
  { unfold ts0, set_scalar, set_header. cbn [columns]. rewrite Hcols_sk.
    fold base. apply index_of_None in Hba. by rewrite Hba. }
  assert (rows ts0 = (λ row, row ++ [CNum (_base_value self)]) <$> rows sk)
    as Hrows0.
  { unfold ts0, set_scalar, set_cell. cbn [rows]. rewrite Hcols_sk.
    fold base. apply index_of_None in Hba. by rewrite Hba. }
  assert (rect ts0) as Hrect0 by (by apply rect_set_scalar).
  assert (∀ row, row ∈ rows ts0 → CNaN ∉ row) as Hnonan0.
  { intros row Hrow. rewrite Hrows0 in Hrow.
    apply list_elem_of_fmap in Hrow as (srow & -> & Hsrow).
    intros Hin. apply elem_of_app in Hin as [Hin | Hin].
    - by apply (skeleton_no_NaN _ _ _ Esk Hsrow).
    - by apply list_elem_of_singleton in Hin. }
  assert (∀ c, c ∈ base → c ∈ columns ts0) as Hbase0.
  { intros c Hc. rewrite Hcols0. apply elem_of_app. by left. }
  rewrite Hdr in Hcontract. cbn [default] in Hcontract.
  rewrite Hdr. cbn [default]. rewrite Hdr in Hm. cbn [default] in Hm.
  destruct (merge_factors_fill (_features self) dr base (_factors self)
              ts0 g m fs g' Hrect0 Hnonan0)
    as (Hfs & Hcols_m & Hrect_m & Hrows_m & Hkeep_m);
    [left | done | by rewrite Hcols0 | done | done |].
  fold names in Hcols_m.
  assert (col_name <$> fs = names) as Hnames_fs.
  { rewrite Hfs, <- list_fmap_compose. apply list_fmap_ext.
    intros i f _. simpl. unfold rebound. by destruct (apply_to_all f). }
  rewrite Hnames_fs in Hts.
  pose proof (add_totals_spec _ _ _ Hrect_m Hts) as Htotals.
  assert (∀ i row mrow row0 ext keys,
            rows ts !! i = Some row → rows m !! i = Some mrow →
            row0 ∈ rows ts0 → mrow = row0 ++ ext →
            (∀ key, key ∈ keys → key ∈ base) →
            key_cells (columns ts) keys row
            = key_cells (columns ts0) keys row0) as Hkeys_eq.
  { intros i row mrow row0 ext keys Hrow Hmrow Hrow0 -> Hkeys.
    destruct (Forall2_lookup_lr _ _ _ _ _ _ Htotals Hrow Hmrow)
      as (vals & b & _ & _ & _ & _ & Hsame).
    transitivity (key_cells (columns m) keys (row0 ++ ext)).
    - unfold key_cells. apply list_fmap_ext. intros j key Hkey. simpl.
      apply list_elem_of_lookup_2 in Hkey.
      destruct (Hreserved key) as [? ?].
      { apply elem_of_app. left. apply elem_of_app. left. by apply Hkeys. }
      by rewrite Hsame.
    - rewrite Hcols_m. apply key_cells_app_l.
      + by eapply Forall_forall in Hrect0.
      + intros key Hkey. by apply Hbase0, Hkeys. }
  cbn [_factors with_ts with_factors]. split.
  - intros k f' df row Hf' Hg Hrow Hno.
    rewrite Hfs, list_lookup_fmap in Hf'.
    destruct (_factors self !! k) as [f |] eqn:Ef; [| done].
    injection Hf' as <-.
    destruct (Hcontract k f df Ef Hg) as [_ Hfkeys].
    apply list_elem_of_lookup_1 in Hrow as [i Hi].
    destruct (Forall2_lookup_l _ _ _ _ _ Htotals Hi)
      as (mrow & Hmrow & vals & b & _ & _ & _ & _ & Hsame).
    destruct (Hrows_m mrow) as (row0 & ext & Hrow0 & -> & Hfacts);
      [by eapply list_elem_of_lookup_2 |].
    assert (col_name (rebound (_features self) f) = col_name f) as ->
      by (unfold rebound; by destruct (apply_to_all f)).
    destruct (Hreserved (col_name f)) as [? ?].
    { apply elem_of_app. right. apply list_elem_of_fmap.
      exists f. split; [done |]. by eapply list_elem_of_lookup_2. }
    rewrite Hsame by done. apply (Hfacts k f df Ef Hg).
    intros (rrow & Hrrow & Heq). apply Hno. exists rrow.
    split; [done |]. rewrite Heq. symmetry.
    eapply Hkeys_eq; try done.
    intros key Hkey. unfold factor_keys in Hkey.
    apply elem_of_app in Hkey as [Hkey | Hkey].
    + by apply Hfkeys.
    + apply list_elem_of_singleton in Hkey. subst. left.
  - intros sk' srow [= <-] Hsrow.
    assert (srow ++ [CNum (_base_value self)] ∈ rows ts0) as Hrow0.
    { rewrite Hrows0. apply list_elem_of_fmap. eauto. }
    destruct (Hkeep_m _ Hrow0) as [ext Hmrow].
    pose proof Hmrow as Hmrow'.
    apply list_elem_of_lookup_1 in Hmrow' as [i Hi].
    destruct (Forall2_lookup_r _ _ _ _ _ Htotals Hi) as (row & Hrow & _).
    exists row. split; [by eapply list_elem_of_lookup_2 |].
    rewrite (Hkeys_eq i row _ _ ext (columns sk) Hrow Hi Hrow0 eq_refl)
      by (by rewrite Hcols_sk).
    rewrite Hcols0, <- Hcols_sk.
    assert (length srow = length (columns sk)) as Hlen
      by (by eapply Forall_forall in Hrect_sk).
    rewrite key_cells_app_l by done.
    apply key_cells_self; [by rewrite Hcols_sk | done].
Qed.

End neutral_fill.

(** ** The engine on examples *)

Section generator_examples.
Import Generator.

Lemma LinearTrend_factor_deterministic lt :
  deterministic (LinearTrend_factor lt).
Proof. by intros feats s e g g'. Qed.

Lemma WeekdayFactor_factor_deterministic wf :
  deterministic (WeekdayFactor_factor wf).
Proof. by intros feats s e g g'. Qed.

(** The rows of [baz_feat], which the trend does not cover, and the rows
    of the last day, which the weekday factor does not cover. *)
Example engine_table_rows :
  columns Sample.engine_table
  = ["date"; "my_feature"; "base_amount"; "lin_trend";
     "weekend_trend_factor"; "total_factor"; "value"]
  ∧ Sample.engine_table.(rows) !! 2%nat
    = Some [CDate 0; CStr "baz_feat"; CNum 5; CNum 1; CNum 1; CNum 1;
            CNum 5]
  ∧ (λ row : list cell, take 2 row ++ take 1 (skipn 4 row))
      <$> skipn 6 Sample.engine_table.(rows)
    = [[CDate 2; CStr "foo_feat"; CNum 1];
       [CDate 2; CStr "bar_feat"; CNum 1];
       [CDate 2; CStr "baz_feat"; CNum 1]].
Proof. vm_compute. done. Qed.

Lemma generate_product_invariant_witness :
  ∃ m,
    (merged Sample.engine Sample.rng0).1.1 = OK m
    ∧ Forall2
        (totals_of m Sample.engine_table
           (col_name <$> _factors Sample.engine))
        (rows Sample.engine_table) (rows m).
Proof.
  apply (generate_product_invariant Sample.engine Sample.rng0
           Sample.engine_table
           (generate Sample.engine Sample.rng0).1.2
           (generate Sample.engine Sample.rng0).2).
  vm_compute. reflexivity.
Defined.

Lemma generate_neutral_fill_witness :
  (∀ k f df row,
     _factors (generate Sample.engine Sample.rng0).1.2 !! k = Some f →
     generated (_features Sample.engine)
       (default [] (_date_range Sample.engine))
       (_factors Sample.engine) Sample.rng0 !! k = Some (OK df) →
     row ∈ rows Sample.engine_table →
     ¬ covered f df (columns Sample.engine_table) row →
     get_cell (columns Sample.engine_table) row (col_name f)
     = Some (CNum 1))
  ∧ (∀ sk srow,
       skeleton Sample.engine = OK sk → srow ∈ rows sk →
       ∃ row, row ∈ rows Sample.engine_table
              ∧ key_cells (columns Sample.engine_table) (columns sk) row
                = srow).
Proof.
  apply (generate_neutral_fill Sample.engine Sample.rng0
           Sample.engine_table
           (generate Sample.engine Sample.rng0).1.2
           (generate Sample.engine Sample.rng0).2).
  - vm_compute. reflexivity.
  - apply (bool_decide_unpack _). vm_compute. exact I.
  - intros [| [| k]] f df Hf Hg; [| | done].
    + injection Hf as <-. vm_compute in Hg. injection Hg as <-.
      split; [reflexivity |]. intros key Hkey.
      apply list_elem_of_singleton in Hkey. subst. right. left.
    + injection Hf as <-. vm_compute in Hg. injection Hg as <-.
      split; [reflexivity |]. intros key Hkey. by apply elem_of_nil in Hkey.
Defined.

Lemma generate_duplicate_names_witness :
  is_OK (generate Sample.engine_same_names Sample.rng0).1.1 = false
  ∧ _ts (generate Sample.engine_same_names Sample.rng0).1.2
    = _ts Sample.engine_same_names
  ∧ (is_OK (merged Sample.engine_same_names Sample.rng0).1.1 = true →
     (generate Sample.engine_same_names Sample.rng0).1.1
     = Raise (DuplicateNameError
                (col_name <$> _factors Sample.engine_same_names)))
  ∧ (∀ e,
       (merged Sample.engine_same_names Sample.rng0).1.1 = Raise e →
       (generate Sample.engine_same_names Sample.rng0).1.1 = Raise e).
Proof.
  apply (generate_duplicate_names Sample.engine_same_names Sample.rng0).
  apply (bool_decide_unpack _). vm_compute. exact I.
Defined.

(** Two trends under the default name: the merges complete and the
    duplicate-name error is raised. *)
Example engine_same_names_error :
  (generate Sample.engine_same_names Sample.rng0).1.1
  = Raise (DuplicateNameError ["lin_trend"; "lin_trend"]).
Proof. vm_compute. reflexivity. Qed.

(** C4 (as stated) fails: two factors share the name [lin_trend], one of
    them depends on a feature the engine does not declare; its merge
    raises [KeyError] before the names are compared, so the exception is
    not the duplicate-name error. *)
Lemma generate_duplicate_names_preempted :
  ¬ NoDup (col_name <$> _factors Sample.engine_same_names_no_feature)
  ∧ (generate Sample.engine_same_names_no_feature Sample.rng0).1.1
    = Raise (KeyError "my_feature")
  ∧ ∀ names,
      (generate Sample.engine_same_names_no_feature Sample.rng0).1.1
      ≠ Raise (DuplicateNameError names).
Proof.
  split; [| split].
  - apply (bool_decide_unpack _). vm_compute. exact I.
  - vm_compute. reflexivity.
  - intros names. vm_compute. discriminate.
Qed.

Lemma generate_twice_same_witness :
  (generate (generate Sample.engine Sample.rng0).1.2 Sample.rng1).1.1
  = (generate Sample.engine Sample.rng0).1.1
  ∧ _factors
      (generate (generate Sample.engine Sample.rng0).1.2
         Sample.rng1).1.2
    = _factors (generate Sample.engine Sample.rng0).1.2.
Proof.
  apply (generate_twice_same Sample.engine Sample.rng0 Sample.rng1).
  constructor; [apply LinearTrend_factor_deterministic |].
  constructor; [apply WeekdayFactor_factor_deterministic |].
  constructor.
Defined.

(** With white noise the second call continues the random source where
    the first call left it, and the tables differ. *)
Example engine_noise_twice_differ :
  (generate (generate Sample.engine_noise Sample.rng1).1.2
     (generate Sample.engine_noise Sample.rng1).2).1.1
  ≠ (generate Sample.engine_noise Sample.rng1).1.1.
Proof. vm_compute. discriminate. Qed.

End generator_examples.

(** * Further properties *)

(** ** Changing the factor set *)

Section factor_set.
Import Generator FactorSet.

(** X3. A successful [add_factor] on an engine whose factor names are
    pairwise distinct leaves them pairwise distinct: the name of the new
    factor was not in use, the factor set is the old one with the new
    factor, and nothing else of the engine changes. *)
Theorem add_factor_keeps_names_unique (self : Generator.t) (factor : Factor)
    (self' : Generator.t)
    (Hunique : NoDup (col_name <$> _factors self))
    (Hadd : add_factor self factor = inr self') :
  NoDup (col_name <$> _factors self')
  ∧ (col_name factor ∉ (col_name <$> _factors self))
  ∧ _factors self' ≡ₚ factor :: _factors self
  ∧ _features self' = _features self
  ∧ _date_range self' = _date_range self
  ∧ _base_value self' = _base_value self
  ∧ _ts self' = _ts self.
Proof.
  unfold add_factor in Hadd.
  destruct (decide (col_name factor ∈ col_name <$> _factors self))
    as [Hin | Hn]; [done |].
  injection Hadd as <-. cbn [with_factors _factors _features _date_range
    _base_value _ts].
  split; [| split; [done |]; split; [| done]].
  - rewrite fmap_app. apply NoDup_app. split; [done |]. split.
    + intros x Hx Hx'. apply list_elem_of_singleton in Hx'. by subst.
    + apply NoDup_singleton.
  - symmetry. apply Permutation_cons_append.
Qed.

Lemma add_factor_keeps_names_unique_witness :
  NoDup (col_name <$> _factors (with_factors Sample.engine
           (_factors Sample.engine ++ [LinearTrend_factor Sample2.trend_2])))
  ∧ (col_name (LinearTrend_factor Sample2.trend_2)
     ∉ (col_name <$> _factors Sample.engine))
  ∧ _factors (with_factors Sample.engine
       (_factors Sample.engine ++ [LinearTrend_factor Sample2.trend_2]))
    ≡ₚ LinearTrend_factor Sample2.trend_2 :: _factors Sample.engine
  ∧ _features (with_factors Sample.engine
       (_factors Sample.engine ++ [LinearTrend_factor Sample2.trend_2]))
    = _features Sample.engine
  ∧ _date_range (with_factors Sample.engine
       (_factors Sample.engine ++ [LinearTrend_factor Sample2.trend_2]))
    = _date_range Sample.engine
  ∧ _base_value (with_factors Sample.engine
       (_factors Sample.engine ++ [LinearTrend_factor Sample2.trend_2]))
    = _base_value Sample.engine
  ∧ _ts (with_factors Sample.engine
       (_factors Sample.engine ++ [LinearTrend_factor Sample2.trend_2]))
    = _ts Sample.engine.
Proof.
  apply (add_factor_keeps_names_unique Sample.engine
           (LinearTrend_factor Sample2.trend_2)).
  - apply (bool_decide_unpack _). vm_compute. exact I.
  - reflexivity.
Defined.

(** A factor whose name is in use is refused. *)
Example add_factor_taken_name :
  add_factor Sample.engine (LinearTrend_factor Sample.global_trend)
  = inl (FactorAlreadyExistsError "lin_trend").
Proof. reflexivity. Qed.

Lemma filter_other_names name (fs : list Factor) :
  col_name <$> filter (λ f, col_name f ≠ name) fs
  = filter (λ n, n ≠ name) (col_name <$> fs).
Proof.
  induction fs as [| f fs IH]; [done |].
  rewrite fmap_cons, !filter_cons. destruct (decide (col_name f ≠ name)).
  - by rewrite fmap_cons, IH.
  - done.
Qed.

Lemma update_factor_factors self factor :
  _factors (update_factor self factor)
  = filter (λ f, col_name f ≠ col_name factor) (_factors self) ++ [factor].
Proof.
  unfold update_factor. cbn [with_factors _factors]. f_equal.
  case_decide as Hin; [done |]. symmetry. apply filter_all.
  intros f Hf Heq. apply Hin. apply list_elem_of_fmap. eauto.
Qed.

(** X4. After [update_factor] the given factor is in the set and is the
    only factor with its name, whether the name was in use or not (every
    factor that carried the name is gone, the factors with other names are
    the same as before); pairwise distinct names stay pairwise distinct;
    and updating a second time with the same factor changes nothing. *)
Theorem update_factor_replaces (self : Generator.t) (factor : Factor) :
  factor ∈ _factors (update_factor self factor)
  ∧ (∀ f, f ∈ _factors (update_factor self factor) →
          col_name f = col_name factor → f = factor)
  ∧ (∀ f, col_name f ≠ col_name factor →
          (f ∈ _factors (update_factor self factor) ↔ f ∈ _factors self))
  ∧ (NoDup (col_name <$> _factors self) →
     NoDup (col_name <$> _factors (update_factor self factor)))
  ∧ update_factor (update_factor self factor) factor
    = update_factor self factor.
Proof.
  rewrite update_factor_factors. split; [| split; [| split; [| split]]].
  - apply elem_of_app. right. left.
  - intros f Hf Hname. apply elem_of_app in Hf as [Hf | Hf].
    + by apply list_elem_of_filter in Hf as [? _].
    + by apply list_elem_of_singleton in Hf.
  - intros f Hname. rewrite elem_of_app, list_elem_of_filter,
      list_elem_of_singleton. split.
    + intros [[_ ?] | ->]; done.
    + intros Hf. by left.
  - intros Hnd. rewrite fmap_app, filter_other_names. apply NoDup_app.
    split; [by apply NoDup_filter |]. split; [| apply NoDup_singleton].
    intros n Hn Hn'. apply list_elem_of_singleton in Hn'. subst.
    by apply list_elem_of_filter in Hn as [? _].
  - assert (_factors (update_factor (update_factor self factor) factor)
            = _factors (update_factor self factor)) as Heq.
    { rewrite (update_factor_factors (update_factor self factor)).
      rewrite update_factor_factors, filter_app.
      rewrite list_filter_filter.
      rewrite (filter_none _ [factor]).
      - rewrite app_nil_r. f_equal. apply list_filter_iff. intros f. tauto.
      - intros f Hf. apply list_elem_of_singleton in Hf. subst.
        by intros Hne. }
    unfold update_factor at 1 3. unfold update_factor in Heq.
    cbn [with_factors _factors _features _base_value _date_range _ts] in *.
    unfold with_factors. f_equal. exact Heq.
Qed.

(** X5. An engine whose factor names are pairwise distinct passes the name
    check of [generate]: when the loop over the factors completes, what
    [generate] returns is what the computation of the totals returns, and
    when the loop raises, its exception; so after a successful [add_factor]
    on such an engine the name check of [generate] still passes. *)
Theorem generate_after_add_factor (self : Generator.t) (factor : Factor)
    (self' : Generator.t) (g : Rng)
    (Hunique : NoDup (col_name <$> _factors self))
    (Hadd : add_factor self factor = inr self') :
  (generate self' g).1.1
  = (m ← (merged self' g).1.1; add_totals m (col_name <$> _factors self')).
Proof.
  unfold add_factor in Hadd.
  destruct (decide (col_name factor ∈ col_name <$> _factors self))
    as [Hin | Hn]; [done |].
  injection Hadd as <-.
  set (self' := with_factors self (_factors self ++ [factor])).
  pose proof (merged_col_names self' g) as Hnames.
  assert (NoDup (col_name <$> _factors self')) as Hnd.
  { unfold self'. cbn [with_factors _factors]. rewrite fmap_app.
    apply NoDup_app. split; [done |]. split; [| apply NoDup_singleton].
    intros x Hx Hx'. apply list_elem_of_singleton in Hx'. by subst. }
  unfold generate.
  destruct (merged self' g) as [[[m | e] fs] g0]; cbn [fst snd] in *;
    [| done].
  rewrite Hnames.
  destruct (has_duplicates _) eqn:Hd.
  - apply has_duplicates_true in Hd. done.
  - cbn [mbind result_mbind result_bind].
    by destruct (add_totals m _).
Qed.

Lemma generate_after_add_factor_witness :
  (generate
     (with_factors Sample.engine
        (_factors Sample.engine ++ [LinearTrend_factor Sample2.trend_2]))
     Sample.rng0).1.1
  = (m ← (merged
            (with_factors Sample.engine
               (_factors Sample.engine ++ [LinearTrend_factor Sample2.trend_2]))
            Sample.rng0).1.1;
     add_totals m
       (col_name
          <$> _factors
                (with_factors Sample.engine
                   (_factors Sample.engine
                    ++ [LinearTrend_factor Sample2.trend_2])))).
Proof.
  apply (generate_after_add_factor Sample.engine
           (LinearTrend_factor Sample2.trend_2)).
  - apply (bool_decide_unpack _). vm_compute. exact I.
  - reflexivity.
Defined.

End factor_set.

(** ** Edge cases and invariants of [Generator.generate] *)

Section generate_edges.
Import Generator.

Lemma with_factors_self self : with_factors self (_factors self) = self.
Proof. by destruct self. Qed.

(** X6. An engine without a range of dates, which is what the constructor
    builds when no range is passed, cannot generate: [generate] raises a
    [TypeError] before any factor is touched, and leaves the engine and the
    random source as they were. *)
Theorem generate_without_date_range (self : Generator.t) (g : Rng)
    (Hnone : _date_range self = None) :
  generate self g
  = (Raise (TypeError "'NoneType' object is not iterable"), self, g)
  ∧ ∀ factors features base_value,
      _date_range (init factors features None base_value) = None.
Proof.
  split; [| done]. unfold generate, merged, skeleton. rewrite Hnone.
  by rewrite with_factors_self.
Qed.

Lemma generate_without_date_range_witness :
  generate (init [LinearTrend_factor Sample.global_trend] None None 1%Q)
    Sample.rng0
  = (Raise (TypeError "'NoneType' object is not iterable"),
     init [LinearTrend_factor Sample.global_trend] None None 1%Q,
     Sample.rng0)
  ∧ ∀ factors features base_value,
      _date_range (init factors features None base_value) = None.
Proof.
  apply (generate_without_date_range
           (init [LinearTrend_factor Sample.global_trend] None None 1%Q)
           Sample.rng0).
  reflexivity.
Defined.

(** X7. On an empty range of dates an engine with at least one factor
    raises [IndexError]: the first date is looked up before the first
    factor generates anything. The first factor has been given the
    engine's features by then if it applies to all features; the other
    factors and the random source are untouched. *)
Theorem generate_empty_date_range (self : Generator.t) (g : Rng)
    (f : Factor) (rest : list Factor)
    (Hempty : _date_range self = Some [])
    (Hfactors : _factors self = f :: rest) :
  generate self g
  = (Raise (IndexError "index 0 is out of bounds"),
     with_factors self (rebound (_features self) f :: rest), g).
Proof.
  unfold generate, merged, skeleton. rewrite Hempty, Hfactors. reflexivity.
Qed.

Lemma generate_empty_date_range_witness :
  generate Sample2.engine_no_date Sample.rng0
  = (Raise (IndexError "index 0 is out of bounds"),
     with_factors Sample2.engine_no_date
       (rebound (_features Sample2.engine_no_date)
          (LinearTrend_factor Sample2.trend_2) :: []),
     Sample.rng0).
Proof.
  apply (generate_empty_date_range Sample2.engine_no_date Sample.rng0
           (LinearTrend_factor Sample2.trend_2) []); reflexivity.
Defined.

(** X8. An engine with no factor generates the combinations of dates and
    feature values, each with the base amount, a total factor of 1 and the
    value 1 times the base amount; the random source is not used. This
    holds for every range of dates, the empty one included. *)
Theorem generate_no_factors (self : Generator.t) (g : Rng) (dr : list Z)
    (Hfactors : _factors self = [])
    (Hrange : _date_range self = Some dr)
    (Hnames : NoDup (("date" :: (_features self).*1)
                     ++ ["base_amount"; "total_factor"; "value"])) :
  ∃ ts,
    generate self g = (OK ts, with_ts self ts, g)
    ∧ columns ts = ("date" :: (_features self).*1)
                   ++ ["base_amount"; "total_factor"; "value"]
    ∧ rows ts
      = (λ row, row ++ [CNum (_base_value self); CNum 1;
                        CNum (1 * _base_value self)%Q])
        <$> product ((CDate <$> dr)
                     :: ((λ vs : list string, CStr <$> vs)
                           <$> (_features self).*2)).
Proof.
  set (cols0 := "date" :: (_features self).*1) in *.
  set (P := product ((CDate <$> dr)
                     :: ((λ vs : list string, CStr <$> vs)
                           <$> (_features self).*2))).
  assert (∀ x, x ∈ P → length x = length cols0) as Hlen.
  { intros x Hx. apply length_product in Hx. rewrite Hx. unfold cols0.
    cbn [length]. by rewrite !length_fmap. }
  apply NoDup_app in Hnames as (Hnd0 & Hfresh & Hnd1).
  assert ("base_amount" ∉ cols0) as Hba
    by (intros Hin; apply (Hfresh _ Hin); set_solver).
  assert ("total_factor" ∉ cols0) as Htf
    by (intros Hin; apply (Hfresh _ Hin); set_solver).
  assert ("value" ∉ cols0) as Hval
    by (intros Hin; apply (Hfresh _ Hin); set_solver).
  assert (add_totals
            (set_scalar {| columns := cols0; rows := P |} "base_amount"
               (CNum (_base_value self))) []
          = OK {| columns := ((cols0 ++ ["base_amount"]) ++ ["total_factor"])
                             ++ ["value"];
                  rows := (λ x, ((x ++ [CNum (_base_value self)])
                                 ++ [CNum 1])
                                ++ [CNum (1 * _base_value self)%Q])
                          <$> P |}) as Htot.
  { unfold set_scalar, set_header, set_cell. cbn [columns rows].
    apply index_of_None in Hba. rewrite Hba.
    unfold add_totals. cbn [columns rows].
    rewrite (mapM_fmap _ _ (λ _, 1%Q)) by done.
    step. rewrite <- list_fmap_compose.
    rewrite (set_column_fmap_new _ _ _ (CNum ∘ (λ _, 1%Q))).
    2:{ rewrite elem_of_app, list_elem_of_singleton. intros [? | ?]; done. }
    step.
    rewrite (mapM_fmap _ _ (λ _, CNum (1 * _base_value self)%Q)).
    2:{ intros x Hx. unfold value_cell, row_item.
        rewrite get_cell_app_r.
        2:{ rewrite !length_app. cbn [length]. rewrite (Hlen x Hx). done. }
        2:{ rewrite elem_of_app, list_elem_of_singleton.
            intros [? | ?]; done. }
        step. cbn [as_num]. step.
        rewrite get_cell_app_l.
        2:{ rewrite !length_app. cbn [length]. rewrite (Hlen x Hx). done. }
        2:{ apply elem_of_app. right. left. }
        rewrite get_cell_app_r; [| by apply Hlen | by apply index_of_None].
        step. done. }
    step.
    rewrite (set_column_fmap_new _ _ _ (λ _, CNum (1 * _base_value self)%Q)).
    2:{ rewrite !elem_of_app, !list_elem_of_singleton.
        intros [[? | ?] | ?]; done. }
    done. }
  eexists. split; [| split].
  - unfold generate, merged, skeleton. rewrite Hrange, Hfactors.
    cbn [merge_factors fmap list_fmap]. fold cols0. fold P.
    assert (has_duplicates [] = false) as -> by done.
    rewrite Htot. f_equal. f_equal. unfold with_ts, with_factors.
    cbn [_factors _features _base_value _date_range _ts].
    rewrite <- Hfactors. reflexivity.
  - cbn [columns]. by rewrite <- !app_assoc.
  - cbn [rows]. apply list_fmap_ext. intros i x _.
    by rewrite <- !app_assoc.
Qed.

Lemma generate_no_factors_witness :
  ∃ ts,
    generate Sample2.engine_no_factor Sample.rng1
    = (OK ts, with_ts Sample2.engine_no_factor ts, Sample.rng1)
    ∧ columns ts = ("date" :: (_features Sample2.engine_no_factor).*1)
                   ++ ["base_amount"; "total_factor"; "value"]
    ∧ rows ts
      = (λ row, row ++ [CNum (_base_value Sample2.engine_no_factor); CNum 1;
                        CNum (1 * _base_value Sample2.engine_no_factor)%Q])
        <$> product ((CDate <$> [0; 1])
                     :: ((λ vs : list string, CStr <$> vs)
                           <$> (_features Sample2.engine_no_factor).*2)).
Proof.
  apply (generate_no_factors Sample2.engine_no_factor Sample.rng1 [0; 1]).
  - reflexivity.
  - reflexivity.
  - apply (bool_decide_unpack _). vm_compute. exact I.
Defined.

(** *** The number of rows *)

Lemma length_bind_ge {A B} (f : A → list B) (l : list A) :
  (∀ x, x ∈ l → f x ≠ []) → (length l ≤ length (l ≫= f))%nat.
Proof.
  induction l as [| a l IH]; intros Hf; [done |].
  rewrite bind_cons, length_app. cbn [length].
  assert (f a ≠ []) as Ha by (apply Hf; left).
  assert (length l ≤ length (l ≫= f))%nat as Hl
    by (apply IH; intros x Hx; apply Hf; by right).
  destruct (f a); [done |]. cbn [length]. lia.
Qed.

Lemma length_bind_singletons {A B} (f : A → list B) (l : list A) :
  (∀ x, x ∈ l → length (f x) = 1%nat) → length (l ≫= f) = length l.
Proof.
  induction l as [| a l IH]; intros Hf; [done |].
  rewrite bind_cons, length_app. cbn [length].
  rewrite (Hf a) by left. rewrite IH; [done |].
  intros x Hx. apply Hf. by right.
Qed.

Lemma join_row_Left_nonempty l r on lrow : join_row Left l r on lrow ≠ [].
Proof. unfold join_row. by destruct (partners l r on lrow). Qed.

Lemma length_filter_key {A K} `{EqDecision K} (k : A → K) (v : K)
    (l : list A) :
  NoDup (k <$> l) → (length (filter (λ x, k x = v) l) ≤ 1)%nat.
Proof.
  induction l as [| a l IH]; intros Hnd; [simpl; lia |].
  rewrite fmap_cons in Hnd. apply NoDup_cons in Hnd as [Ha Hnd].
  rewrite filter_cons. destruct (decide (k a = v)) as [Heq | Hne].
  - rewrite (filter_none _ l); [simpl; lia |].
    intros x Hx Hk. apply Ha. apply list_elem_of_fmap. exists x.
    split; [congruence | done].
  - by apply IH.
Qed.

Lemma length_join_row_Left l r on lrow :
  NoDup (key_cells (columns r) on <$> rows r) →
  length (join_row Left l r on lrow) = 1%nat.
Proof.
  intros Hnd. unfold join_row, partners.
  pose proof (length_filter_key (key_cells (columns r) on)
                (key_cells (columns l) on lrow) (rows r) Hnd) as Hle.
  destruct (filter _ (rows r)) as [| p ps]; [done |].
  rewrite length_fmap. cbn [length] in *. lia.
Qed.

Lemma length_merge_factor feats dr f ts g ts' f' g' :
  merge_factor feats dr f ts g = (OK ts', f', g') →
  (length (rows ts) ≤ length (rows ts'))%nat
  ∧ ∀ s e df,
      head dr = Some s → last dr = Some e →
      (factor_generate (rebound feats f) s (Some e) g).1 = OK df →
      unique_keys (rebound feats f) df →
      length (rows ts') = length (rows ts).
Proof.
  unfold merge_factor. intros H.
  destruct (head dr) as [s |]; [| done].
  destruct (last dr) as [e |]; [| done].
  destruct (factor_generate (rebound feats f) s (Some e) g)
    as [[df | err] g0] eqn:Hfg; [| done].
  destruct (merge Left ts df _) as [m | err] eqn:Hm; [| done].
  cbn [mbind result_mbind result_bind] in H.
  assert (ts' = fillna1 m) as -> by congruence.
  apply merge_unfold in Hm. subst m. cbn [fillna1 rows].
  rewrite length_fmap. split.
  - apply length_bind_ge. intros x _. apply join_row_Left_nonempty.
  - intros s' e' df' [= <-] [= <-] Hg' Hu. rewrite Hfg in Hg'.
    cbn [fst] in Hg'. assert (df' = df) as -> by congruence.
    apply length_bind_singletons. intros x _.
    by apply length_join_row_Left.
Qed.

Lemma generated_cons feats dr f rest g s e :
  head dr = Some s → last dr = Some e →
  generated feats dr (f :: rest) g
  = (factor_generate (rebound feats f) s (Some e) g).1
    :: generated feats dr rest
         (factor_generate (rebound feats f) s (Some e) g).2.
Proof.
  intros Hs He. cbn [generated]. rewrite Hs, He.
  by destruct (factor_generate (rebound feats f) s (Some e) g).
Qed.

Lemma merge_factor_OK feats dr f ts g ts' f' g' :
  merge_factor feats dr f ts g = (OK ts', f', g') →
  ∃ s e df,
    head dr = Some s ∧ last dr = Some e
    ∧ factor_generate (rebound feats f) s (Some e) g = (OK df, g')
    ∧ f' = rebound feats f
    ∧ (m ← merge Left ts df ((features (rebound feats f)).*1 ++ ["date"]);
       OK (fillna1 m)) = OK ts'.
Proof.
  unfold merge_factor. intros H.
  destruct (head dr) as [s |]; [| done].
  destruct (last dr) as [e |]; [| done].
  destruct (factor_generate (rebound feats f) s (Some e) g)
    as [[df | err] g0] eqn:Hfg; [| done].
  exists s, e, df.
  assert (g0 = g') as -> by congruence.
  assert (f' = rebound feats f) as -> by congruence.
  split_and!; try done. by injection H.
Qed.

Lemma length_merge_factors feats dr fs :
  ∀ ts g ts' fs' g',
    merge_factors feats dr fs ts g = (OK ts', fs', g') →
    (length (rows ts) ≤ length (rows ts'))%nat
    ∧ ((∀ k f df,
          fs !! k = Some f →
          generated feats dr fs g !! k = Some (OK df) →
          unique_keys (rebound feats f) df) →
       length (rows ts') = length (rows ts)).
Proof.
  induction fs as [| f rest IH]; intros ts g ts' fs' g' H.
  - cbn [merge_factors] in H. assert (ts' = ts) as -> by congruence. done.
  - cbn [merge_factors] in H.
    destruct (merge_factor feats dr f ts g) as [[[ts1 | err] f1] g1] eqn:Hmf;
      [| done].
    destruct (merge_factors feats dr rest ts1 g1) as [[r rest'] g2] eqn:Hr.
    assert (r = OK ts') as -> by congruence.
    apply IH in Hr as [Hle Heq].
    pose proof (length_merge_factor _ _ _ _ _ _ _ _ Hmf) as [Hle1 Heq1].
    apply merge_factor_OK in Hmf as (s & e & df & Hs & He & Hg & _ & _).
    split; [lia |]. intros Hu.
    rewrite (generated_cons _ _ _ _ _ s e) in Hu by done.
    rewrite Hg in Hu. cbn [fst snd] in Hu.
    rewrite Heq.
    + apply (Heq1 s e df); try done; [by rewrite Hg |].
      by apply (Hu 0%nat f df).
    + intros k f0 df0 Hf0 Hg0. by apply (Hu (S k) f0 df0).
Qed.

Lemma length_add_totals m names ts :
  add_totals m names = OK ts → length (rows ts) = length (rows m).
Proof.
  unfold add_totals. intros H.
  apply bind_OK in H as (totals & _ & H).
  apply bind_OK in H as (ts1 & H1 & H).
  apply bind_OK in H as (values & _ & H).
  apply set_column_OK in H1 as (Hl1 & _ & Hr1).
  apply set_column_OK in H as (Hl2 & _ & Hr2).
  rewrite Hr2, length_zip_with, Hl2, Nat.min_id.
  rewrite Hr1, length_zip_with, Hl1, Nat.min_id. done.
Qed.

(** X9. [generate] never loses a combination of a date and feature
    values: the generated table has at least as many rows as there are
    combinations. *)
Theorem generate_keeps_skeleton_rows (self : Generator.t) (g : Rng)
    (ts : DataFrame) (self' : Generator.t) (g' : Rng) (sk : DataFrame)
    (Hgen : generate self g = (OK ts, self', g'))
    (Hsk : skeleton self = OK sk) :
  (length (rows sk) ≤ length (rows ts))%nat.
Proof.
  apply generate_OK in Hgen as (m & fs & Hm & _ & Htot & _).
  apply length_add_totals in Htot. rewrite Htot.
  unfold merged in Hm. rewrite Hsk in Hm.
  apply length_merge_factors in Hm as [Hle _].
  unfold set_scalar in Hle. cbn [rows] in Hle.
  by rewrite length_fmap in Hle.
Qed.

Lemma generate_keeps_skeleton_rows_witness :
  (length (rows Sample2.engine_skeleton)
   ≤ length (rows Sample.engine_table))%nat.
Proof.
  apply (generate_keeps_skeleton_rows Sample.engine Sample.rng0
           Sample.engine_table
           (generate Sample.engine Sample.rng0).1.2
           (generate Sample.engine Sample.rng0).2).
  - vm_compute. reflexivity.
  - reflexivity.
Defined.

(** X10. When no frame generated in the loop has two rows with the same
    keys, the generated table has exactly one row for each combination of
    a date and feature values. *)
Theorem generate_row_count (self : Generator.t) (g : Rng)
    (ts : DataFrame) (self' : Generator.t) (g' : Rng) (sk : DataFrame)
    (Hgen : generate self g = (OK ts, self', g'))
    (Hsk : skeleton self = OK sk)
    (Hkeys : ∀ k f df,
       _factors self !! k = Some f →
       generated (_features self) (default [] (_date_range self))
         (_factors self) g !! k = Some (OK df) →
       unique_keys (rebound (_features self) f) df) :
  length (rows ts) = length (rows sk).
Proof.
  apply generate_OK in Hgen as (m & fs & Hm & _ & Htot & _).
  apply length_add_totals in Htot. rewrite Htot.
  unfold merged in Hm. rewrite Hsk in Hm.
  apply length_merge_factors in Hm as [_ Heq].
  rewrite Heq by done. unfold set_scalar. cbn [rows].
  by rewrite length_fmap.
Qed.

Lemma generate_row_count_witness :
  length (rows Sample.engine_table)
  = length (rows Sample2.engine_skeleton).
Proof.
  apply (generate_row_count Sample.engine Sample.rng0
           Sample.engine_table
           (generate Sample.engine Sample.rng0).1.2
           (generate Sample.engine Sample.rng0).2).
  - vm_compute. reflexivity.
  - reflexivity.
  - intros [| [| k]] f df Hf Hg; [| | done].
    + injection Hf as <-. vm_compute in Hg. injection Hg as <-.
      apply (bool_decide_unpack _). vm_compute. exact I.
    + injection Hf as <-. vm_compute in Hg. injection Hg as <-.
      apply (bool_decide_unpack _). vm_compute. exact I.
Defined.

(** *** The engine after [generate] *)

Lemma merge_factors_OK_factors feats dr fs :
  ∀ ts g ts' fs' g',
    merge_factors feats dr fs ts g = (OK ts', fs', g') →
    fs' = rebound feats <$> fs.
Proof.
  induction fs as [| f rest IH]; intros ts g ts' fs' g' H.
  - cbn [merge_factors] in H. by assert (fs' = []) as -> by congruence.
  - cbn [merge_factors] in H.
    destruct (merge_factor feats dr f ts g) as [[[ts1 | err] f1] g1] eqn:Hmf;
      [| done].
    destruct (merge_factors feats dr rest ts1 g1) as [[r rest'] g2] eqn:Hr.
    assert (r = OK ts') as -> by congruence.
    assert (fs' = f1 :: rest') as -> by congruence.
    apply IH in Hr as ->.
    apply merge_factor_OK in Hmf as (_ & _ & _ & _ & _ & _ & -> & _).
    by rewrite fmap_cons.
Qed.

(** X11. What [generate] does to the engine: the features, the range of
    dates and the base value are never changed, and the factors keep their
    names. After a successful call the engine holds the generated table
    and every factor that applies to all features has the engine's
    features, the other factors being as they were; after a failing call
    the stored table is the one from before. *)
Theorem generate_state (self : Generator.t) (g : Rng) :
  _features (generate self g).1.2 = _features self
  ∧ _date_range (generate self g).1.2 = _date_range self
  ∧ _base_value (generate self g).1.2 = _base_value self
  ∧ col_name <$> _factors (generate self g).1.2 = col_name <$> _factors self
  ∧ (∀ ts, (generate self g).1.1 = OK ts →
       _ts (generate self g).1.2 = Some ts
       ∧ _factors (generate self g).1.2
         = (λ f, if apply_to_all f then rebind f (_features self) else f)
           <$> _factors self)
  ∧ (∀ e, (generate self g).1.1 = Raise e →
       _ts (generate self g).1.2 = _ts self).
Proof.
  pose proof (merged_col_names self g) as Hnames.
  assert (∀ m, (merged self g).1.1 = OK m →
               (merged self g).1.2 = rebound (_features self)
                                       <$> _factors self) as Hfs.
  { intros m Hm. unfold merged in *. destruct (skeleton self); [| done].
    destruct (merge_factors _ _ _ _ _) as [[r fs] g0] eqn:Hmf.
    cbn [fst snd] in *. subst r.
    by apply merge_factors_OK_factors in Hmf. }
  unfold generate.
  destruct (merged self g) as [[[m | err] fs] g0]; cbn [fst snd] in *.
  - specialize (Hfs m eq_refl).
    destruct (has_duplicates _);
      [| destruct (add_totals m _) as [ts | err]];
      cbn [fst snd with_ts with_factors _features _date_range _base_value
             _factors _ts];
      split_and!; try done.
    intros ts' [= <-]. by rewrite Hfs.
  - cbn [fst snd with_factors _features _date_range _base_value _factors
      _ts]. split_and!; done.
Qed.

(** *** The date column of a factor *)

Lemma merge_factors_OK_keys feats dr fs :
  ∀ ts g ts' fs' g',
    merge_factors feats dr fs ts g = (OK ts', fs', g') →
    ∀ k f df,
      fs !! k = Some f →
      generated feats dr fs g !! k = Some (OK df) →
      ∀ key, key ∈ (features (rebound feats f)).*1 ++ ["date"] →
             key ∈ columns df.
Proof.
  induction fs as [| f rest IH]; intros ts g ts' fs' g' H k f0 df0 Hf0 Hg0;
    [done |].
  cbn [merge_factors] in H.
  destruct (merge_factor feats dr f ts g) as [[[ts1 | err] f1] g1] eqn:Hmf;
    [| done].
  destruct (merge_factors feats dr rest ts1 g1) as [[r rest'] g2] eqn:Hr.
  assert (r = OK ts') as -> by congruence.
  apply merge_factor_OK in Hmf as (s & e & df & Hs & He & Hg & _ & Hm).
  rewrite (generated_cons _ _ _ _ _ s e) in Hg0 by done.
  rewrite Hg in Hg0. cbn [fst snd] in Hg0.
  destruct k as [| k].
  - cbn in Hf0, Hg0. assert (f0 = f) as -> by congruence.
    assert (df0 = df) as -> by congruence.
    apply bind_OK in Hm as (m & Hm & _). unfold merge in Hm.
    destruct (missing_label _ (columns ts)); [done |].
    destruct (missing_label _ (columns df)) eqn:Hml; [done |].
    intros key. by apply missing_label_None.
  - by apply (IH _ _ _ _ _ Hr k f0 df0).
Qed.

(** X12. The loop of [generate] merges every generated frame on the label
    [date], whatever the factor's [date_col_name] is (the renaming of the
    factor's date column is discarded): when a frame generated in the loop
    has no column labelled [date], [generate] returns no table. *)
Theorem generate_needs_date_column (self : Generator.t) (g : Rng)
    (k : nat) (df : DataFrame)
    (Hdf : generated (_features self) (default [] (_date_range self))
             (_factors self) g !! k = Some (OK df))
    (Hdate : "date" ∉ columns df) :
  is_OK (generate self g).1.1 = false.
Proof.
  destruct (generate self g) as [[[ts | e] self'] g'] eqn:Hgen; [| done].
  exfalso. apply Hdate.
  apply generate_OK in Hgen as (m & fs & Hm & _).
  unfold merged in Hm. destruct (skeleton self) as [sk | err]; [| done].
  assert (is_Some (_factors self !! k)) as [f Hf].
  { apply lookup_lt_is_Some. apply lookup_lt_Some in Hdf.
    revert Hdf. generalize (_features self) (default [] (_date_range self)) g.
    generalize (_factors self) k. clear.
    induction l as [| f l IH]; intros k feats dr g; [simpl; lia |].
    cbn [generated]. destruct (head dr); [| simpl; lia].
    destruct (last dr); [| simpl; lia].
    destruct (factor_generate _ _ _ _) as [r g0].
    destruct k; cbn [length]; [lia |]. intros H.
    specialize (IH k feats dr g0). lia. }
  apply (merge_factors_OK_keys _ _ _ _ _ _ _ _ Hm k f df Hf Hdf).
  apply elem_of_app. right. left.
Qed.

Lemma generate_needs_date_column_witness :
  is_OK (generate Sample2.engine_day Sample.rng0).1.1 = false.
Proof.
  apply (generate_needs_date_column Sample2.engine_day Sample.rng0 0%nat
           Sample2.trend_day_frame).
  - vm_compute. reflexivity.
  - apply (bool_decide_unpack _). vm_compute. exact I.
Defined.

End generate_edges.

(** ** utils.py: the cartesian product *)

Section cartesian_product.

Lemma elem_of_set_header cols c : c ∈ set_header cols c.
Proof.
  unfold set_header. destruct (index_of c cols) as [i |] eqn:Hi.
  - apply index_of_Some in Hi. by eapply list_elem_of_lookup_2.
  - apply elem_of_app. right. left.
Qed.

Lemma length_bind_const {A B} (f : A → list B) (l : list A) n :
  (∀ x, x ∈ l → length (f x) = n) → length (l ≫= f) = (length l * n)%nat.
Proof.
  induction l as [| a l IH]; intros Hf; [done |].
  rewrite bind_cons, length_app. cbn [length].
  rewrite (Hf a) by left. rewrite IH; [lia |].
  intros x Hx. apply Hf. by right.
Qed.

Lemma key_cells_set_scalar df c v row :
  rect df → row ∈ rows (set_scalar df c v) →
  key_cells (columns (set_scalar df c v)) [c] row = [v].
Proof.
  intros Hrect Hrow. unfold set_scalar in *. cbn [columns rows] in *.
  apply list_elem_of_fmap in Hrow as (row0 & -> & Hrow0).
  unfold key_cells. cbn [fmap list_fmap].
  rewrite get_cell_set_cell_eq; [done |].
  unfold rect in Hrect. rewrite Forall_forall in Hrect. by apply Hrect.
Qed.

(** X1. The cartesian product of two rectangular frames whose labels are
    distinct from each other and from the helper label [key] has the
    columns of the first frame followed by those of the second, and one
    row for every pair of a row of the first and a row of the second: the
    rows of the first frame vary slowest, and each row is the two rows put
    side by side. *)
Theorem get_cartesian_product_pairs (df1 df2 : DataFrame)
    (Hrect1 : rect df1) (Hrect2 : rect df2)
    (Hkey1 : "key" ∉ columns df1) (Hkey2 : "key" ∉ columns df2)
    (Hdisjoint : ∀ c, c ∈ columns df1 → c ∉ columns df2) :
  get_cartesian_product df1 df2
  = OK {| columns := columns df1 ++ columns df2;
          rows := (λ p, p.1 ++ p.2) <$> cprod (rows df1) (rows df2) |}.
Proof.
  rewrite get_cartesian_product_spec by done. f_equal. f_equal.
  apply (bind_fmap_cprod (λ r1 r2 : list cell, r1 ++ r2)).
Qed.

Lemma get_cartesian_product_pairs_witness :
  get_cartesian_product Sample2.frame_a Sample2.frame_c
  = OK {| columns := columns Sample2.frame_a ++ columns Sample2.frame_c;
          rows := (λ p, p.1 ++ p.2)
                  <$> cprod (rows Sample2.frame_a) (rows Sample2.frame_c) |}.
Proof.
  apply (get_cartesian_product_pairs Sample2.frame_a Sample2.frame_c).
  - repeat constructor.
  - repeat constructor.
  - apply (bool_decide_unpack _). vm_compute. exact I.
  - apply (bool_decide_unpack _). vm_compute. exact I.
  - intros c Hc. apply (bool_decide_unpack _).
    apply elem_of_cons in Hc as [-> | Hc];
      [| apply list_elem_of_singleton in Hc as ->]; vm_compute; exact I.
Defined.

(** X2. On rectangular frames the cartesian product never raises, whatever
    the labels are (shared labels, or a column already called [key]): the
    result is rectangular, has one row for each pair of rows, and has no
    column labelled [key]; a column [key] of an argument is lost. *)
Theorem get_cartesian_product_total (df1 df2 : DataFrame)
    (Hrect1 : rect df1) (Hrect2 : rect df2) :
  ∃ df,
    get_cartesian_product df1 df2 = OK df
    ∧ rect df
    ∧ length (rows df) = (length (rows df1) * length (rows df2))%nat
    ∧ "key" ∉ columns df.
Proof.
  set (l := set_scalar df1 "key" (CNum 1)).
  set (r := set_scalar df2 "key" (CNum 1)).
  assert (rect l) as Hl by (by apply rect_set_scalar).
  assert ("key" ∈ columns l) as Hkl by apply elem_of_set_header.
  assert ("key" ∈ columns r) as Hkr by apply elem_of_set_header.
  assert (∃ m, merge Inner l r ["key"] = OK m) as [m Hm].
  { unfold merge.
    assert (missing_label ["key"] (columns l) = None) as ->.
    { apply missing_label_None. intros c Hc.
      by apply list_elem_of_singleton in Hc as ->. }
    assert (missing_label ["key"] (columns r) = None) as ->.
    { apply missing_label_None. intros c Hc.
      by apply list_elem_of_singleton in Hc as ->. }
    eauto. }
  pose proof (rect_merge _ _ _ _ _ Hl Hm) as Hrm.
  pose proof (merge_unfold _ _ _ _ _ Hm) as Hmu.
  assert (length (rows m) = (length (rows df1) * length (rows df2))%nat)
    as Hlen.
  { rewrite Hmu. cbn [rows].
    rewrite (length_bind_const _ _ (length (rows r))).
    - unfold l, r, set_scalar. cbn [rows]. by rewrite !length_fmap.
    - intros lrow Hlrow. unfold join_row.
      assert (partners l r ["key"] lrow = rows r) as ->.
      { unfold partners. apply filter_all. intros rrow Hrrow.
        unfold l, r in *.
        rewrite (key_cells_set_scalar df2) by done.
        by rewrite (key_cells_set_scalar df1). }
      destruct (rows r); [done |]. by rewrite length_fmap. }
  assert ("key" ∈ columns m) as Hkm.
  { rewrite Hmu. cbn [columns]. unfold merge_columns.
    apply elem_of_app. left. apply list_elem_of_fmap. exists "key".
    split; [| done]. rewrite decide_False; [done |].
    intros [Hn _]. apply Hn. left. }
  unfold get_cartesian_product. fold l. fold r. rewrite Hm. step.
  unfold drop.
  assert (missing_label ["key"] (columns m) = None) as ->.
  { apply missing_label_None. intros c Hc.
    by apply list_elem_of_singleton in Hc as ->. }
  eexists. split; [reflexivity |]. cbn [columns rows]. split; [| split].
  - unfold rect. cbn [columns rows]. apply Forall_fmap.
    apply Forall_forall. intros row _. cbn. unfold select.
    by rewrite length_fmap, length_rest_positions.
  - by rewrite length_fmap.
  - intros Hin. apply list_elem_of_filter in Hin as [Hn _]. apply Hn. left.
Qed.

Lemma get_cartesian_product_total_witness :
  ∃ df,
    get_cartesian_product Sample2.frame_a Sample2.frame_b = OK df
    ∧ rect df
    ∧ length (rows df)
      = (length (rows Sample2.frame_a) * length (rows Sample2.frame_b))%nat
    ∧ "key" ∉ columns df.
Proof.
  apply (get_cartesian_product_total Sample2.frame_a Sample2.frame_b).
  - repeat constructor.
  - repeat constructor.
Defined.

End cartesian_product.

(** ** white_noise.py: the form that applies to all features *)

Section white_noise.

Lemma WhiteNoise_init_global stdev col wn :
  WhiteNoise.init (Some stdev) None col = OK wn →
  wn = {| WhiteNoise.base :=
            {| _col_name := col; _features := [];
               _date_col_name := "date"; _apply_to_all := true |};
          WhiteNoise._stdev_factor := Some stdev;
          WhiteNoise._feature_values := None |}.
Proof.
  unfold WhiteNoise.init. cbn [truthy_dict]. rewrite andb_false_r, orb_false_r.
  cbn [orb]. destruct (negb (truthy_float (Some stdev))); [done |].
  cbn. by intros [= <-].
Qed.

Lemma get_datetime_index_seqZ s e :
  get_datetime_index s e = seqZ s (Z.of_nat (length (get_datetime_index s e))).
Proof.
  unfold get_datetime_index. destruct e as [e |].
  - rewrite length_seqZ. destruct (decide (0 ≤ e - s + 1)).
    + by rewrite Z2Nat.id.
    + rewrite !seqZ_nil by lia. done.
  - by rewrite length_seqZ.
Qed.

Lemma WhiteNoise_generate_global_rows (stdev : Q) (col : string)
    (wn : WhiteNoise.t) (s : Z) (e : option Z) (g : Rng)
    (Hinit : WhiteNoise.init (Some stdev) None col = OK wn)
    (Hcol : col ≠ "date") :
  WhiteNoise.generate wn s e g
  = (OK {| columns := ["date"; col];
           rows := (λ t : nat,
                      [CDate (s + Z.of_nat t);
                       CNum (stdev * draws g (pos g + t) + 1)%Q])
                   <$> seq 0 (length (get_datetime_index s e)) |},
     {| draws := draws g;
        pos := (pos g + length (get_datetime_index s e))%nat |}).
Proof.
  apply WhiteNoise_init_global in Hinit. subst wn.
  unfold WhiteNoise.generate.
  cbn [WhiteNoise.base _features _date_col_name _col_name
       WhiteNoise._stdev_factor].
  unfold randn, to_frame. cbn [rows]. rewrite length_fmap.
  set (n := length (get_datetime_index s e)).
  cbn [WhiteNoise.scaled_noise]. step. unfold join_column.
  cbn [columns rows].
  rewrite decide_False
    by (intros Hin; apply list_elem_of_singleton in Hin; done).
  f_equal. f_equal. f_equal.
  rewrite (get_datetime_index_seqZ s e). fold n.
  apply list_eq. intros i.
  rewrite list_lookup_imap, !list_lookup_fmap.
  destruct (decide (i < n)%nat) as [Hi | Hi].
  - rewrite lookup_seqZ_lt by lia. rewrite lookup_seq_lt by done. simpl.
    unfold lookup_cell. rewrite !list_lookup_fmap, lookup_seq_lt by done.
    done.
  - rewrite lookup_seqZ_ge by lia. rewrite lookup_seq_ge by lia. done.
Qed.

(** X13. Outside an engine, white noise with one standard deviation
    generates one row per day of the range, the end date included (50 days
    when there is no end date): the value of the [t]-th day is the
    standard deviation times the [t]-th next sample of the random source,
    plus 1, and the source advances by the number of days. An empty range
    gives an empty frame and no exception. *)
Theorem WhiteNoise_generate_global (stdev : Q) (col : string)
    (wn : WhiteNoise.t) (s : Z) (e : option Z) (g : Rng)
    (Hinit : WhiteNoise.init (Some stdev) None col = OK wn)
    (Hcol : col ≠ "date") :
  WhiteNoise.generate wn s e g
  = (OK {| columns := ["date"; col];
           rows := (λ t : nat,
                      [CDate (s + Z.of_nat t);
                       CNum (stdev * draws g (pos g + t) + 1)%Q])
                   <$> seq 0 (length (get_datetime_index s e)) |},
     {| draws := draws g;
        pos := (pos g + length (get_datetime_index s e))%nat |}).
Proof.
  exact (WhiteNoise_generate_global_rows stdev col wn s e g Hinit Hcol).
Qed.

Lemma WhiteNoise_generate_global_witness :
  WhiteNoise.generate Sample.global_noise 0 (Some 2) Sample.rng1
  = (OK {| columns := ["date"; "white_noise"];
           rows := (λ t : nat,
                      [CDate (0 + Z.of_nat t);
                       CNum ((5 # 100)
                             * draws Sample.rng1 (pos Sample.rng1 + t)
                             + 1)%Q])
                   <$> seq 0 (length (get_datetime_index 0 (Some 2))) |},
     {| draws := draws Sample.rng1;
        pos := Nat.add (pos Sample.rng1)
                 (length (get_datetime_index 0 (Some 2))) |}).
Proof.
  apply (WhiteNoise_generate_global (5 # 100) "white_noise"
           Sample.global_noise 0 (Some 2) Sample.rng1).
  - reflexivity.
  - discriminate.
Defined.

Lemma WhiteNoise_generate_engine_rows (stdev : Q) (col : string)
    (wn : WhiteNoise.t) (feats : FeatureSet) (s : Z) (e : option Z)
    (g : Rng)
    (Hinit : WhiteNoise.init (Some stdev) None col = OK wn)
    (Hfeats : feats ≠ [])
    (Hlabels : NoDup ("key" :: "date" :: feats.*1))
    (Hcol : col ∉ "date" :: feats.*1) :
  let combos :=
    (λ p : Z * list cell, CDate p.1 :: p.2)
      <$> cprod (get_datetime_index s e)
            (product ((λ vs : list string, CStr <$> vs) <$> feats.*2)) in
  factor_generate (Generator.rebound feats (WhiteNoise_factor wn)) s e g
  = (OK {| columns := ("date" :: feats.*1) ++ [col];
           rows := zip_with
                     (λ row k, row ++ [CNum (stdev * draws g k + 1)%Q])
                     combos (seq (pos g) (length combos)) |},
     {| draws := draws g; pos := (pos g + length combos)%nat |}).
Proof.
  intros combos.
  apply WhiteNoise_init_global in Hinit. subst wn.
  unfold Generator.rebound, WhiteNoise_factor, of_base, factor_generate,
    rebind.
  cbn [WhiteNoise.base _apply_to_all apply_to_all features generate_with
       set_features _col_name _features _date_col_name
       WhiteNoise._stdev_factor WhiteNoise._feature_values].
  unfold WhiteNoise.generate.
  destruct feats as [| f0 feats']; [done |].
  cbn [WhiteNoise.base _features _date_col_name _col_name set_features
       WhiteNoise._stdev_factor WhiteNoise._feature_values truthy_dict].
  set (feats := f0 :: feats') in *.
  apply NoDup_cons in Hlabels as [Hkey Hlabels].
  apply NoDup_cons in Hlabels as [Hdate _].
  rewrite get_cartesian_product_spec.
  - cbn [columns rows]. unfold randn.
    assert ((r1 ← (to_frame (get_datetime_index s e) "date").(rows);
             r2 ← product ((λ vs : list string, CStr <$> vs) <$> feats.*2);
             [r1 ++ r2]) = combos) as ->.
    { unfold to_frame. cbn [rows].
      transitivity ((λ p : Z * list cell, [CDate p.1] ++ p.2)
                      <$> cprod (get_datetime_index s e)
                            (product ((λ vs : list string, CStr <$> vs)
                                        <$> feats.*2))).
      - pose proof (bind_fmap2_cprod (λ d, [CDate d]) id
                      (get_datetime_index s e)
                      (product ((λ vs : list string, CStr <$> vs)
                                  <$> feats.*2))) as Hb.
        rewrite list_fmap_id in Hb. exact Hb.
      - done. }
    cbn [WhiteNoise.scaled_noise]. step. unfold set_column.
    cbn [columns rows].
    rewrite decide_True by (by rewrite !length_fmap, length_seq).
    unfold set_header, set_cell.
    assert (index_of col (columns (to_frame (get_datetime_index s e) "date")
                          ++ feats.*1) = None) as ->.
    { apply index_of_None. exact Hcol. }
    f_equal. f_equal. rewrite <- list_fmap_compose.
    by rewrite zip_with_fmap_r.
  - unfold rect, to_frame. cbn [columns rows]. apply Forall_fmap.
    by apply Forall_forall.
  - unfold rect. cbn [columns rows]. apply Forall_forall. intros row Hrow.
    apply length_product in Hrow. by rewrite Hrow, !length_fmap.
  - cbn [to_frame columns]. intros Hin.
    by apply list_elem_of_singleton in Hin.
  - cbn [columns]. intros Hin. apply Hkey. by right.
  - cbn [to_frame columns]. intros c Hc.
    apply list_elem_of_singleton in Hc as ->. exact Hdate.
Qed.

(** X14. Inside an engine with at least one feature, white noise with one
    standard deviation is given the engine's features and generates one
    row for every combination of a day and feature values, each with a
    sample of its own: the rows are numbered from the first day and the
    first combination on, the days varying slowest, and the row numbered
    [k] holds the standard deviation times the [k]-th next sample of the
    random source, plus 1. The source advances by the number of rows. *)
Theorem WhiteNoise_generate_in_engine (stdev : Q) (col : string)
    (wn : WhiteNoise.t) (feats : FeatureSet) (s : Z) (e : option Z)
    (g : Rng)
    (Hinit : WhiteNoise.init (Some stdev) None col = OK wn)
    (Hfeats : feats ≠ [])
    (Hlabels : NoDup ("key" :: "date" :: feats.*1))
    (Hcol : col ∉ "date" :: feats.*1) :
  let combos :=
    (λ p : Z * list cell, CDate p.1 :: p.2)
      <$> cprod (get_datetime_index s e)
            (product ((λ vs : list string, CStr <$> vs) <$> feats.*2)) in
  factor_generate (Generator.rebound feats (WhiteNoise_factor wn)) s e g
  = (OK {| columns := ("date" :: feats.*1) ++ [col];
           rows := zip_with
                     (λ row k, row ++ [CNum (stdev * draws g k + 1)%Q])
                     combos (seq (pos g) (length combos)) |},
     {| draws := draws g; pos := (pos g + length combos)%nat |}).
Proof.
  exact (WhiteNoise_generate_engine_rows stdev col wn feats s e g Hinit
           Hfeats Hlabels Hcol).
Qed.

Lemma WhiteNoise_generate_in_engine_witness :
  let combos :=
    (λ p : Z * list cell, CDate p.1 :: p.2)
      <$> cprod (get_datetime_index 0 (Some 1))
            (product ((λ vs : list string, CStr <$> vs)
                        <$> (Generator._features Sample.engine_noise).*2)) in
  factor_generate
    (Generator.rebound (Generator._features Sample.engine_noise)
       (WhiteNoise_factor Sample.global_noise)) 0 (Some 1) Sample.rng1
  = (OK {| columns := ("date" :: (Generator._features Sample.engine_noise).*1)
                      ++ ["white_noise"];
           rows := zip_with
                     (λ row k,
                        row ++ [CNum ((5 # 100) * draws Sample.rng1 k + 1)%Q])
                     combos (seq (pos Sample.rng1) (length combos)) |},
     {| draws := draws Sample.rng1;
        pos := (pos Sample.rng1 + length combos)%nat |}).
Proof.
  apply (WhiteNoise_generate_in_engine (5 # 100) "white_noise"
           Sample.global_noise (Generator._features Sample.engine_noise)
           0 (Some 1) Sample.rng1).
  - reflexivity.
  - discriminate.
  - apply (bool_decide_unpack _). vm_compute. exact I.
  - apply (bool_decide_unpack _). vm_compute. exact I.
Defined.

End white_noise.

(** ** random_feature_factor.py *)

Section random_feature.
Import RandomFeatureFactor.

Lemma RandomFeatureFactor_init_OK feature values min max col rf :
  init feature values min max col = OK rf →
  rf = {| base := {| _col_name := col; _features := [(feature, values)];
                     _date_col_name := "date"; _apply_to_all := false |};
          _feature := feature; _feature_values := values;
          _min_factor_value := min; _max_factor_value := max |}
  ∧ (min <= max)%Q.
Proof.
  unfold init, BaseFactor_init. cbn [andb default]. step.
  unfold min_above_max. destruct (Qle_bool min max) eqn:Hle; [| done].
  cbn [negb]. intros [= <-]. split; [done |]. by apply Qle_bool_iff.
Qed.

Lemma Forall_zip_with_all {A B C} (P : C → Prop) (f : A → B → C) l k :
  (∀ x y, P (f x y)) → Forall P (zip_with f l k).
Proof.
  intros H. apply Forall_forall. intros z Hz.
  apply elem_of_zip_with in Hz as (x & y & -> & _). apply H.
Qed.

Lemma RandomFeatureFactor_generate_rows (feature : string)
    (values : list string) (min max : Q) (col : string)
    (rf : RandomFeatureFactor.t) (s : Z) (e : option Z) (g : Rng)
    (Hinit : init feature values min max col = OK rf)
    (Hfeature : feature ∉ ["date"; "key"])
    (Hcol : col ∉ ["date"; "key"; feature]) :
  generate rf s e g
  = (OK {| columns := ["date"; feature; col];
           rows := (λ p : Z * list cell, CDate p.1 :: p.2)
                   <$> cprod (get_datetime_index s e)
                         (zip_with
                            (λ v k, [CStr v; CNum (scale rf (draws g k))])
                            values (seq (pos g) (length values))) |},
     {| draws := draws g; pos := (pos g + length values)%nat |}).
Proof.
  apply RandomFeatureFactor_init_OK in Hinit as [-> Hle].
  assert (feature ≠ "date" ∧ feature ≠ "key") as [Hf1 Hf2] by set_solver.
  assert (col ≠ "date" ∧ col ≠ "key" ∧ col ≠ feature) as (Hc1 & Hc2 & Hc3)
    by set_solver.
  unfold generate, random.
  cbn [base _feature _feature_values _col_name _date_col_name].
  unfold set_column at 2, empty_frame. cbn [columns rows].
  rewrite decide_True by (by rewrite length_fmap, length_replicate).
  step. unfold set_header at 1, set_cell at 1. cbn [index_of].
  rewrite zip_with_replicate_l by (by rewrite length_fmap).
  unfold set_column. cbn [columns rows].
  rewrite decide_True by (by rewrite !length_fmap, length_seq).
  step. unfold set_header, set_cell.
  assert (index_of col ([] ++ [feature]) = None) as ->.
  { apply index_of_None. set_solver. }
  rewrite <- !list_fmap_compose, zip_with_fmap_l, zip_with_fmap_r.
  rewrite get_cartesian_product_spec.
  - f_equal. f_equal. f_equal. unfold to_frame. cbn [rows].
    pose proof (bind_fmap2_cprod (λ d, [CDate d]) id
                  (get_datetime_index s e)
                  (zip_with
                     (λ v k,
                        [CStr v;
                         CNum (scale
                                 {| base :=
                                      {| _col_name := col;
                                         _features := [(feature, values)];
                                         _date_col_name := "date";
                                         _apply_to_all := false |};
                                    _feature := feature;
                                    _feature_values := values;
                                    _min_factor_value := min;
                                    _max_factor_value := max |}
                                 (draws g k))])
                     values (seq (pos g) (length values)))) as Hb.
    rewrite list_fmap_id in Hb. exact Hb.
  - unfold rect, to_frame. cbn [columns rows]. apply Forall_fmap.
    by apply Forall_forall.
  - unfold rect. cbn [columns rows]. by apply Forall_zip_with_all.
  - cbn [to_frame columns]. set_solver.
  - cbn [columns]. set_solver.
  - cbn [to_frame columns]. set_solver.
Qed.

(** X15. A random feature factor draws one sample per feature value, and
    every day of the range carries the same factor for a feature value:
    the minimum plus the sample times the distance from the minimum to the
    maximum. The constructor refuses a minimum above the maximum, so with
    samples between 0 and 1 every factor lies between the minimum and the
    maximum. The random source advances by the number of feature values,
    whatever the number of days. *)
Theorem RandomFeatureFactor_generate_bounds (feature : string)
    (values : list string) (min max : Q) (col : string)
    (rf : RandomFeatureFactor.t) (s : Z) (e : option Z) (g : Rng)
    (Hinit : init feature values min max col = OK rf)
    (Hfeature : feature ∉ ["date"; "key"])
    (Hcol : col ∉ ["date"; "key"; feature])
    (Hunit : ∀ k, (0 <= draws g k)%Q ∧ (draws g k <= 1)%Q) :
  generate rf s e g
  = (OK {| columns := ["date"; feature; col];
           rows := (λ p : Z * list cell, CDate p.1 :: p.2)
                   <$> cprod (get_datetime_index s e)
                         (zip_with
                            (λ v k, [CStr v; CNum (scale rf (draws g k))])
                            values (seq (pos g) (length values))) |},
     {| draws := draws g; pos := (pos g + length values)%nat |})
  ∧ ∀ k, (min <= scale rf (draws g k))%Q ∧ (scale rf (draws g k) <= max)%Q.
Proof.
  split.
  - by apply (RandomFeatureFactor_generate_rows feature values min max).
  - apply RandomFeatureFactor_init_OK in Hinit as [-> Hle].
    intros k. destruct (Hunit k) as [H0 H1]. unfold scale.
    cbn [_min_factor_value _max_factor_value]. split; nra.
Qed.

Lemma RandomFeatureFactor_generate_bounds_witness :
  generate Sample2.store_factor 0 (Some 1) Sample2.rng_half
  = (OK {| columns := ["date"; "store"; "random_feature_factor"];
           rows := (λ p : Z * list cell, CDate p.1 :: p.2)
                   <$> cprod (get_datetime_index 0 (Some 1))
                         (zip_with
                            (λ v k,
                               [CStr v;
                                CNum (scale Sample2.store_factor
                                        (draws Sample2.rng_half k))])
                            ["store_1"; "store_2"]
                            (seq (pos Sample2.rng_half)
                               (length ["store_1"; "store_2"]))) |},
     {| draws := draws Sample2.rng_half;
        pos := Nat.add (pos Sample2.rng_half)
                 (length ["store_1"; "store_2"]) |})
  ∧ ∀ k, (1 <= scale Sample2.store_factor (draws Sample2.rng_half k))%Q
         ∧ (scale Sample2.store_factor (draws Sample2.rng_half k) <= 10)%Q.
Proof.
  apply (RandomFeatureFactor_generate_bounds "store" ["store_1"; "store_2"]
           1 10 "random_feature_factor" Sample2.store_factor 0 (Some 1)
           Sample2.rng_half).
  - reflexivity.
  - apply (bool_decide_unpack _). vm_compute. exact I.
  - apply (bool_decide_unpack _). vm_compute. exact I.
  - intros k. split; discriminate.
Defined.

(** X16. The constructor of a random feature factor fails exactly when the
    minimum is above the maximum, and otherwise declares the one feature
    with its values. *)
Theorem RandomFeatureFactor_init_range (feature : string)
    (values : list string) (min max : Q) (col : string) :
  (is_OK (init feature values min max col) = false ↔ (max < min)%Q)
  ∧ ∀ rf, init feature values min max col = OK rf →
          _features (base rf) = [(feature, values)]
          ∧ (_min_factor_value rf <= _max_factor_value rf)%Q.
Proof.
  split.
  - unfold init, BaseFactor_init. cbn [andb default]. step.
    unfold min_above_max. destruct (Qle_bool min max) eqn:Hle; cbn.
    + apply Qle_bool_iff in Hle. split; [done |]. intros Hlt.
      exfalso. by apply (Qlt_not_le _ _ Hlt).
    + split; [| done]. intros _. apply Qnot_le_lt. intros H.
      apply Qle_bool_iff in H. congruence.
  - intros rf Hrf. by apply RandomFeatureFactor_init_OK in Hrf as [-> Hle].
Qed.

End random_feature.

(** ** weekday_factor.py: values, and the range without an end date *)

Section weekday_values.

(** X17. A weekday factor whose column is not labelled [date], [weekday]
    or [index] generates one row per day from the start date up to the day
    before the end date, or 50 days when there is no end date; the value
    of a day is the factor listed for its day of the week, 1 when none is
    listed, times the intensity scale. The day of the week is a number
    from 0 to 6 that repeats every 7 days. *)
Theorem WeekdayFactor_generate_values
    (factor_values : option (list (Z * Q))) (col : string) (intensity : Q)
    (wf : WeekdayFactor.t) (s : Z) (e : option Z)
    (Hinit : WeekdayFactor.init factor_values col intensity = OK wf)
    (Hcol : col ∉ ["date"; "weekday"; "index"]) :
  WeekdayFactor.generate wf s e
  = OK {| columns := ["date"; col];
          rows := (λ d,
                     [CDate d;
                      CNum (WeekdayFactor.factor_get
                              (default WeekdayFactor.default_factor_values
                                 factor_values)
                              (WeekdayFactor.dayofweek d) 1
                            * intensity)%Q])
                  <$> seqZ s (match e with
                              | Some e => e - s
                              | None => 50
                              end) |}
  ∧ ∀ d, 0 ≤ WeekdayFactor.dayofweek d < 7
         ∧ WeekdayFactor.dayofweek (d + 7) = WeekdayFactor.dayofweek d.
Proof.
  split.
  - rewrite (WeekdayFactor_generate_span factor_values col intensity wf s e)
      by done.
    unfold WeekdayFactor.init in Hinit. simpl in Hinit.
    by injection Hinit as <-.
  - intros d. unfold WeekdayFactor.dayofweek. split.
    + apply Z.mod_pos_bound. lia.
    + replace (d + 7 + 3) with (d + 3 + 1 * 7) by lia.
      by rewrite Z_mod_plus_full.
Qed.

Lemma WeekdayFactor_generate_values_witness :
  WeekdayFactor.generate Sample.weekday 0 None
  = OK {| columns := ["date"; "weekend_trend_factor"];
          rows := (λ d,
                     [CDate d;
                      CNum (WeekdayFactor.factor_get
                              (default WeekdayFactor.default_factor_values
                                 None)
                              (WeekdayFactor.dayofweek d) 1
                            * 1)%Q])
                  <$> seqZ 0 50 |}
  ∧ ∀ d, 0 ≤ WeekdayFactor.dayofweek d < 7
         ∧ WeekdayFactor.dayofweek (d + 7) = WeekdayFactor.dayofweek d.
Proof.
  apply (WeekdayFactor_generate_values None "weekend_trend_factor" 1
           Sample.weekday 0 None).
  - reflexivity.
  - apply (bool_decide_unpack _). vm_compute. exact I.
Defined.

(** A weekday factor whose column is labelled [index] loses it: the reset
    index takes the label [level_0], and the column [index] that is
    dropped is the factor's. *)
Example WeekdayFactor_generate_index_column :
  (wf ← WeekdayFactor.init None "index" 1;
   WeekdayFactor.generate wf 0 (Some 2))
  = OK {| columns := ["level_0"; "date"];
          rows := [[CNum 0; CDate 0]; [CNum 1; CDate 1]] |}.
Proof. vm_compute. reflexivity. Qed.

End weekday_values.

(** ** linear_trend.py: edge cases and the setters *)

Section linear_trend_edges.
Import Setters.

(** X18. A linear trend of either form raises [IndexError] on a range
    whose end date is before its start date: the first date of the range
    is read before anything else. *)
Theorem LinearTrend_generate_empty_range (lt : LinearTrend.t) (s e : Z)
    (Hempty : e < s) :
  LinearTrend.generate lt s (Some e)
  = Raise (IndexError "single positional indexer is out-of-bounds").
Proof.
  unfold LinearTrend.generate, get_datetime_index.
  by rewrite seqZ_nil by lia.
Qed.

Lemma LinearTrend_generate_empty_range_witness :
  LinearTrend.generate Sample.feature_trend 5 (Some 3)
  = Raise (IndexError "single positional indexer is out-of-bounds").
Proof.
  apply (LinearTrend_generate_empty_range Sample.feature_trend 5 3). lia.
Defined.

(** X19. Without an end date a global linear trend covers 50 days, and
    the slope is the coefficient divided by 50. *)
Theorem LinearTrend_generate_no_end_date (coef offset : Q) (col : string)
    (lt : LinearTrend.t) (s : Z)
    (Hinit : LinearTrend.init (Some coef) (Some offset) None None col
             = OK lt)
    (Hcol : col ≠ "date") :
  LinearTrend.generate lt s None
  = OK {| columns := ["date"; col];
          rows := (λ t : nat,
                     [CDate (s + Z.of_nat t);
                      CNum (linear_value coef offset 50 (Z.of_nat t))])
                  <$> seq 0 50 |}.
Proof.
  assert (LinearTrend.generate lt s None
          = LinearTrend.generate lt s (Some (s + 49))) as ->.
  { unfold LinearTrend.generate, get_datetime_index.
    by replace (s + 49 - s + 1) with 50 by lia. }
  rewrite (LinearTrend_generate_global coef offset col lt s (s + 49))
    by (done || lia).
  replace (s + 49 - s + 1) with 50 by lia. reflexivity.
Qed.

Lemma LinearTrend_generate_no_end_date_witness :
  LinearTrend.generate Sample.global_trend 0 None
  = OK {| columns := ["date"; "lin_trend"];
          rows := (λ t : nat,
                     [CDate (0 + Z.of_nat t);
                      CNum (linear_value (5 # 100) 1 50 (Z.of_nat t))])
                  <$> seq 0 50 |}.
Proof.
  apply (LinearTrend_generate_no_end_date (5 # 100) 1 "lin_trend"
           Sample.global_trend 0).
  - reflexivity.
  - discriminate.
Defined.

(** X20. A linear trend can be built with a feature and an empty dict of
    values, but it cannot generate: the empty dict selects the global
    form, which has no coefficient, and [generate] raises [TypeError] on
    every range that has a day. *)
Theorem LinearTrend_empty_feature_values (feature col : string) (s : Z)
    (e : option Z)
    (Hdays : get_datetime_index s e ≠ []) :
  ∃ lt,
    LinearTrend.init None None (Some feature) (Some []) col = OK lt
    ∧ LinearTrend.generate lt s e
      = Raise (TypeError "unsupported operand type(s): NoneType").
Proof.
  unfold LinearTrend.init.
  destruct (negb _) eqn:Hform; [vm_compute in Hform; discriminate |].
  clear Hform.
  destruct (truthy_str (Some feature)); cbn; eexists; (split; [done |]);
    unfold LinearTrend.generate;
    cbn [LinearTrend._feature_values truthy_dict LinearTrend._coef];
    by destruct (get_datetime_index s e).
Qed.

Lemma LinearTrend_empty_feature_values_witness :
  ∃ lt,
    LinearTrend.init None None (Some "my_feature") (Some []) "lin_trend"
    = OK lt
    ∧ LinearTrend.generate lt 0 (Some 2)
      = Raise (TypeError "unsupported operand type(s): NoneType").
Proof.
  apply (LinearTrend_empty_feature_values "my_feature" "lin_trend" 0
           (Some 2)).
  discriminate.
Defined.

(** X21. The two forms of a linear trend stay exclusive: after the
    constructor and after every setter that returns, values per feature
    value are in force only when neither a global coefficient nor a global
    offset is. *)
Theorem LinearTrend_forms_exclusive :
  (∀ coef offset feature feature_values col lt,
     LinearTrend.init coef offset feature feature_values col = OK lt →
     exclusive lt)
  ∧ (∀ lt value lt', LinearTrend_set_coef lt value = OK lt' → exclusive lt')
  ∧ (∀ lt value lt',
       LinearTrend_set_offset lt value = OK lt' → exclusive lt')
  ∧ (∀ lt feature_values lt',
       LinearTrend_set_feature_values lt feature_values = OK lt' →
       exclusive lt')
  ∧ (∀ lt feature,
       exclusive lt → exclusive (LinearTrend_set_feature lt feature)).
Proof.
  split_and!.
  - intros coef offset feature fv col lt. unfold LinearTrend.init.
    destruct (negb _) eqn:Hform; [done |].
    apply negb_false_iff, orb_true_iff in Hform.
    intros H. apply bind_OK in H as (features & _ & H).
    apply bind_OK in H as (b & _ & H). injection H as <-.
    unfold exclusive. cbn [LinearTrend._feature_values LinearTrend._coef
      LinearTrend._offset]. intros Hfv.
    destruct Hform as [Hform | Hform];
      rewrite !andb_true_iff, !bool_decide_eq_true in Hform.
    + destruct Hform as [_ ->]. done.
    + destruct Hform as [[[-> ->] _] _]. done.
  - intros lt value lt'. unfold LinearTrend_set_coef.
    destruct (truthy_dict _) eqn:Hfv; [done |]. intros [= <-].
    unfold exclusive. cbn [LinearTrend._feature_values]. congruence.
  - intros lt value lt'. unfold LinearTrend_set_offset.
    destruct (truthy_dict _) eqn:Hfv; [done |]. intros [= <-].
    unfold exclusive. cbn [LinearTrend._feature_values]. congruence.
  - intros lt fv lt'. unfold LinearTrend_set_feature_values.
    destruct (truthy_float (LinearTrend._coef lt)) eqn:Hc; [done |].
    destruct (truthy_float (LinearTrend._offset lt)) eqn:Ho; [done |].
    cbn [orb]. destruct (existsb _ _); [done |]. intros [= <-].
    unfold exclusive. by cbn [LinearTrend._coef LinearTrend._offset].
  - intros lt feature H. exact H.
Qed.

(** X22. White noise is tied to at most one feature: the constructor
    returns exactly when one of the standard deviation and the values per
    feature is truthy, the factor applies to all features exactly when no
    values per feature are given, and after the constructor and after the
    [feature_values] setter the dict names at most one feature. *)
Theorem WhiteNoise_one_feature :
  (∀ stdev_factor feature_values col,
     is_OK (WhiteNoise.init stdev_factor feature_values col) = true →
     truthy_float stdev_factor = negb (truthy_dict feature_values))
  ∧ (∀ stdev_factor feature_values col wn,
       WhiteNoise.init stdev_factor feature_values col = OK wn →
       (length (default [] (WhiteNoise._feature_values wn)) ≤ 1)%nat
       ∧ (length (_features (WhiteNoise.base wn)) ≤ 1)%nat
       ∧ _apply_to_all (WhiteNoise.base wn)
         = negb (truthy_dict feature_values))
  ∧ (∀ wn feature_values wn',
       WhiteNoise_set_feature_values wn feature_values = OK wn' →
       (length (default [] (WhiteNoise._feature_values wn')) ≤ 1)%nat).
Proof.
  split_and!.
  - intros sd fv col. unfold WhiteNoise.init.
    destruct (truthy_float sd), (truthy_dict fv); done.
  - intros sd fv col wn. unfold WhiteNoise.init.
    destruct (truthy_float sd) eqn:Hsd, (truthy_dict fv) eqn:Hfv;
      cbn [andb orb negb]; try done.
    + unfold BaseFactor_init. cbn. intros [= <-]. cbn.
      destruct fv as [[| ? ?] |]; cbn in *; try done; lia.
    + destruct (decide (1 < length (default [] fv))%nat) as [Hl | Hl];
        [done |].
      unfold BaseFactor_init. cbn [andb default]. step. intros [= <-].
      cbn [WhiteNoise._feature_values WhiteNoise.base _features
           _apply_to_all]. unfold WhiteNoise.features_of.
      rewrite length_fmap. split_and!; [lia | lia | done].
  - intros wn fv wn'. unfold WhiteNoise_set_feature_values.
    destruct (decide (1 < length fv)%nat) as [Hl | Hl]; [done |].
    intros [= <-]. cbn. lia.
Qed.

End linear_trend_edges.

(** ** external_factors/external_factor.py *)

Section external_factor.

Lemma ExternalFactor_generate_filter (self : ExternalFactor.t)
    (data : DataFrame) (s : Z) (e : option Z)
    (Hload : ExternalFactor.load_data self = OK data)
    (Hlabel : "date" ∈ columns data)
    (Hdates : ∀ row, row ∈ rows data →
                     ∃ d, get_cell (columns data) row "date"
                          = Some (CDate d)) :
  ExternalFactor.generate self s e
  = OK {| columns := columns data;
          rows := filter (λ row, date_in_span s e (columns data) row = true)
                    (rows data) |}.
Proof.
  unfold ExternalFactor.generate. rewrite Hload. step.
  destruct (index_of_elem _ _ Hlabel) as [i Hi].
  unfold get_column. rewrite Hi. step.
  rewrite (mapM_fmap _ _ (date_in_span s e (columns data))).
  - step. f_equal. f_equal.
    pose proof (filter_zip_mask id (date_in_span s e (columns data))
                  (rows data)) as Hf.
    rewrite !list_fmap_id in Hf. exact Hf.
  - intros row Hrow. destruct (Hdates row Hrow) as [d Hd].
    unfold date_in_span. rewrite Hd. unfold get_cell in Hd.
    rewrite Hi in Hd. cbn in Hd. unfold lookup_cell. rewrite Hd. done.
Qed.

(** X23. An external factor generates the rows of its loaded data whose
    date is on or after the start date and before the end date (every row
    from the start date on when there is no end date), in the order of the
    data and with the columns of the data. The dates are read under the
    label [date]; the minimum and maximum dates of the factor play no
    part. *)
Theorem ExternalFactor_generate_span (self : ExternalFactor.t)
    (data : DataFrame) (s : Z) (e : option Z)
    (Hload : ExternalFactor.load_data self = OK data)
    (Hlabel : "date" ∈ columns data)
    (Hdates : ∀ row, row ∈ rows data →
                     ∃ d, get_cell (columns data) row "date"
                          = Some (CDate d)) :
  ExternalFactor.generate self s e
  = OK {| columns := columns data;
          rows := filter (λ row, date_in_span s e (columns data) row = true)
                    (rows data) |}.
Proof.
  exact (ExternalFactor_generate_filter self data s e Hload Hlabel Hdates).
Qed.

Lemma ExternalFactor_generate_span_witness :
  ExternalFactor.generate Sample2.country_factor 1 (Some 3)
  = OK {| columns := columns Sample2.country_data;
          rows := filter
                    (λ row, date_in_span 1 (Some 3)
                              (columns Sample2.country_data) row = true)
                    (rows Sample2.country_data) |}.
Proof.
  apply (ExternalFactor_generate_span Sample2.country_factor
           Sample2.country_data 1 (Some 3)).
  - reflexivity.
  - apply (bool_decide_unpack _). vm_compute. exact I.
  - intros row Hrow.
    repeat (apply elem_of_cons in Hrow as [-> | Hrow];
            [eexists; reflexivity |]).
    by apply elem_of_nil in Hrow.
Defined.

(** The rows of the days 1 and 2 of the sample data. *)
Example ExternalFactor_generate_rows :
  ExternalFactor.generate Sample2.country_factor 1 (Some 3)
  = OK {| columns := ["date"; "country"; "gdp"];
          rows := [[CDate 1; CStr "Italy"; CNum (3 # 4)];
                   [CDate 2; CStr "Italy"; CNum (4 # 5)]] |}.
Proof. vm_compute. reflexivity. Qed.

End external_factor.

(** ** holiday_factor.py: the factors of one year *)

Section holiday_year.
Import HolidayFactor HolidayYear.

Lemma series_get_first_at l d b :
  series_get l d = Some b ↔ ∃ i, first_at l i d b.
Proof.
  induction l as [| [a b0] l IH].
  - split; [done |]. intros [i [Hi _]]. by rewrite lookup_nil in Hi.
  - cbn [series_get]. destruct (decide (d = a)) as [-> | Hne].
    + split.
      * intros [= <-]. exists 0%nat. apply first_at_cons_here.
      * intros [i Hi]. apply first_at_cons_inv in Hi
          as [(_ & _ & ->) | (i' & _ & Hne & _)]; done.
    + rewrite IH. split.
      * intros [i Hi]. exists (S i). by apply first_at_cons_later.
      * intros [i Hi]. apply first_at_cons_inv in Hi
          as [(_ & -> & _) | (i' & _ & _ & Hi')]; [done | eauto].
Qed.

Lemma series_get_elem l d b : series_get l d = Some b → (d, b) ∈ l.
Proof.
  induction l as [| [a b0] l IH]; [done |]. cbn [series_get].
  destruct (decide (d = a)) as [-> | Hne].
  - intros [= <-]. left.
  - intros H. right. by apply IH.
Qed.

Lemma series_get_NoDup l d b :
  NoDup l.*1 → (d, b) ∈ l → series_get l d = Some b.
Proof.
  induction l as [| [a b0] l IH]; intros Hnd Hin.
  - by apply elem_of_nil in Hin.
  - rewrite fmap_cons in Hnd. apply NoDup_cons in Hnd as [Ha Hnd].
    cbn [series_get]. apply elem_of_cons in Hin as [[= <- <-] | Hin].
    + by rewrite decide_True.
    + rewrite decide_False; [by apply IH |]. intros ->. apply Ha.
      apply list_elem_of_fmap. by exists (a, b).
Qed.

Lemma series_get_clean input d :
  series_get (clean_holiday_tuples input) d = series_get input d.
Proof.
  destruct (clean_loop_spec input ∅ []) as (kept & Hk & _ & Hnd & Hiff).
  unfold clean_holiday_tuples. rewrite Hk, app_nil_l.
  destruct (series_get input d) as [b |] eqn:E.
  - apply series_get_NoDup; [done |]. apply Hiff. split; [set_solver |].
    by apply series_get_first_at.
  - destruct (series_get kept d) as [b |] eqn:E'; [| done].
    apply series_get_elem, Hiff in E' as [_ Hf].
    apply series_get_first_at in Hf. congruence.
Qed.

Lemma series_get_first_name l d : series_get l d = first_name l d.
Proof.
  unfold first_name. induction l as [| [a b] l IH]; [done |].
  cbn [series_get]. rewrite filter_cons. cbn [fst].
  destruct (decide (d = a)) as [-> | Hne].
  - by rewrite decide_True.
  - rewrite decide_False by congruence. exact IH.
Qed.

Lemma zip_with_fmap_self {A B C} (h : A → B → C) (f : A → B) (l : list A) :
  zip_with h l (f <$> l) = (λ x, h x (f x)) <$> l.
Proof. induction l as [| a l IH]; [done |]. cbn. by rewrite <- IH. Qed.

(** X24. The frame of one year and one country never fails on a calendar
    that lists several names for a day: the cleaning keeps the first name
    of each day, so the series of names can be reindexed over the days of
    the year. A day without a listed name gets the factor 1; a day with
    names gets the factor of the first name listed for it, which is the
    special factor of that name when there is one and the holiday factor
    otherwise. *)
Theorem HolidayYear_year_frame (self : HolidayYear.t) (country : string)
    (holidays : list (Z * string)) (ix : list Z)
    (Hdate : _date_col_name (base self) ≠ "holiday")
    (Hcol : _col_name (base self)
            ∉ [_date_col_name (base self); "holiday"; "country"]) :
  year_frame self country holidays ix
  = OK {| columns := [_date_col_name (base self); "holiday"; "country";
                      _col_name (base self)];
          rows := (λ d,
                     match first_name holidays d with
                     | None => [CDate d; CNaN; CStr country; CNum 1]
                     | Some h =>
                         [CDate d; CStr h; CStr country;
                          CNum (default (_holiday_factor self)
                                  (dict_get (_special_holiday_factors self)
                                     h))]
                     end) <$> ix |}.
Proof.
  unfold year_frame, reindex.
  destruct (clean_loop_spec holidays ∅ []) as (kept & Hk & _ & Hnd & _).
  rewrite decide_True.
  2:{ unfold clean_holiday_tuples. by rewrite Hk, app_nil_l. }
  clear kept Hk Hnd. step. rewrite zip_with_fmap_self.
  rewrite decide_False by done.
  assert (index_of "holiday" [_date_col_name (base self); "holiday";
                              "country"] = Some 1%nat) as Hidx.
  { cbn [index_of]. rewrite decide_False by congruence.
    by rewrite decide_True. }
  rewrite (get_column_fmap _ _ "holiday" 1%nat) by exact Hidx. step.
  rewrite (mapM_fmap _ _
             (λ d, CNum (match first_name holidays d with
                         | None => 1
                         | Some h =>
                             default (_holiday_factor self)
                               (dict_get (_special_holiday_factors self) h)
                         end))).
  2:{ intros d _. unfold lookup_cell. cbn [lookup].
      rewrite series_get_clean, series_get_first_name.
      destruct (first_name holidays d) as [h |]; cbn; [| done].
      by destruct (dict_get _ h). }
  step. rewrite set_column_fmap_new by exact Hcol.
  f_equal. f_equal. apply list_fmap_ext. intros i d _. cbn beta.
  rewrite series_get_clean, series_get_first_name.
  by destruct (first_name holidays d).
Qed.

Lemma HolidayYear_year_frame_witness :
  year_frame Sample2.holiday "Italy" Sample2.calendar [0; 1; 2; 3]
  = OK {| columns := [_date_col_name (base Sample2.holiday); "holiday";
                      "country"; _col_name (base Sample2.holiday)];
          rows := (λ d,
                     match first_name Sample2.calendar d with
                     | None => [CDate d; CNaN; CStr "Italy"; CNum 1]
                     | Some h =>
                         [CDate d; CStr h; CStr "Italy";
                          CNum (default (_holiday_factor Sample2.holiday)
                                  (dict_get
                                     (_special_holiday_factors
                                        Sample2.holiday) h))]
                     end) <$> [0; 1; 2; 3] |}.
Proof.
  apply (HolidayYear_year_frame Sample2.holiday "Italy" Sample2.calendar
           [0; 1; 2; 3]).
  - discriminate.
  - apply (bool_decide_unpack _). vm_compute. exact I.
Defined.

(** The day 3 carries the holiday factor of its first name, not the
    special factor of its second name. *)
Example HolidayYear_year_frame_rows :
  year_frame Sample2.holiday "Italy" Sample2.calendar [2; 3]
  = OK {| columns := ["date"; "holiday"; "country"; "holiday_trend_factor"];
          rows := [[CDate 2; CNaN; CStr "Italy"; CNum 1];
                   [CDate 3; CStr "Ascension Thursday"; CStr "Italy";
                    CNum 2]] |}.
Proof. vm_compute. reflexivity. Qed.

End holiday_year.

(** ** sinusoidal_factor.py *)

Section sinusoidal.
Import SinusoidalFactor.

Variable wave : Q → Q → Q → Q → result cell.
Variable wave_array : Q → Q → Q → Q → cell.








End sinusoidal.

(** ** holiday_factor.py: the selection of the span *)

Section holiday_span.
Import HolidayYear.


End holiday_span.

(** ** The rows a factor generates *)

Section row_coverage.

Lemma take_date_keys {A} (f : A → Z) (rest : A → list cell) (l : list A) :
  take 1 <$> ((λ x, CDate (f x) :: rest x) <$> l) = date_keys (f <$> l).
Proof. unfold date_keys. by rewrite <- !list_fmap_compose. Qed.







End row_coverage.

